(** * csv_tool: the encoding-detection and chunked-split engine

    A shallow embedding of [detect_encoding] and [split_csv_logic] of
    [csv_tool.py], with the parts of the Python runtime they drive: the
    line iterator of a text file, the reader and the writer of the [csv]
    module in their default dialect, [itertools.islice], and the
    [try]/[except]/[finally] control flow.  Of the graphical front end
    ([main]), the two callbacks it hands to the engine, [append_log]
    and [set_loading], are embedded after the engine. *)

From Stdlib Require Import ZArith List Lia Ascii String.
From stdpp Require Import base numbers option list strings gmap pretty.

Local Open Scope Z_scope.

(** ** Text *)

(** A Python [str] is a sequence of Unicode code points. *)
Definition char := N.
Definition text := list char.

Definition LF : char := 10%N.
Definition CR : char := 13%N.
Definition DQUOTE : char := 34%N.
Definition COMMA : char := 44%N.

(** ASCII literals for examples. *)
Definition str (s : string) : text :=
  map Ascii.N_of_ascii (String.list_ascii_of_string s).

(** ** Exceptions

    The subclasses of [Exception] the engine can meet.  [StopIteration]
    is not among them: the exhaustion of an iterator is the [Stop] case
    of [step] below. *)
Inductive exn :=
| UnicodeDecodeError
| UnicodeError
| LookupError
| OSError
| CsvError
| ZeroDivisionError
| ValueError.

(** [except (UnicodeDecodeError, UnicodeError)] *)
Definition is_unicode_error (e : exn) : bool :=
  match e with
  | UnicodeDecodeError | UnicodeError => true
  | _ => false
  end.

Inductive result (A : Type) :=
| Ok (a : A)
| Raise (e : exn).
Arguments Ok {A} a.
Arguments Raise {A} e.

(** One [next(it)] on an iterator whose remaining state has type [S]. *)
Inductive step (A S : Type) :=
| Yield (a : A) (rest : S)
| Stop
| Fail (e : exn).
Arguments Yield {A S} a rest.
Arguments Stop {A S}.
Arguments Fail {A S} e.

(** ** The source file as the text layer delivers it *)

Inductive encoding := utf_8_sig | gbk | gb2312 | utf_8 | cp936 | big5.

(** The codec Python finds under each of the six names: [cp936] is an
    alias of [gbk], the other five have a codec of their own. *)
Definition codec (enc : encoding) : encoding :=
  match enc with
  | cp936 => gbk
  | _ => enc
  end.

(** [errors='strict'] (the default) and [errors='ignore']. *)
Inductive errors_mode := Strict | Ignore.

(** What [open(file_path, 'r', encoding=e, errors=m)] delivers.  The
    file object reads the file in chunks of 8192 bytes and decodes a
    chunk at a time, when the text of the chunks before it is used up.
    [d_text] is the text of the chunks that decode, up to the first
    chunk on which the decoder raises, and [d_error] the exception
    raised there, if any: of a chunk that holds an undecodable byte
    nothing is delivered, not even the text in front of that byte.
    ([OSError] with no text when the file cannot be opened.)  The
    codecs are the interpreter's; a source file is given by this
    table. *)
Record decoded := Decoded { d_text : text; d_error : option exn }.

Definition source := encoding -> errors_mode -> decoded.

(** Iterating a text file opened in universal-newlines mode ([newline]
    is [None] or ['']): a line ends after ["\n"], after ["\r\n"], or
    after a ["\r"] not followed by ["\n"]; the terminator stays on the
    line.  [cur] is the current line, last character first. *)
Fixpoint split_lines (cur : text) (t : text) : list text :=
  match t with
  | [] => match cur with [] => [] | _ => [rev cur] end
  | c :: t' =>
      if (c =? LF)%N then rev (c :: cur) :: split_lines [] t'
      else if (c =? CR)%N then
        match t' with
        | c' :: t'' =>
            if (c' =? LF)%N then rev (c' :: c :: cur) :: split_lines [] t''
            else rev (c :: cur) :: split_lines [] t'
        | [] => [rev (c :: cur)]
        end
      else split_lines (c :: cur) t'
  end.

(** [newline=None] translates every terminator to ["\n"];
    [newline=''] leaves the lines as they are. *)
Inductive newline_mode := NewlineNone | NewlineEmpty.

Fixpoint translate_line (l : text) : text :=
  match l with
  | [] => []
  | c :: l' =>
      if (c =? CR)%N then [LF]
      else c :: translate_line l'
  end.

Definition ends_with_newline (l : text) : bool :=
  match last l with
  | Some c => (c =? LF)%N || (c =? CR)%N
  | None => false
  end.

(** While more of the file is to come, the file object keeps a ["\r"]
    at the end of the decoded text back, until it has seen whether a
    ["\n"] follows. *)
Definition held_back (t : text) : text :=
  match last t with
  | Some c => if (c =? CR)%N then removelast t else t
  | None => t
  end.

(** The text as [read] returns it with [newline=None]. *)
Definition translate (t : text) : text :=
  concat (map translate_line (split_lines [] t)).

(** The lines a file object yields before it is exhausted or raises.
    When a chunk fails to decode, the lines that the chunks before it
    complete have been yielded; the line that was waiting for its end
    is not. *)
Definition file_lines (nl : newline_mode) (d : decoded) : list text :=
  let ls := match d_error d with
            | None => split_lines [] (d_text d)
            | Some _ =>
                filter (fun l => ends_with_newline l = true)
                  (split_lines [] (held_back (d_text d)))
            end in
  match nl with
  | NewlineNone => map translate_line ls
  | NewlineEmpty => ls
  end.

(** ** detect_encoding *)

Definition encodings_to_try : list encoding :=
  [utf_8_sig; gbk; gb2312; utf_8; cp936; big5].

(** [with open(file_path, 'r', encoding=encoding) as f: f.read(2048)]:
    [read] decodes chunk after chunk until it has 2048 characters,
    line ends translated, or the file ends.  It goes through when
    every chunk decodes, or when the chunks before the first that does
    not decode hold the 2048 characters already; [None] is success. *)
Definition probe (src : source) (enc : encoding) : option exn :=
  let d := src enc Strict in
  match d_error d with
  | None => None
  | Some e =>
      if (2048 <=? N.of_nat (length (translate (held_back (d_text d)))))%N
      then None else Some e
  end.

Fixpoint try_encodings (src : source) (l : list encoding) : result encoding :=
  match l with
  | [] => Ok gbk
  | enc :: l' =>
      match probe src enc with
      | None => Ok enc
      | Some e => if is_unicode_error e then try_encodings src l' else Raise e
      end
  end.

Definition detect_encoding (src : source) : result encoding :=
  try_encodings src encodings_to_try.

(** ** The csv module, default dialect

    [csv.reader(f)] and [csv.writer(f)] with no argument use the
    [excel] dialect: delimiter [,], quotechar the double quote,
    [doublequote=True], no escapechar, [skipinitialspace=False],
    [lineterminator="\r\n"], [QUOTE_MINIMAL], [strict=False].  The
    parser states that only an escapechar reaches are left out. *)

Definition row := list text.

Inductive ParserState :=
| START_RECORD
| START_FIELD
| IN_FIELD
| IN_QUOTED_FIELD
| QUOTE_IN_QUOTED_FIELD
| EAT_CRNL.

(** The reader object between two characters: its state, the field
    being collected and the fields already saved, both in order. *)
Record Reader := MkReader {
  state : ParserState;
  field : text;
  fields : row
}.

(** [csv.field_size_limit()] *)
Definition field_limit : N := 131072%N.

(** The parser is fed the characters of a line and then [EOL]. *)
Inductive input := Ch (c : char) | EOL.

Definition is_newline_input (i : input) : bool :=
  match i with
  | Ch c => (c =? LF)%N || (c =? CR)%N
  | EOL => false
  end.

Definition parse_reset : Reader :=
  MkReader START_RECORD [] [].

(** Fails with [csv.Error] ("field larger than field limit"). *)
Definition parse_add_char (rd : Reader) (c : char) : option Reader :=
  if (field_limit <=? N.of_nat (length (field rd)))%N then None
  else Some (MkReader (state rd) (field rd ++ [c]) (fields rd)).

Definition parse_save_field (rd : Reader) : Reader :=
  MkReader (state rd) [] (fields rd ++ [field rd]).

Definition set_state (s : ParserState) (rd : Reader) : Reader :=
  MkReader s (field rd) (fields rd).

Definition after_line_end (i : input) : ParserState :=
  match i with
  | EOL => START_RECORD
  | Ch _ => EAT_CRNL
  end.

Definition start_field (rd : Reader) (i : input) : option Reader :=
  match i with
  | EOL => Some (set_state START_RECORD (parse_save_field rd))
  | Ch c =>
      if is_newline_input i then Some (set_state EAT_CRNL (parse_save_field rd))
      else if (c =? DQUOTE)%N then Some (set_state IN_QUOTED_FIELD rd)
      else if (c =? COMMA)%N then Some (set_state START_FIELD (parse_save_field rd))
      else set_state IN_FIELD <$> parse_add_char rd c
  end.

(** [parse_process_char]; [None] is [csv.Error]. *)
Definition parse_process_char (rd : Reader) (i : input) : option Reader :=
  match state rd with
  | START_RECORD =>
      match i with
      | EOL => Some rd
      | Ch _ =>
          if is_newline_input i then Some (set_state EAT_CRNL rd)
          else start_field rd i
      end
  | START_FIELD => start_field rd i
  | IN_FIELD =>
      match i with
      | EOL => Some (set_state START_RECORD (parse_save_field rd))
      | Ch c =>
          if is_newline_input i then Some (set_state EAT_CRNL (parse_save_field rd))
          else if (c =? COMMA)%N then Some (set_state START_FIELD (parse_save_field rd))
          else parse_add_char rd c
      end
  | IN_QUOTED_FIELD =>
      match i with
      | EOL => Some rd
      | Ch c =>
          if (c =? DQUOTE)%N then Some (set_state QUOTE_IN_QUOTED_FIELD rd)
          else parse_add_char rd c
      end
  | QUOTE_IN_QUOTED_FIELD =>
      match i with
      | EOL => Some (set_state START_RECORD (parse_save_field rd))
      | Ch c =>
          if (c =? DQUOTE)%N then set_state IN_QUOTED_FIELD <$> parse_add_char rd c
          else if (c =? COMMA)%N then Some (set_state START_FIELD (parse_save_field rd))
          else if is_newline_input i then Some (set_state EAT_CRNL (parse_save_field rd))
          else set_state IN_FIELD <$> parse_add_char rd c
      end
  | EAT_CRNL =>
      match i with
      | EOL => Some (set_state START_RECORD rd)
      | Ch _ => if is_newline_input i then Some rd else None
      end
  end.

Fixpoint process_chars (rd : Reader) (l : text) : option Reader :=
  match l with
  | [] => Some rd
  | c :: l' =>
      match parse_process_char rd (Ch c) with
      | Some rd' => process_chars rd' l'
      | None => None
      end
  end.

(** One pass of the [do ... while] of [Reader_iternext]: the characters
    of the line, then [EOL]. *)
Definition process_line (rd : Reader) (l : text) : option Reader :=
  match process_chars rd l with
  | Some rd' => parse_process_char rd' EOL
  | None => None
  end.

Definition is_start_record (rd : Reader) : bool :=
  match state rd with
  | START_RECORD => true
  | _ => false
  end.

Definition is_in_quoted_field (rd : Reader) : bool :=
  match state rd with
  | IN_QUOTED_FIELD => true
  | _ => false
  end.

(** [self->field_len != 0 || self->state == IN_QUOTED_FIELD] *)
Definition has_partial_record (rd : Reader) : bool :=
  negb (bool_decide (field rd = [])) || is_in_quoted_field rd.

(** The input iterator of a reader: the lines not yet pulled, and the
    exception the file object raises once they are used up. *)
Record LineIter := MkLineIter {
  pending : list text;
  failure : option exn
}.

(** [Reader_iternext] after [parse_reset]: lines are pulled until the
    parser is back in [START_RECORD].  When the input ends inside a
    record, a non-strict reader returns what it has. *)
Fixpoint iternext (rd : Reader) (ls : list text) (err : option exn)
  : step row LineIter :=
  match ls with
  | [] =>
      match err with
      | Some e => Fail e
      | None =>
          if has_partial_record rd
          then Yield (fields (parse_save_field rd)) (MkLineIter [] None)
          else Stop
      end
  | l :: ls' =>
      match process_line rd l with
      | None => Fail CsvError
      | Some rd' =>
          if is_start_record rd' then Yield (fields rd') (MkLineIter ls' err)
          else iternext rd' ls' err
      end
  end.

(** [next(reader)] *)
Definition reader_next (it : LineIter) : step row LineIter :=
  iternext parse_reset (pending it) (failure it).

(** [csv.writer]: [join_append] for one field.  A field is quoted when
    asked to, or when it holds the delimiter, the quotechar or a
    character of the line terminator; a quote inside is doubled. *)
Definition needs_quote (c : char) : bool :=
  (c =? COMMA)%N || (c =? DQUOTE)%N || (c =? CR)%N || (c =? LF)%N.

Fixpoint double_quotes (f : text) : text :=
  match f with
  | [] => []
  | c :: f' =>
      if (c =? DQUOTE)%N then DQUOTE :: DQUOTE :: double_quotes f'
      else c :: double_quotes f'
  end.

Definition join_append (quoted : bool) (f : text) : text :=
  if quoted || existsb needs_quote f
  then DQUOTE :: double_quotes f ++ [DQUOTE]
  else f.

Fixpoint join_fields (r : row) : text :=
  match r with
  | [] => []
  | [f] => join_append false f
  | f :: r' => join_append false f ++ COMMA :: join_fields r'
  end.

(** The text [writer.writerow(r)] writes: a record that is not empty
    but came out empty (one empty field) is written as two quotes. *)
Definition writerow (r : row) : text :=
  let rec := join_fields r in
  let rec := match r, rec with
             | _ :: _, [] => join_append true []
             | _, _ => rec
             end in
  rec ++ [CR; LF].

(** ** The world the engine runs in *)

(** A file written by the engine: the encoding it was opened with and
    the text written to it so far ([newline=''], so nothing is
    translated on the way out).  Its bytes are that text in that
    encoding; the text comes out of the decoder of the same encoding,
    and the encoder is taken to accept it. *)
Record OutFile := MkOutFile {
  f_encoding : encoding;
  f_text : text
}.

(** The messages handed to [log_callback], by their format string. *)
Inductive Event :=
| EvStart (name : string)
| EvMkdir (folder : string)
| EvDetecting
| EvDetected (enc : encoding)
| EvCounting
| EvCountRetry
| EvNoData
| EvPlan (data_rows num_parts chunk_size : Z)
| EvEarlyEnd (produced : nat)
| EvPart (index : nat) (num_parts : Z) (part_filename : string)
| EvSplitRetry (e : exn)
| EvDone (folder : string)
| EvUnexpected (e : exn).

(** The level of a message is carried by the mark it starts with: a
    cross for errors, a warning sign for warnings, a party popper for
    success, anything else is informational. *)
Inductive Level := Info | Warning | Success | Error.

Definition level (ev : Event) : Level :=
  match ev with
  | EvNoData | EvUnexpected _ => Error
  | EvCountRetry | EvSplitRetry _ => Warning
  | EvDone _ => Success
  | _ => Info
  end.

Definition is_error (ev : Event) : bool :=
  match level ev with
  | Error => true
  | _ => false
  end.

Definition is_warning (ev : Event) : bool :=
  match level ev with
  | Warning => true
  | _ => false
  end.

(** What the run cannot change: the source file, the failures of the
    file system on the output side ([os.makedirs], and [open] for
    writing, by file name), and the platform's [os.path.basename] and
    [os.path.splitext]. *)
Record Env := MkEnv {
  decodings : source;
  makedirs_error : option exn;
  open_w_error : string -> option exn;
  basename : string -> string;
  splitext : string -> string * string
}.

(** The source file as [open] delivers it under the name [enc]. *)
Definition src (env : Env) : source :=
  fun enc m => decodings env (codec enc) m.


(** What the run changes: the output folder (whether it exists, and
    its files by name), and the calls received by the two callbacks,
    oldest first. *)
Record World := MkWorld {
  dir_exists : bool;
  files : gmap string OutFile;
  log : list Event;
  busy : list bool
}.

(** ** Statements: a state and exception monad *)

Definition M (A : Type) : Type := World -> result A * World.

Definition ret {A} (a : A) : M A := fun w => (Ok a, w).

Definition raise {A} (e : exn) : M A := fun w => (Raise e, w).

Definition bind {A B} (m : M A) (k : A -> M B) : M B :=
  fun w =>
    match m w with
    | (Ok a, w') => k a w'
    | (Raise e, w') => (Raise e, w')
    end.

(** [try: m  except Exception as e: h e] *)
Definition try_except {A} (m : M A) (h : exn -> M A) : M A :=
  fun w =>
    match m w with
    | (Ok a, w') => (Ok a, w')
    | (Raise e, w') => h e w'
    end.

(** [try: m  finally: c]: [c] runs on both ways out, and the outcome
    of [m] stands unless [c] raises. *)
Definition try_finally {A} (m : M A) (c : M unit) : M A :=
  fun w =>
    match m w with
    | (r, w') =>
        match c w' with
        | (Ok _, w'') => (r, w'')
        | (Raise e, w'') => (Raise e, w'')
        end
    end.

Definition lift {A} (r : result A) : M A := fun w => (r, w).

Declare Scope py_scope.
Delimit Scope py_scope with py.
Notation "x <- m ;; k" := (bind m (fun x => k))
  (at level 100, m at next level, right associativity) : py_scope.
Notation "m ;; k" := (bind m (fun _ => k))
  (at level 100, right associativity) : py_scope.
Local Open Scope py_scope.

(** The callbacks record their argument and return. *)
Definition log_callback (ev : Event) : M unit :=
  fun w => (Ok tt, MkWorld (dir_exists w) (files w) (log w ++ [ev]) (busy w)).

Definition progress_callback (b : bool) : M unit :=
  fun w => (Ok tt, MkWorld (dir_exists w) (files w) (log w) (busy w ++ [b])).

(** [os.path.exists(output_folder)] *)
Definition path_exists : M bool :=
  fun w => (Ok (dir_exists w), w).

(** [os.makedirs(output_folder)] *)
Definition makedirs (env : Env) : M unit :=
  fun w =>
    match makedirs_error env with
    | Some e => (Raise e, w)
    | None => (Ok tt, MkWorld true (files w) (log w) (busy w))
    end.

(** [open(save_path, 'w', encoding=encoding, newline='')]: the file is
    created or emptied. *)
Definition open_w (env : Env) (name : string) (enc : encoding) : M unit :=
  fun w =>
    match open_w_error env name with
    | Some e => (Raise e, w)
    | None =>
        (Ok tt, MkWorld (dir_exists w) (<[name := MkOutFile enc []]> (files w))
                        (log w) (busy w))
    end.

Definition append_text (t : text) (f : OutFile) : OutFile :=
  MkOutFile (f_encoding f) (f_text f ++ t).

(** [f_out.write(t)] on the open file [name]. *)
Definition write (name : string) (t : text) : M unit :=
  fun w =>
    (Ok tt, MkWorld (dir_exists w) (alter (append_text t) name (files w))
                    (log w) (busy w)).

(** ** split_csv_logic *)

(** The ceiling of the exact quotient (the division rounds down). *)
Definition ceil_div (a b : Z) : Z := - ((- a) / b).

(** [a / b] on two [int] is the double nearest to the quotient.  A
    positive quotient of at most 2^-1075, half the least positive
    double, comes out as [0.0]. *)
Definition underflows (a b : Z) : bool :=
  (0 <? a * b) && (Z.abs a * 2 ^ 1075 <=? Z.abs b).

(** The ceiling of that double, for a dividend below 2^53 in absolute
    value, which the count of the lines of a file is: the double then
    has the ceiling of the exact quotient, unless the quotient
    underflows.  (From 2^53 on the dividend itself may be rounded.) *)
Definition float_ceil (a b : Z) : Z :=
  if underflows a b then 0 else ceil_div a b.

(** [math.ceil(data_rows / num_parts)] *)
Definition math_ceil (a b : Z) : M Z :=
  if b =? 0 then raise ZeroDivisionError else ret (float_ceil a b).

(** [with open(file_path, 'r', encoding=encoding) as f:
       total_lines = sum(1 for _ in f)],
    with [errors='ignore'] added in the second mode. *)
Definition count_lines (env : Env) (enc : encoding) (m : errors_mode) : M Z :=
  let d := src env enc m in
  match d_error d with
  | Some e => raise e
  | None => ret (Z.of_nat (length (file_lines NewlineNone d)))
  end.

(** [f"{base_name}_part_{i + 1}.csv"] *)
Definition part_filename (base_name : string) (i : nat) : string :=
  base_name +:+ "_part_" +:+ pretty (i + 1)%nat +:+ ".csv".

(** [islice(reader, chunk_size)]: the number of rows it may still
    yield; a negative stop is refused. *)
Definition islice (stop : Z) : M nat :=
  if stop <? 0 then raise ValueError else ret (Z.to_nat stop).

(** [next] on an [islice] that may still yield [remaining] rows. *)
Definition islice_next (remaining : nat) (it : LineIter) : step row LineIter :=
  match remaining with
  | O => Stop
  | S _ => reader_next it
  end.

(** [writer.writerows(current_chunk_iter)], with [k] rows left in the
    slice: each row is pulled from the reader and written at once.
    Returns the reader as the slice leaves it. *)
Fixpoint writerows (name : string) (k : nat) (it : LineIter) : M LineIter :=
  match k with
  | O => ret it
  | S k' =>
      match reader_next it with
      | Yield r it' => write name (writerow r) ;; writerows name k' it'
      | Stop => ret it
      | Fail e => raise e
      end
  end.

Section process_splitting.

(** The variables the inner function closes over. *)
Variable env : Env.
Variable detected : encoding.
Variable num_parts : Z.
Variable chunk_size : Z.
Variable base_name : string.

(** [for i in range(num_parts)], with [n] indices left from [i] on. *)
Fixpoint split_loop (header : row) (n : nat) (i : nat) (reader : LineIter)
  : M unit :=
  match n with
  | O => ret tt
  | S n' =>
      k <- islice chunk_size ;;
      match islice_next k reader with
      | Stop => log_callback (EvEarlyEnd i)
      | Fail e => raise e
      | Yield first_row reader1 =>
          let name := part_filename base_name i in
          open_w env name detected ;;
          write name (writerow header) ;;
          write name (writerow first_row) ;;
          reader2 <- writerows name (k - 1) reader1 ;;
          log_callback (EvPart (i + 1) num_parts name) ;;
          split_loop header n' (S i) reader2
      end
  end.

Definition process_splitting (m : errors_mode) : M unit :=
  let d := src env detected m in
  let reader := MkLineIter (file_lines NewlineEmpty d) (d_error d) in
  match reader_next reader with
  | Stop => ret tt
  | Fail e => raise e
  | Yield header reader1 => split_loop header (Z.to_nat num_parts) 0 reader1
  end.

End process_splitting.

(** The counting stage: the strict pass and, when it raises, a warning
    and the pass again with [errors='ignore']. *)
Definition count_stage (env : Env) (detected : encoding) : M Z :=
  try_except (count_lines env detected Strict)
    (fun _ => log_callback EvCountRetry ;;
              count_lines env detected Ignore).

(** The splitting stage, in the same two steps. *)
Definition split_stage (env : Env) (detected : encoding)
    (num_parts chunk_size : Z) (base_name : string) : M unit :=
  try_except
    (process_splitting env detected num_parts chunk_size base_name Strict)
    (fun e =>
       log_callback (EvSplitRetry e) ;;
       process_splitting env detected num_parts chunk_size base_name Ignore).

(** The body of the outer [try] of [split_csv_logic]. *)
Definition split_body (env : Env) (file_path : string) (num_parts : Z)
    (output_folder : string) : M unit :=
  log_callback (EvStart (basename env file_path)) ;;
  progress_callback true ;;
  present <- path_exists ;;
  (if present : bool then ret tt
   else makedirs env ;; log_callback (EvMkdir output_folder)) ;;
  let base_name := fst (splitext env (basename env file_path)) in
  log_callback EvDetecting ;;
  detected <- lift (detect_encoding (src env)) ;;
  log_callback (EvDetected detected) ;;
  log_callback EvCounting ;;
  total_lines <- count_stage env detected ;;
  let data_rows := total_lines - 1 in
  if data_rows <=? 0 then
    log_callback EvNoData ;;
    progress_callback false
  else
    chunk_size <- math_ceil data_rows num_parts ;;
    log_callback (EvPlan data_rows num_parts chunk_size) ;;
    split_stage env detected num_parts chunk_size base_name ;;
    log_callback (EvDone output_folder).

Definition split_csv_logic (env : Env) (file_path : string) (num_parts : Z)
    (output_folder : string) : M unit :=
  try_finally
    (try_except
       (split_body env file_path num_parts output_folder)
       (fun e => log_callback (EvUnexpected e)))
    (progress_callback false).

(** A run from a given world: the outcome and the world it leaves. *)
Definition run (env : Env) (file_path : string) (num_parts : Z)
    (output_folder : string) (w : World) : result unit * World :=
  split_csv_logic env file_path num_parts output_folder w.

(** ** Whole-file views used to state the properties *)

(** The reader [csv.reader(f_in)] starts from. *)
Definition open_reader (env : Env) (enc : encoding) (m : errors_mode) : LineIter :=
  let d := src env enc m in
  MkLineIter (file_lines NewlineEmpty d) (d_error d).

(** [list(csv.reader(lines))] for lines that all arrive: every record
    in order, [None] when the parser raises [csv.Error].  [rd] is the
    reader inside the current record. *)
Fixpoint records_from (rd : Reader) (ls : list text) : option (list row) :=
  match ls with
  | [] =>
      if has_partial_record rd
      then Some [fields (parse_save_field rd)]
      else Some []
  | l :: ls' =>
      match process_line rd l with
      | None => None
      | Some rd' =>
          if is_start_record rd'
          then cons (fields rd') <$> records_from parse_reset ls'
          else records_from rd' ls'
      end
  end.

Definition records (ls : list text) : option (list row) :=
  records_from parse_reset ls.

(** The text of a file to which the rows were written in turn. *)
Definition render (rs : list row) : text :=
  concat (map writerow rs).

(** The number of lines the counting pass finds in mode [m]. *)
Definition line_count (env : Env) (enc : encoding) (m : errors_mode) : Z :=
  Z.of_nat (length (file_lines NewlineNone (src env enc m))).

(** Sequential chunking: the output folder after at most [n] parts of
    [cs] rows each were written, the first of them with index [i]. *)
Fixpoint write_parts (enc : encoding) (base_name : string) (header : row)
    (cs n i : nat) (rows : list row) (fs : gmap string OutFile)
  : gmap string OutFile :=
  match n, rows with
  | S n', _ :: _ =>
      write_parts enc base_name header cs n' (S i) (drop cs rows)
        (<[part_filename base_name i :=
             MkOutFile enc (render (header :: take cs rows))]> fs)
  | _, _ => fs
  end.

(** The messages of the loop for the same run. *)
Fixpoint part_events (base_name : string) (num_parts : Z)
    (cs n i : nat) (rows : list row) : list Event :=
  match n with
  | O => []
  | S n' =>
      match rows with
      | [] => [EvEarlyEnd i]
      | _ :: _ =>
          EvPart (i + 1) num_parts (part_filename base_name i)
          :: part_events base_name num_parts cs n' (S i) (drop cs rows)
      end
  end.

(** The number of parts that hold [len] rows, [cs] to a part. *)
Definition parts_needed (cs len : nat) : nat :=
  Z.to_nat (ceil_div (Z.of_nat len) (Z.of_nat cs)).

Definition count_errors (evs : list Event) : nat :=
  length (filter (fun ev => is_error ev = true) evs).

(** ** Scenarios *)

Module Scenario.

(** [posixpath.basename]: what follows the last slash. *)
Fixpoint has_slash (p : string) : bool :=
  match p with
  | EmptyString => false
  | String a p' => if Ascii.eqb a "/" then true else has_slash p'
  end.

Fixpoint posix_basename (p : string) : string :=
  match p with
  | EmptyString => EmptyString
  | String _ p' => if has_slash p then posix_basename p' else p
  end.

(** [posixpath.splitext] of a name without a slash: the extension
    starts at the last dot, unless only dots come before it. *)
Fixpoint split_last_dot (s : string) : option (string * string) :=
  match s with
  | EmptyString => None
  | String a s' =>
      match split_last_dot s' with
      | Some (r, e) => Some (String a r, e)
      | None => if Ascii.eqb a "." then Some (EmptyString, s) else None
      end
  end.

Fixpoint all_dots (s : string) : bool :=
  match s with
  | EmptyString => true
  | String a s' => Ascii.eqb a "." && all_dots s'
  end.

Definition posix_splitext (p : string) : string * string :=
  match split_last_dot p with
  | Some (r, e) => if all_dots r then (p, EmptyString) else (r, e)
  | None => (p, EmptyString)
  end.

(** A source on a POSIX system with a file system that does not fail. *)
Definition env_of (s : source) : Env :=
  MkEnv s None (fun _ => None) posix_basename posix_splitext.

(** A file of valid ASCII decodes alike under the six candidates, in
    both modes. *)
Definition plain (t : text) : Env :=
  env_of (fun _ _ => Decoded t None).

(** A world where the output folder does not exist yet. *)
Definition fresh : World := MkWorld false ∅ [] [].

(** The data row [r<k>,x] ended by a line feed, and its record. *)
Definition data_line (k : nat) : text := str ("r" +:+ pretty k +:+ ",x") ++ [LF].
Definition data_row (k : nat) : row := [str ("r" +:+ pretty k); str "x"].

(** A header [a,b] and the data rows 1 to [n]. *)
Definition table (n : nat) : text :=
  str "a,b" ++ [LF] ++ concat (map data_line (seq 1 n)).

Definition table_header : row := [str "a"; str "b"].
Definition table_rows (n : nat) : list row := map data_row (seq 1 n).

(** A file of two lines that holds one record: a header of one quoted
    field with a line feed inside, [a], line feed, [b]. *)
Definition quoted_newline : text :=
  [DQUOTE] ++ str "a" ++ [LF] ++ str "b" ++ [DQUOTE; LF].

(** A file whose header quotes its first field: the two lines
    ["a",b] and [1,2], each ended by a carriage return and a line feed. *)
Definition quoted_header : text :=
  [DQUOTE] ++ str "a" ++ [DQUOTE] ++ str ",b" ++ [CR; LF]
  ++ str "1,2" ++ [CR; LF].

(** A file whose second record has a quoted field with a comma, a
    doubled quote, and a line break inside. *)
Definition tricky : text :=
  str "k,v" ++ [LF]
  ++ str "1," ++ [DQUOTE] ++ str "x, " ++ [DQUOTE; DQUOTE] ++ str "y"
  ++ [DQUOTE; DQUOTE; CR; LF] ++ str "z" ++ [DQUOTE; LF].

(** A file that cannot be opened. *)
Definition missing : Env :=
  env_of (fun _ _ => Decoded [] (Some OSError)).

(** A file given by its bytes, each an ASCII character or the byte
    [0xFF] with an ASCII character after it in the same chunk, a
    sequence that none of the six codecs decodes.  Strict decoding
    delivers the chunks of 8192 bytes in front of the first chunk that
    holds such a byte, and fails there; with [errors='ignore'] the
    bytes [0xFF] are dropped. *)
Fixpoint first_bad (bytes : list N) : option N :=
  match bytes with
  | [] => None
  | b :: bytes' =>
      if (b <? 128)%N then N.succ <$> first_bad bytes' else Some 0%N
  end.

Definition decode_ascii (bytes : list N) (m : errors_mode) : decoded :=
  match m with
  | Ignore => Decoded (filter (fun b => (b <? 128)%N = true) bytes) None
  | Strict =>
      match first_bad bytes with
      | None => Decoded bytes None
      | Some i =>
          Decoded (take (N.to_nat (i / 8192 * 8192)) bytes)
            (Some UnicodeDecodeError)
      end
  end.

Definition ascii_file (bytes : list N) : Env :=
  env_of (fun _ m => decode_ascii bytes m).

(** A file of a header and 1200 data rows with the byte [0xFF] in its
    last line, in the second chunk: strict decoding delivers the first
    8192 characters and fails, decoding with [errors='ignore']
    delivers the 1200 rows. *)
Definition late_error : Env :=
  ascii_file (table 1199 ++ str "r1200," ++ [255%N] ++ str "x" ++ [LF]).

(** A file of 3000 letters, the byte [0xFF] and one more letter: the
    byte is behind the first 2048 characters, in the first chunk. *)
Definition bad_byte_in_first_chunk : Env :=
  ascii_file (repeat 120%N 3000 ++ [255%N; 120%N]).

End Scenario.

(** ** Relations between the worlds before and after a statement *)

(** Only the files of the output folder changed. *)
Definition files_only (w w' : World) : Prop :=
  dir_exists w' = dir_exists w /\ log w' = log w /\ busy w' = busy w.

(** The folder stayed, the busy callback was not called, and every
    message logged is informational. *)
Definition quiet (w w' : World) : Prop :=
  dir_exists w' = dir_exists w /\ busy w' = busy w /\
  exists evs, log w' = log w ++ evs /\ Forall (fun ev => level ev = Info) evs.

(** The messages logged between two worlds. *)
Definition new_events (w w' : World) : list Event :=
  drop (length (log w)) (log w').


(** The folder stayed, the busy callback was not called, and no error
    message was logged. *)
Definition calm (w w' : World) : Prop :=
  dir_exists w' = dir_exists w /\ busy w' = busy w /\
  exists evs, log w' = log w ++ evs /\ Forall (fun ev => is_error ev = false) evs.

Definition no_error (evs : list Event) : Prop :=
  Forall (fun ev => is_error ev = false) evs.

(** [m], started in [w], ends in an outcome and a world that satisfy [Q]. *)
Definition sat {A} (m : M A) (w : World) (Q : result A -> World -> Prop) : Prop :=
  Q (m w).1 (m w).2.

(** What the body of the outer [try] can leave behind, seen from the
    world [w] it started in: an exception after no error message; or
    completion after the success message; or completion on the
    no-data branch, after its error message and a second call of the
    busy callback, with the files of the folder as they were. *)
Definition body_post (output_folder : string) (w : World)
    (r : result unit) (w1 : World) : Prop :=
  exists evs, log w1 = log w ++ evs /\
    match r with
    | Raise e => busy w1 = busy w ++ [true] /\ no_error evs
    | Ok _ =>
        (busy w1 = busy w ++ [true] /\
         exists evs0, evs = evs0 ++ [EvDone output_folder] /\ no_error evs0)
        \/
        (busy w1 = busy w ++ [true; false] /\ files w1 = files w /\
         exists evs0, evs = evs0 ++ [EvNoData] /\ no_error evs0)
    end.

(** The total the counting stage arrives at, when one of its passes
    gets through the file. *)
Definition counted_lines (env : Env) (enc : encoding) : option Z :=
  match d_error (src env enc Strict) with
  | None => Some (line_count env enc Strict)
  | Some _ =>
      match d_error (src env enc Ignore) with
      | None => Some (line_count env enc Ignore)
      | Some _ => None
      end
  end.

(** The warning of the counting stage, when its strict pass raised. *)
Definition count_events (env : Env) (enc : encoding) : list Event :=
  match d_error (src env enc Strict) with
  | None => []
  | Some _ => [EvCountRetry]
  end.

(** The probe of a candidate went through. *)
Definition probe_ok (s : source) (enc : encoding) : bool :=
  match probe s enc with
  | None => true
  | Some _ => false
  end.

(** A file that was opened in the encoding [enc] and starts with the
    line the writer writes for [header]. *)
Definition starts_with_header (enc : encoding) (header : row) (f : OutFile)
  : Prop :=
  f_encoding f = enc /\ writerow header `prefix_of` f_text f.

(** A file of the folder after a run of the engine on [env]: a part,
    which starts with the header some pass of the splitting stage read,
    or a file that was there before and was not touched. *)
Definition part_or_old (env : Env) (old : gmap string OutFile)
    (name : string) (f : OutFile) : Prop :=
  old !! name = Some f \/
  exists enc m header reader1,
    detect_encoding (src env) = Ok enc /\
    reader_next (open_reader env enc m) = Yield header reader1 /\
    starts_with_header enc header f.

(** The messages up to the counting stage. *)
Definition start_events (env : Env) (file_path output_folder : string)
    (present : bool) (enc : encoding) : list Event :=
  EvStart (basename env file_path)
  :: (if present then [] else [EvMkdir output_folder])
  ++ [EvDetecting; EvDetected enc; EvCounting].

(** Lists of messages up to the bracketing of [++]. *)
Ltac list_assoc :=
  repeat first [rewrite <- app_assoc | rewrite <- app_comm_cons | progress simpl].

(** One statement of a sequence, by the rule [lem] for [bind]. *)
Tactic Notation "step_with" uconstr(lem) :=
  apply lem; unfold sat at 1; simpl.

(** ** Reading back what the writer wrote *)

(** The parser after one more input; [None] once it has raised. *)
Definition feed (o : option Reader) (i : input) : option Reader :=
  match o with
  | Some rd => parse_process_char rd i
  | None => None
  end.

(** The end of a line: the parser is fed [EOL]; back in [START_RECORD]
    it hands out a record and is reset, and [k] reads on. *)
Definition line_end (o : option Reader)
    (k : option Reader -> option (list row)) : option (list row) :=
  match feed o EOL with
  | None => None
  | Some rd =>
      if is_start_record rd then cons (fields rd) <$> k (Some parse_reset)
      else k (Some rd)
  end.

(** The end of the text, at the start of a line. *)
Definition text_end (o : option Reader) : option (list row) :=
  match o with
  | Some rd => records_from rd []
  | None => None
  end.

(** The records of a text, read character by character: [o] is the
    parser inside the current line, and [fresh] says that the line has
    no character yet.  It computes [records_from] over [split_lines]
    without building the lines. *)
Fixpoint read_text (o : option Reader) (fresh : bool) (t : text)
  : option (list row) :=
  match t with
  | [] => if fresh then text_end o else line_end o text_end
  | c :: t' =>
      if (c =? LF)%N then
        line_end (feed o (Ch c)) (fun o' => read_text o' true t')
      else if (c =? CR)%N then
        match t' with
        | c' :: t'' =>
            if (c' =? LF)%N then
              line_end (feed (feed o (Ch c)) (Ch c'))
                (fun o' => read_text o' true t'')
            else line_end (feed o (Ch c)) (fun o' => read_text o' true t')
        | [] => line_end (feed o (Ch c)) text_end
        end
      else read_text (feed o (Ch c)) false t'
  end.

(** A field the reader accepts, and a row of such fields. *)
Definition field_ok (f : text) : Prop :=
  (N.of_nat (length f) <= field_limit)%N.

Definition row_ok (r : row) : Prop := Forall field_ok r.

(** The parser at the end of the text of a field [f] that the writer
    wrote and that started in state [st0]. *)
Definition after_field (st0 : ParserState) (f : text) (flds : row) : Reader :=
  MkReader
    (if existsb needs_quote f then QUOTE_IN_QUOTED_FIELD
     else match f with [] => st0 | _ :: _ => IN_FIELD end)
    f flds.

(** What the reader holds is within the field size limit. *)
Definition reader_ok (rd : Reader) : Prop :=
  field_ok (field rd) /\ row_ok (fields rd).


(** The rows of a written file, as the CSV reader reads them back. *)
Definition part_rows (f : OutFile) : option (list row) :=
  records (split_lines [] (f_text f)).

(** ** Views used by the further properties *)

(** The folder [fs'] is the folder [fs], except that files named as the
    parts of index below [n] may have been created or rewritten:
    every other name is as it was, and no file is gone. *)
Definition only_parts (base_name : string) (n : nat)
    (fs fs' : gmap string OutFile) : Prop :=
  (forall name,
     (forall k, (k < n)%nat -> name <> part_filename base_name k) ->
     fs' !! name = fs !! name) /\
  (forall name, is_Some (fs !! name) -> is_Some (fs' !! name)).

(** The statement [m] does the same in whatever world it starts: it
    has one outcome, stores the same files over those of the same name,
    logs the same messages and makes the same calls of the busy
    callback, and leaves the folder itself as it is. *)
Definition uniformly {A} (m : M A) : Prop :=
  exists (r : result A) (delta : gmap string OutFile)
         (evs : list Event) (bs : list bool),
    forall w,
      m w = (r, MkWorld (dir_exists w) (delta ∪ files w)
                  (log w ++ evs) (busy w ++ bs)).

(** The messages that announce the [k] parts from index [i] on. *)
Definition announced_from (base_name : string) (num_parts : Z) (i k : nat)
  : list Event :=
  map (fun j => EvPart (i + j + 1) num_parts (part_filename base_name (i + j)))
      (seq 0 k).

(** What a logged early end says of the statement that logged it, by
    its outcome [r] and its messages [evs]: the statement completed,
    fewer than [n] parts were announced, they are the parts 1 to [k]
    in order, and the early end came right after them, followed by
    [closing]. *)
Definition early_end_post (base_name : string) (num_parts : Z) (n : nat)
    (closing : list Event) (r : result unit) (evs : list Event) : Prop :=
  forall k, EvEarlyEnd k ∈ evs ->
    r = Ok tt /\ (k < n)%nat /\
    exists before,
      evs = before ++ announced_from base_name num_parts 0 k
                   ++ EvEarlyEnd k :: closing.

(** * The front end: the two callbacks

    [main] builds the page and hands its [append_log] and
    [set_loading] to the engine as [log_callback] and
    [progress_callback]. *)

(** ** The text of the messages *)

(** UTF-8, to write the literals of the source as they stand there:
    the code points of a well-formed sequence of bytes. *)
Fixpoint utf8_decode (bs : list N) : text :=
  match bs with
  | [] => []
  | b0 :: bs1 =>
      if (b0 <? 192)%N then b0 :: utf8_decode bs1
      else
        match bs1 with
        | [] => [b0]
        | b1 :: bs2 =>
            if (b0 <? 224)%N
            then ((b0 - 192) * 64 + (b1 - 128))%N :: utf8_decode bs2
            else
              match bs2 with
              | [] => [b0; b1]
              | b2 :: bs3 =>
                  if (b0 <? 240)%N
                  then ((b0 - 224) * 4096 + (b1 - 128) * 64 + (b2 - 128))%N
                       :: utf8_decode bs3
                  else
                    match bs3 with
                    | [] => [b0; b1; b2]
                    | b3 :: bs4 =>
                        ((b0 - 240) * 262144 + (b1 - 128) * 4096
                         + (b2 - 128) * 64 + (b3 - 128))%N
                        :: utf8_decode bs4
                    end
              end
        end
  end.

(** The [str] that a string literal of the source denotes; a name of
    the file system is shown the same way. *)
Definition lit (s : string) : text :=
  utf8_decode (map Ascii.N_of_ascii (String.list_ascii_of_string s)).

(** The names in [encodings_to_try], as an f-string prints them. *)
Definition encoding_name (enc : encoding) : string :=
  match enc with
  | utf_8_sig => "utf-8-sig"
  | gbk => "gbk"
  | gb2312 => "gb2312"
  | utf_8 => "utf-8"
  | cp936 => "cp936"
  | big5 => "big5"
  end.

(** The argument of each call of [log_callback] in [split_csv_logic].
    [exn_text] is [str(e)], the text an exception carries. *)
Definition message (exn_text : exn -> text) (ev : Event) : text :=
  match ev with
  | EvStart name => lit "🚀 开始处理: " ++ lit name
  | EvMkdir folder => lit "📂 创建输出目录: " ++ lit folder
  | EvDetecting => lit "🔍 正在检测文件编码..."
  | EvDetected enc => lit "✅ 检测到编码: " ++ lit (encoding_name enc)
  | EvCounting => lit "📊 正在计算总行数 (这可能需要一点时间)..."
  | EvCountRetry => lit "⚠️ 标准读取失败，尝试忽略错误模式..."
  | EvNoData => lit "❌ 错误: 数据行数不足 (仅包含表头或为空)"
  | EvPlan data_rows num_parts chunk_size =>
      lit "📋 总行数: " ++ lit (pretty data_rows)
      ++ lit " | 拆分份数: " ++ lit (pretty num_parts)
      ++ lit " | 每份约: " ++ lit (pretty chunk_size)
      ++ lit " 行"
  | EvEarlyEnd produced =>
      lit "🏁 数据已分完，提前结束。共生成 " ++ lit (pretty produced)
      ++ lit " 个文件。"
  | EvPart index num_parts part_filename =>
      lit "💾 [" ++ lit (pretty index) ++ lit "/"
      ++ lit (pretty num_parts) ++ lit "] 生成: " ++ lit part_filename
  | EvSplitRetry e =>
      lit "⚠️ 正常模式出错: " ++ exn_text e ++ lit "，尝试忽略错误模式..."
  | EvDone folder => lit "🎉 处理完成！文件保存在: " ++ lit folder
  | EvUnexpected e => lit "❌ 发生未预期的错误: " ++ exn_text e
  end.

(** ** The page *)

(** [needle in hay] on two [str]. *)
Fixpoint starts_with (needle hay : text) : bool :=
  match needle, hay with
  | [], _ => true
  | _ :: _, [] => false
  | c :: needle', d :: hay' => (c =? d)%N && starts_with needle' hay'
  end.

Fixpoint contains (needle hay : text) : bool :=
  starts_with needle hay ||
  match hay with
  | [] => false
  | _ :: hay' => contains needle hay'
  end.

(** An entry of the log view: the two [ft.Text] of its row, the colour
    of the second, and the background of the container. *)
Record LogEntry := MkLogEntry {
  entry_time : text;
  entry_message : text;
  entry_color : string;
  entry_bgcolor : option string
}.

(** The controls of the page the two callbacks write to. *)
Record Page := MkPage {
  log_view : list LogEntry;
  progress_bar_visible : bool;
  btn_run_disabled : bool;
  btn_pick_file_disabled : bool
}.

(** The chain of tests of [append_log] on the marks of a message:
    the colour of the text and the background of the entry. *)
Definition log_colors (message : text) : string * option string :=
  if contains (lit "❌") message then ("#DC2626", Some "#FEF2F2")
  else if contains (lit "⚠️") message then ("#D97706", Some "#FFFBEB")
  else if contains (lit "🎉") message then ("#059669", Some "#ECFDF5")
  else if contains (lit "📂") message || contains (lit "💾") message
  then ("#4F46E5", None)
  else if contains (lit "⏳") message || contains (lit "🚀") message
  then ("#6366F1", None)
  else ("#334155", None).

(** [append_log(message)], at the time of day [timestamp]
    ([datetime.now().strftime("%H:%M:%S")]). *)
Definition append_log (timestamp : text) (message : text) (p : Page) : Page :=
  let '(color, bg_color) := log_colors message in
  let log_entry :=
    MkLogEntry (lit "[" ++ timestamp ++ lit "]") message color bg_color in
  MkPage (log_view p ++ [log_entry]) (progress_bar_visible p)
    (btn_run_disabled p) (btn_pick_file_disabled p).

(** [set_loading(is_loading)] *)
Definition set_loading (is_loading : bool) (p : Page) : Page :=
  MkPage (log_view p) is_loading is_loading is_loading.

(** The page after the engine made the calls [calls] of its
    [progress_callback], oldest first. *)
Definition after_progress_calls (calls : list bool) (p : Page) : Page :=
  fold_left (fun p b => set_loading b p) calls p.

(** The calls of the busy callback between two worlds. *)
Definition new_calls (w w' : World) : list bool :=
  drop (length (busy w)) (busy w').
(** * Properties *)

(** ** The planner *)

Lemma ceil_div_bounds (a b : Z) :
  0 < b -> (ceil_div a b - 1) * b < a <= ceil_div a b * b.
Proof.
  intros Hb. unfold ceil_div.
  pose proof (Z.div_mod (- a) b ltac:(lia)) as Hdm.
  pose proof (Z.mod_pos_bound (- a) b Hb) as Hm.
  nia.
Qed.

Lemma ceil_div_least (a b k : Z) :
  0 < b -> a <= k * b -> ceil_div a b <= k.
Proof.
  intros Hb Hk. pose proof (ceil_div_bounds a b Hb). nia.
Qed.

Lemma ceil_div_pos (a b : Z) : 0 < b -> 0 < a -> 1 <= ceil_div a b.
Proof.
  intros Hb Ha. pose proof (ceil_div_bounds a b Hb). nia.
Qed.

(** ** The reader *)

Lemma records_from_iternext (rd : Reader) (ls : list text) :
  records_from rd ls =
  match iternext rd ls None with
  | Yield r it => cons r <$> records_from parse_reset (pending it)
  | Stop => Some []
  | Fail _ => None
  end.
Proof.
  revert rd. induction ls as [|l ls IH]; intros rd; simpl.
  - destruct (has_partial_record rd); reflexivity.
  - destruct (process_line rd l) as [rd'|]; [|reflexivity].
    destruct (is_start_record rd'); [reflexivity|apply IH].
Qed.

Lemma iternext_failure (rd : Reader) (ls : list text) (err : option exn) r it :
  iternext rd ls err = Yield r it -> failure it = err.
Proof.
  revert rd. induction ls as [|l ls IH]; intros rd; simpl.
  - destruct err; [discriminate|].
    destruct (has_partial_record rd); [|discriminate]. by intros [= <- <-].
  - destruct (process_line rd l) as [rd'|]; [|discriminate].
    destruct (is_start_record rd'); [by intros [= <- <-]|apply IH].
Qed.

Lemma iternext_pending_lt (rd : Reader) (ls : list text) (err : option exn) r it :
  ls <> [] -> iternext rd ls err = Yield r it ->
  (length (pending it) < length ls)%nat.
Proof.
  revert rd. induction ls as [|l ls IH]; intros rd Hne; [done|]. simpl.
  destruct (process_line rd l) as [rd'|]; [|discriminate].
  destruct (is_start_record rd').
  - intros [= <- <-]. simpl. lia.
  - destruct ls as [|l' ls'].
    + simpl. destruct err; [discriminate|].
      destruct (has_partial_record _); [|discriminate]. intros [= <- <-]. simpl. lia.
    + intros H. apply IH in H; [|done]. simpl in *. lia.
Qed.

(** A record takes at least one line. *)
Lemma records_from_length (rd : Reader) (ls : list text) (rs : list row) :
  records_from rd ls = Some rs ->
  (length rs <= length ls + (if has_partial_record rd then 1 else 0))%nat.
Proof.
  revert rd rs. induction ls as [|l ls IH]; intros rd rs; simpl.
  - destruct (has_partial_record rd); intros [= <-]; simpl; lia.
  - destruct (process_line rd l) as [rd'|]; [|discriminate].
    destruct (is_start_record rd').
    + destruct (records_from parse_reset ls) as [rs'|] eqn:E; [|discriminate].
      intros [= <-]. apply IH in E. simpl in *. lia.
    + intros H. apply IH in H. destruct (has_partial_record rd'), (has_partial_record rd); lia.
Qed.

Lemma records_length (ls : list text) (rs : list row) :
  records ls = Some rs -> (length rs <= length ls)%nat.
Proof.
  intros H. apply records_from_length in H. simpl in H. lia.
Qed.

Lemma reader_next_records (it : LineIter) (rs : list row) :
  failure it = None ->
  records (pending it) = Some rs ->
  match rs with
  | [] => reader_next it = Stop
  | r :: rs' =>
      exists it', reader_next it = Yield r it' /\ failure it' = None /\
                  records (pending it') = Some rs'
  end.
Proof.
  intros Hf. unfold records, reader_next. rewrite records_from_iternext, Hf.
  destruct (iternext parse_reset (pending it) None) as [r it'| |e] eqn:E.
  - destruct (records_from parse_reset (pending it')) as [rs'|] eqn:E'; [|discriminate].
    intros [= <-]. exists it'. split; [done|]. split; [|done].
    by apply iternext_failure in E.
  - by intros [= <-].
  - discriminate.
Qed.

(** *** The ceiling of the double *)

Lemma float_ceil_exact (a b : Z) :
  underflows a b = false -> float_ceil a b = ceil_div a b.
Proof. intros H. unfold float_ceil. by rewrite H. Qed.

Lemma underflows_small (a b : Z) :
  0 < a -> b < a * 2 ^ 1075 -> underflows a b = false.
Proof.
  intros Ha Hb. unfold underflows. apply andb_false_iff.
  destruct (Z.ltb_spec 0 (a * b)) as [Hpos|Hneg]; [right|by left].
  assert (0 < b) by nia.
  rewrite !Z.abs_eq by lia. apply Z.leb_gt. lia.
Qed.

Lemma underflows_negative (a b : Z) :
  0 < a -> b < 0 -> underflows a b = false.
Proof.
  intros Ha Hb. unfold underflows. apply andb_false_iff. left.
  apply Z.ltb_ge. nia.
Qed.

(** A divisor so large that the quotient rounds to [0.0]: the planner
    returns 0. *)
Lemma math_ceil_underflow (a b : Z) (w : World) :
  0 < a -> a * 2 ^ 1075 <= b -> math_ceil a b w = (Ok 0, w).
Proof.
  intros Ha Hb.
  assert (0 < 2 ^ 1075) by (by apply Z.pow_pos_nonneg).
  assert (0 < b) by nia.
  unfold math_ceil, float_ceil, underflows.
  destruct (b =? 0) eqn:E; [lia|].
  rewrite !Z.abs_eq by lia.
  destruct (Z.ltb_spec 0 (a * b)); [|nia].
  destruct (Z.leb_spec (a * 2 ^ 1075) b); [done|lia].
Qed.

Lemma float_ceil_nonneg (a b : Z) : 0 < a -> 0 < b -> 0 <= float_ceil a b.
Proof.
  intros Ha Hb. unfold float_ceil. destruct (underflows a b); [done|].
  pose proof (ceil_div_pos a b Hb Ha). lia.
Qed.

Lemma two_le_pow : 2 <= 2 ^ 1075.
Proof. change 2 with (2 ^ 1) at 1. apply Z.pow_le_mono_r; lia. Qed.

(** No more parts than rows: the quotient is at least 1. *)
Lemma parts_within_rows (a b : Z) : 0 < a -> b <= a -> b < a * 2 ^ 1075.
Proof.
  intros Ha Hb. pose proof two_le_pow as HK.
  set (K := 2 ^ 1075) in *. clearbody K.
  assert (a * 2 <= a * K) by (apply Z.mul_le_mono_nonneg_l; lia). lia.
Qed.

(** ** Writing the rows of a chunk *)

Lemma world_eta (w : World) :
  MkWorld (dir_exists w) (files w) (log w) (busy w) = w.
Proof. by destruct w. Qed.

Lemma append_text_nil (f : OutFile) : append_text [] f = f.
Proof. destruct f. unfold append_text. simpl. by rewrite app_nil_r. Qed.

Lemma append_text_app (t1 t2 : text) (f : OutFile) :
  append_text t2 (append_text t1 f) = append_text (t1 ++ t2) f.
Proof. unfold append_text. simpl. by rewrite app_assoc. Qed.

Lemma alter_append_nil (name : string) (fs : gmap string OutFile) :
  alter (append_text []) name fs = fs.
Proof. apply alter_id. intros f _. apply append_text_nil. Qed.

Lemma alter_append_app (t1 t2 : text) (name : string) (fs : gmap string OutFile) :
  alter (append_text t2) name (alter (append_text t1) name fs) =
  alter (append_text (t1 ++ t2)) name fs.
Proof.
  rewrite alter_alter_eq. apply alter_ext. intros f _. apply append_text_app.
Qed.

Lemma render_cons (r : row) (rs : list row) :
  render (r :: rs) = writerow r ++ render rs.
Proof. reflexivity. Qed.

Lemma writerows_ok (name : string) (k : nat) (it : LineIter) (rows : list row)
    (w : World) :
  failure it = None ->
  records (pending it) = Some rows ->
  exists it',
    writerows name k it w =
      (Ok it', MkWorld (dir_exists w)
                 (alter (append_text (render (take k rows))) name (files w))
                 (log w) (busy w)) /\
    failure it' = None /\
    records (pending it') = Some (drop k rows).
Proof.
  revert it rows w. induction k as [|k IH]; intros it rows w Hf Hr.
  - exists it. simpl. rewrite alter_append_nil, world_eta. done.
  - pose proof (reader_next_records it rows Hf Hr) as Hn. simpl.
    destruct rows as [|r rs].
    + rewrite Hn. exists it. simpl. rewrite alter_append_nil, world_eta. done.
    + destruct Hn as (it1 & -> & Hf1 & Hr1).
      unfold bind, write at 1. simpl.
      edestruct (IH it1 rs) as (it' & -> & Hf' & Hr'); [done..|].
      exists it'. simpl. rewrite alter_append_app. done.
Qed.

(** ** The loop over the parts, when nothing fails *)

Lemma take_S_cons {A} (k : nat) (x : A) (l : list A) :
  (0 < k)%nat -> take k (x :: l) = x :: take (k - 1) l.
Proof. destruct k; [lia|]. simpl. by rewrite Nat.sub_0_r. Qed.

Lemma drop_S_cons {A} (k : nat) (x : A) (l : list A) :
  (0 < k)%nat -> drop k (x :: l) = drop (k - 1) l.
Proof. destruct k; [lia|]. simpl. by rewrite Nat.sub_0_r. Qed.

Lemma split_loop_ok (env : Env) (enc : encoding) (num_parts chunk_size : Z)
    (base_name : string) (header : row) (n i : nat) (it : LineIter)
    (rows : list row) (w : World) :
  (forall name, open_w_error env name = None) ->
  0 < chunk_size ->
  failure it = None ->
  records (pending it) = Some rows ->
  split_loop env enc num_parts chunk_size base_name header n i it w =
    (Ok tt,
     MkWorld (dir_exists w)
       (write_parts enc base_name header (Z.to_nat chunk_size) n i rows (files w))
       (log w ++ part_events base_name num_parts (Z.to_nat chunk_size) n i rows)
       (busy w)).
Proof.
  intros Hopen Hcs. revert i it rows w.
  induction n as [|n IH]; intros i it rows w Hf Hr.
  - simpl. unfold ret. rewrite app_nil_r, world_eta. done.
  - simpl. unfold bind at 1, islice.
    destruct (chunk_size <? 0) eqn:Hneg; [lia|]. unfold ret at 1.
    assert (0 < Z.to_nat chunk_size)%nat as Hk by lia.
    unfold islice_next. destruct (Z.to_nat chunk_size) as [|k'] eqn:Ek; [lia|].
    rewrite <- Ek in *. clear Ek k'.
    pose proof (reader_next_records it rows Hf Hr) as Hn.
    destruct rows as [|r rs].
    + rewrite Hn. unfold log_callback. done.
    + destruct Hn as (it1 & -> & Hf1 & Hr1).
      unfold bind, open_w, write, log_callback. rewrite Hopen. simpl.
      edestruct (writerows_ok (part_filename base_name i) (Z.to_nat chunk_size - 1)
                   it1 rs) as (it2 & -> & Hf2 & Hr2); [done..|].
      simpl. rewrite (IH (S i) it2 (drop (Z.to_nat chunk_size - 1) rs)); [|done..].
      simpl. f_equal. f_equal.
      * rewrite drop_S_cons by done. f_equal.
        rewrite !alter_insert_eq. f_equal. unfold append_text. simpl.
        rewrite take_S_cons by done. rewrite !render_cons.
        by rewrite <- !app_assoc.
      * rewrite drop_S_cons by done. by rewrite <- app_assoc.
Qed.
(** ** The passes over the file, when nothing fails *)

Lemma count_lines_ok (env : Env) (enc : encoding) (m : errors_mode) (w : World) :
  d_error (src env enc m) = None ->
  count_lines env enc m w = (Ok (line_count env enc m), w).
Proof. intros H. unfold count_lines. by rewrite H. Qed.

Lemma count_lines_raise (env : Env) (enc : encoding) (m : errors_mode) (w : World) e :
  d_error (src env enc m) = Some e ->
  count_lines env enc m w = (Raise e, w).
Proof. intros H. unfold count_lines. by rewrite H. Qed.

Lemma process_splitting_ok (env : Env) (enc : encoding) (num_parts chunk_size : Z)
    (base_name : string) (m : errors_mode) (header : row) (rows : list row)
    (w : World) :
  (forall name, open_w_error env name = None) ->
  0 < chunk_size ->
  d_error (src env enc m) = None ->
  records (pending (open_reader env enc m)) = Some (header :: rows) ->
  process_splitting env enc num_parts chunk_size base_name m w =
    (Ok tt,
     MkWorld (dir_exists w)
       (write_parts enc base_name header (Z.to_nat chunk_size)
          (Z.to_nat num_parts) 0 rows (files w))
       (log w ++ part_events base_name num_parts (Z.to_nat chunk_size)
                   (Z.to_nat num_parts) 0 rows)
       (busy w)).
Proof.
  intros Hopen Hcs Hd Hr. unfold process_splitting.
  pose proof (reader_next_records (open_reader env enc m) _ Hd Hr)
    as (it1 & Hn & Hf1 & Hr1).
  unfold open_reader in Hn. rewrite Hn.
  by apply split_loop_ok.
Qed.


(** ** Sequential chunking *)

Lemma string_app_inj_r (s1 s2 t : string) : s1 +:+ t = s2 +:+ t -> s1 = s2.
Proof.
  assert (forall s u : string, String.length (s +:+ u) = (String.length s + String.length u)%nat) as Hlen.
  { intros s u. induction s as [|a s IH]; simpl; [done|]. by rewrite IH. }
  revert s2. induction s1 as [|a s1 IH]; intros [|b s2] H; simpl in *.
  - done.
  - apply (f_equal String.length) in H. simpl in H. rewrite ?Hlen in H. simpl in H. lia.
  - apply (f_equal String.length) in H. simpl in H. rewrite ?Hlen in H. simpl in H. lia.
  - injection H as -> H. f_equal. by apply IH.
Qed.

Lemma part_filename_inj (base_name : string) (i j : nat) :
  part_filename base_name i = part_filename base_name j -> i = j.
Proof.
  unfold part_filename. intros H.
  apply (inj (String.app base_name)) in H.
  apply (inj (String.app "_part_")) in H.
  apply string_app_inj_r in H.
  apply (inj pretty) in H. lia.
Qed.

Lemma write_parts_other (enc : encoding) (base_name : string) (header : row)
    (cs n i : nat) (rows : list row) (fs : gmap string OutFile) (name : string) :
  (forall k, (i <= k < i + n)%nat -> name <> part_filename base_name k) ->
  write_parts enc base_name header cs n i rows fs !! name = fs !! name.
Proof.
  revert i rows fs. induction n as [|n IH]; intros i rows fs Hne; [done|].
  simpl. destruct rows as [|r rs]; [done|].
  rewrite IH.
  - apply lookup_insert_ne. intros Heq. apply (Hne i); [lia|done].
  - intros k Hk. apply Hne. lia.
Qed.

Lemma write_parts_lookup (enc : encoding) (base_name : string) (header : row)
    (cs n i : nat) (rows : list row) (fs : gmap string OutFile) (j : nat) :
  (j < n)%nat -> (j * cs < length rows)%nat ->
  write_parts enc base_name header cs n i rows fs
    !! part_filename base_name (i + j) =
  Some (MkOutFile enc (render (header :: take cs (drop (j * cs) rows)))).
Proof.
  revert i rows fs j. induction n as [|n IH]; intros i rows fs j Hj Hlen; [lia|].
  simpl. destruct rows as [|r rs] eqn:Er; [simpl in Hlen; lia|].
  rewrite <- Er in *. destruct j as [|j].
  - rewrite Nat.add_0_r. rewrite write_parts_other.
    + rewrite lookup_insert_eq. done.
    + intros k Hk Heq. apply part_filename_inj in Heq. lia.
  - replace (i + S j)%nat with (S i + j)%nat by lia.
    rewrite IH; [|lia|rewrite length_drop; simpl in Hlen; lia].
    rewrite drop_drop. done.
Qed.


Lemma parts_needed_bounds (cs len : nat) :
  (0 < cs)%nat ->
  ((parts_needed cs len - 1) * cs < len \/ len = 0%nat)%nat /\
  (len <= parts_needed cs len * cs)%nat.
Proof.
  intros Hcs. unfold parts_needed.
  pose proof (ceil_div_bounds (Z.of_nat len) (Z.of_nat cs) ltac:(lia)) as [H1 H2].
  set (q := ceil_div (Z.of_nat len) (Z.of_nat cs)) in *.
  destruct (decide (len = 0%nat)) as [->|Hne].
  - split; [by right|lia].
  - assert (1 <= q) by (apply ceil_div_pos; lia).
    split; [left|]; nia.
Qed.

Lemma parts_needed_least (cs len p : nat) :
  (0 < cs)%nat -> (len <= p * cs)%nat -> (parts_needed cs len <= p)%nat.
Proof.
  intros Hcs Hp. unfold parts_needed.
  pose proof (ceil_div_least (Z.of_nat len) (Z.of_nat cs) (Z.of_nat p)
                ltac:(lia) ltac:(nia)). lia.
Qed.

Lemma parts_needed_0 (cs : nat) : parts_needed cs 0 = 0%nat.
Proof. reflexivity. Qed.

(** ** C2 *)

(** C2, as amended.  For a positive [data_rows] below 2^53 and a positive
    [num_parts] below [data_rows * 2^1075], where the quotient is a
    positive double, the planner returns the ceiling of
    [data_rows / num_parts]: the least [chunk_size] with
    [chunk_size * num_parts >= data_rows], so that
    [(chunk_size - 1) * num_parts < data_rows]. *)
Theorem C2_chunk_size_is_ceiling (data_rows num_parts : Z) (w : World) :
  0 < data_rows < 2 ^ 53 -> 0 < num_parts < data_rows * 2 ^ 1075 ->
  let chunk_size := ceil_div data_rows num_parts in
  math_ceil data_rows num_parts w = (Ok chunk_size, w) /\
  data_rows <= chunk_size * num_parts /\
  (forall k, data_rows <= k * num_parts -> chunk_size <= k) /\
  (chunk_size - 1) * num_parts < data_rows.
Proof.
  intros [Hd _] [Hn Hsmall] chunk_size.
  pose proof (ceil_div_bounds data_rows num_parts Hn) as [H1 H2].
  split; [|split; [|split]].
  - unfold math_ceil. destruct (num_parts =? 0) eqn:E; [lia|].
    by rewrite float_ceil_exact by (by apply underflows_small).
  - done.
  - intros k Hk. by apply ceil_div_least.
  - done.
Qed.

Lemma C2_chunk_size_is_ceiling_witness :
  math_ceil 10 3 Scenario.fresh = (Ok 4, Scenario.fresh) /\
  10 <= 4 * 3 /\
  (forall k, 10 <= k * 3 -> 4 <= k) /\
  (4 - 1) * 3 < 10.
Proof.
  apply (C2_chunk_size_is_ceiling 10 3 Scenario.fresh).
  - split; [lia|]. vm_compute. reflexivity.
  - split; [lia|]. vm_compute. reflexivity.
Defined.

(** C2, as stated, fails: with 5 data rows and 4 parts the chunk size is
    2, and [2 * (4 - 1)] is not below 5. *)
Lemma C2_counterexample :
  0 < 5 /\ 1 < 4 /\
  math_ceil 5 4 Scenario.fresh = (Ok 2, Scenario.fresh) /\
  ceil_div 5 4 = 2 /\ ~ (ceil_div 5 4 * (4 - 1) < 5).
Proof.
  split; [lia|]. split; [lia|]. split; [reflexivity|]. split; [reflexivity|].
  vm_compute. discriminate.
Qed.

(** ** What any pass over the parts leaves untouched *)

Lemma files_only_refl (w : World) : files_only w w.
Proof. by unfold files_only. Qed.

Lemma files_only_trans (w1 w2 w3 : World) :
  files_only w1 w2 -> files_only w2 w3 -> files_only w1 w3.
Proof. unfold files_only. intros (?&?&?) (?&?&?). repeat split; congruence. Qed.

Lemma quiet_refl (w : World) : quiet w w.
Proof.
  repeat split. exists []. by rewrite app_nil_r.
Qed.

Lemma quiet_trans (w1 w2 w3 : World) : quiet w1 w2 -> quiet w2 w3 -> quiet w1 w3.
Proof.
  intros (Hd1 & Hb1 & evs1 & Hl1 & Hi1) (Hd2 & Hb2 & evs2 & Hl2 & Hi2).
  split; [congruence|]. split; [congruence|].
  exists (evs1 ++ evs2). split.
  - by rewrite Hl2, Hl1, app_assoc.
  - by apply Forall_app.
Qed.

Lemma files_only_quiet (w w' : World) : files_only w w' -> quiet w w'.
Proof.
  intros (Hd & Hl & Hb). repeat split; [done..|].
  exists []. by rewrite app_nil_r.
Qed.

Lemma quiet_log (w : World) (ev : Event) :
  level ev = Info ->
  quiet w (MkWorld (dir_exists w) (files w) (log w ++ [ev]) (busy w)).
Proof.
  intros H. repeat split. exists [ev]. split; [done|]. by constructor.
Qed.

Lemma writerows_files_only (name : string) (k : nat) (it : LineIter) (w : World) :
  files_only w (writerows name k it w).2.
Proof.
  revert it w. induction k as [|k IH]; intros it w; simpl.
  - apply files_only_refl.
  - destruct (reader_next it) as [r it'| |e]; simpl; try apply files_only_refl.
    unfold bind, write at 1. simpl.
    eapply files_only_trans; [|apply IH]. by unfold files_only.
Qed.

Lemma split_loop_quiet (env : Env) (enc : encoding) (num_parts chunk_size : Z)
    (base_name : string) (header : row) (n i : nat) (it : LineIter) (w : World) :
  quiet w (split_loop env enc num_parts chunk_size base_name header n i it w).2.
Proof.
  revert i it w. induction n as [|n IH]; intros i it w; simpl.
  - apply quiet_refl.
  - unfold bind at 1, islice.
    destruct (chunk_size <? 0); simpl; [apply quiet_refl|].
    destruct (islice_next (Z.to_nat chunk_size) it) as [r it1| |e]; simpl.
    + unfold bind at 1, open_w.
      destruct (open_w_error env (part_filename base_name i)); simpl;
        [apply quiet_refl|].
      unfold bind at 1, write at 1. simpl.
      unfold bind at 1, write at 1. simpl.
      unfold bind at 1.
      match goal with |- context [writerows ?a ?b ?c ?d] =>
        pose proof (writerows_files_only a b c d) as Hw;
        destruct (writerows a b c d) as [[it2|e] w2] end; simpl in *.
      * unfold bind at 1, log_callback at 1. simpl.
        eapply quiet_trans; [|apply IH].
        eapply quiet_trans; [|by apply quiet_log].
        apply files_only_quiet. destruct Hw as (?&?&?). by unfold files_only.
      * apply files_only_quiet. destruct Hw as (?&?&?). by unfold files_only.
    + by apply quiet_log.
    + apply quiet_refl.
Qed.

Lemma process_splitting_quiet (env : Env) (enc : encoding)
    (num_parts chunk_size : Z) (base_name : string) (m : errors_mode) (w : World) :
  quiet w (process_splitting env enc num_parts chunk_size base_name m w).2.
Proof.
  unfold process_splitting.
  destruct (reader_next _) as [r it1| |e]; simpl; try apply quiet_refl.
  apply split_loop_quiet.
Qed.

(** ** The two stages with a fallback *)

Lemma count_stage_strict (env : Env) (enc : encoding) (w : World) :
  d_error (src env enc Strict) = None ->
  count_stage env enc w = (Ok (line_count env enc Strict), w).
Proof.
  intros H. unfold count_stage, try_except. by rewrite count_lines_ok.
Qed.

Lemma count_stage_retry (env : Env) (enc : encoding) (w : World) (e : exn) :
  d_error (src env enc Strict) = Some e ->
  count_stage env enc w =
  count_lines env enc Ignore
    (MkWorld (dir_exists w) (files w) (log w ++ [EvCountRetry]) (busy w)).
Proof.
  intros H. unfold count_stage, try_except.
  by rewrite (count_lines_raise _ _ _ _ e).
Qed.

Lemma calm_refl (w : World) : calm w w.
Proof. repeat split. exists []. by rewrite app_nil_r. Qed.

Lemma calm_trans (w1 w2 w3 : World) : calm w1 w2 -> calm w2 w3 -> calm w1 w3.
Proof.
  intros (Hd1 & Hb1 & evs1 & Hl1 & Hi1) (Hd2 & Hb2 & evs2 & Hl2 & Hi2).
  split; [congruence|]. split; [congruence|].
  exists (evs1 ++ evs2). split.
  - by rewrite Hl2, Hl1, app_assoc.
  - by apply Forall_app.
Qed.

Lemma quiet_calm (w w' : World) : quiet w w' -> calm w w'.
Proof.
  intros (Hd & Hb & evs & Hl & Hi). repeat split; [done..|].
  exists evs. split; [done|]. eapply Forall_impl; [done|].
  intros ev Hev. unfold is_error. by rewrite Hev.
Qed.

Lemma calm_log (w : World) (ev : Event) :
  is_error ev = false ->
  calm w (MkWorld (dir_exists w) (files w) (log w ++ [ev]) (busy w)).
Proof.
  intros H. repeat split. exists [ev]. split; [done|]. by constructor.
Qed.

Lemma count_stage_calm (env : Env) (enc : encoding) (w : World) :
  calm w (count_stage env enc w).2 /\ files (count_stage env enc w).2 = files w.
Proof.
  destruct (d_error (src env enc Strict)) as [e|] eqn:E.
  - rewrite (count_stage_retry _ _ _ e) by done. unfold count_lines.
    destruct (d_error (src env enc Ignore)); simpl; (split; [by apply calm_log|done]).
  - rewrite count_stage_strict by done. split; [apply calm_refl|done].
Qed.

Lemma split_stage_calm (env : Env) (enc : encoding) (num_parts chunk_size : Z)
    (base_name : string) (w : World) :
  calm w (split_stage env enc num_parts chunk_size base_name w).2.
Proof.
  unfold split_stage, try_except.
  pose proof (process_splitting_quiet env enc num_parts chunk_size base_name Strict w) as H1.
  destruct (process_splitting env enc num_parts chunk_size base_name Strict w)
    as [[[]|e] w1]; simpl in *.
  - by apply quiet_calm.
  - unfold bind, log_callback. simpl.
    eapply calm_trans; [by apply quiet_calm|].
    eapply calm_trans; [by apply (calm_log _ (EvSplitRetry e))|].
    apply quiet_calm. apply process_splitting_quiet.
Qed.

(** ** Every way through the body *)

Lemma sat_bind {A B} (m : M A) (k : A -> M B) (w : World)
    (Q : result B -> World -> Prop) :
  sat m w (fun r w' =>
             match r with
             | Ok a => sat (k a) w' Q
             | Raise e => Q (Raise e) w'
             end) ->
  sat (bind m k) w Q.
Proof. unfold sat, bind. by destruct (m w) as [[a|e] w']. Qed.

Lemma no_error_snoc (evs : list Event) (ev : Event) :
  no_error evs -> is_error ev = false -> no_error (evs ++ [ev]).
Proof. intros H1 H2. apply Forall_app. split; [done|]. by constructor. Qed.

Lemma split_body_outcome (env : Env) (file_path : string) (num_parts : Z)
    (output_folder : string) (w : World) :
  sat (split_body env file_path num_parts output_folder) w
    (body_post output_folder w).
Proof.
  unfold split_body.
  step_with sat_bind. step_with sat_bind. step_with sat_bind.
  match goal with |- sat (bind _ ?k) _ _ => set (rest := k) end.
  assert (forall w0 evs0,
            log w0 = log w ++ evs0 -> no_error evs0 ->
            busy w0 = busy w ++ [true] -> files w0 = files w ->
            sat (rest tt) w0 (body_post output_folder w)) as Hrest.
  { intros w0 evs0 Hl0 Hn0 Hb0 Hf0. subst rest. cbv beta.
    step_with sat_bind. apply sat_bind. unfold sat at 1, lift. simpl.
    destruct (detect_encoding (src env)) as [enc|e].
    2:{ exists (evs0 ++ [EvDetecting]). rewrite Hl0, <- app_assoc.
        split; [done|]. split; [done|]. by apply no_error_snoc. }
    step_with sat_bind. step_with sat_bind. apply sat_bind. unfold sat at 1.
    match goal with |- context [count_stage env enc ?w2] =>
      destruct (count_stage_calm env enc w2) as [(Hd3 & Hb3 & evs3 & Hl3 & Hn3) Hf3];
      destruct (count_stage env enc w2) as [[total|e] w3] end; simpl in *.
    2:{ exists (evs0 ++ [EvDetecting; EvDetected enc; EvCounting] ++ evs3).
        rewrite Hl3, Hl0. split; [by list_assoc|]. split; [(by rewrite Hb3)|].
        apply Forall_app. split; [done|]. apply Forall_app. split; [|done].
        by repeat constructor. }
    assert (no_error (evs0 ++ [EvDetecting; EvDetected enc; EvCounting] ++ evs3)) as Hn.
    { apply Forall_app. split; [done|]. apply Forall_app. split; [|done].
      by repeat constructor. }
    destruct (total - 1 <=? 0).
    { step_with sat_bind. unfold sat, progress_callback. simpl.
      exists ((evs0 ++ [EvDetecting; EvDetected enc; EvCounting] ++ evs3) ++ [EvNoData]).
      split; [|right; split; [|split]].
      - rewrite Hl3, Hl0. by list_assoc.
      - rewrite Hb3, Hb0. by rewrite <- app_assoc.
      - by rewrite Hf3.
      - by eexists. }
    apply sat_bind. unfold sat at 1, math_ceil.
    destruct (num_parts =? 0); simpl.
    { exists (evs0 ++ [EvDetecting; EvDetected enc; EvCounting] ++ evs3).
      rewrite Hl3, Hl0. split; [by list_assoc|]. split; [(by rewrite Hb3)|done]. }
    step_with sat_bind. apply sat_bind. unfold sat at 1.
    match goal with |- context [split_stage env enc ?a ?b ?c ?w4] =>
      destruct (split_stage_calm env enc a b c w4) as (Hd5 & Hb5 & evs5 & Hl5 & Hn5);
      destruct (split_stage env enc a b c w4) as [[[]|e] w5] end; simpl in *.
    - unfold sat, log_callback. simpl.
      exists ((evs0 ++ [EvDetecting; EvDetected enc; EvCounting] ++ evs3
               ++ [EvPlan (total - 1) num_parts (float_ceil (total - 1) num_parts)]
               ++ evs5) ++ [EvDone output_folder]).
      split; [|left; split].
      + rewrite Hl5, Hl3, Hl0. by list_assoc.
      + by rewrite Hb5, Hb3.
      + eexists. split; [done|].
        rewrite !app_assoc. apply Forall_app. split; [|done].
        apply no_error_snoc; [|done]. by rewrite <- !app_assoc.
    - exists (evs0 ++ [EvDetecting; EvDetected enc; EvCounting] ++ evs3
               ++ [EvPlan (total - 1) num_parts (float_ceil (total - 1) num_parts)]
               ++ evs5).
      split; [|split].
      + rewrite Hl5, Hl3, Hl0. by list_assoc.
      + by rewrite Hb5, Hb3.
      + rewrite !app_assoc. apply Forall_app. split; [|done].
        apply no_error_snoc; [|done]. by rewrite <- !app_assoc. }
  apply sat_bind. unfold sat at 1.
  destruct (dir_exists w) eqn:Ed; simpl.
  - apply (Hrest _ [EvStart (basename env file_path)]); try done.
    by repeat constructor.
  - unfold bind, makedirs, log_callback.
    destruct (makedirs_error env) as [e|]; simpl.
    + exists [EvStart (basename env file_path)]. split; [done|].
      split; [done|]. by repeat constructor.
    + apply (Hrest _ [EvStart (basename env file_path); EvMkdir output_folder]);
        simpl; try done.
      * by rewrite <- app_assoc.
      * by repeat constructor.
Qed.

(** ** Counting error messages *)

Lemma count_errors_app (l1 l2 : list Event) :
  count_errors (l1 ++ l2) = (count_errors l1 + count_errors l2)%nat.
Proof. unfold count_errors. by rewrite filter_app, length_app. Qed.

Lemma count_errors_no_error (evs : list Event) :
  no_error evs -> count_errors evs = 0%nat.
Proof.
  unfold count_errors. induction 1 as [|ev evs Hev _ IH]; [done|].
  rewrite filter_cons. destruct (decide (is_error ev = true)); [congruence|done].
Qed.

Lemma new_events_app (w w' : World) (evs : list Event) :
  log w' = log w ++ evs -> new_events w w' = evs.
Proof. intros H. unfold new_events. rewrite H. apply drop_app_length. Qed.

(** ** C6 and C9: the outer try *)

Lemma run_unfold (env : Env) (file_path : string) (num_parts : Z)
    (output_folder : string) (w : World) :
  run env file_path num_parts output_folder w =
  match split_body env file_path num_parts output_folder w with
  | (Ok a, w1) =>
      (Ok a, MkWorld (dir_exists w1) (files w1) (log w1) (busy w1 ++ [false]))
  | (Raise e, w1) =>
      (Ok tt, MkWorld (dir_exists w1) (files w1) (log w1 ++ [EvUnexpected e])
                (busy w1 ++ [false]))
  end.
Proof.
  unfold run, split_csv_logic, try_finally, try_except.
  by destruct (split_body env file_path num_parts output_folder w) as [[a|e] w1].
Qed.

(** The calls of the busy callback on every way through the operation:
    first [true], once, and last [false], from the [finally] clause.
    These are its only two calls on every way but one: when the run
    stops on the no-data message, the guard has called it with [false]
    already before it returns, and the [finally] clause calls it
    again. *)
Lemma busy_calls_of_a_run (env : Env) (file_path : string) (num_parts : Z)
    (output_folder : string) (w : World) :
  let w' := (run env file_path num_parts output_folder w).2 in
  (busy w' = busy w ++ [true; false] /\ last (log w') <> Some EvNoData) \/
  (busy w' = busy w ++ [true; false; false] /\ last (log w') = Some EvNoData).
Proof.
  intros w'. subst w'. rewrite run_unfold.
  pose proof (split_body_outcome env file_path num_parts output_folder w) as H.
  unfold sat, body_post in H.
  destruct (split_body env file_path num_parts output_folder w) as [[[]|e] w1];
    simpl in *; destruct H as (evs & Hl & H).
  - destruct H as [(Hb & evs0 & -> & _)|(Hb & _ & evs0 & -> & _)].
    + left. rewrite Hb, Hl, app_assoc, last_snoc, <- app_assoc. done.
    + right. rewrite Hb, Hl, app_assoc, last_snoc, <- app_assoc. done.
  - destruct H as (Hb & _). left. rewrite Hb, last_snoc, <- app_assoc. done.
Qed.

(** C6.  The code misses the claim on a file that holds only its header:
    the busy callback is called three times, with [true], [false] and
    [false] again, where it is called twice on every other way. *)
Theorem C6_header_only_run :
  let final := run (Scenario.plain (Scenario.table 0)) "in/data.csv" 3 "out"
                 Scenario.fresh in
  busy final.2 = [true; false; false] /\
  log final.2 =
    [EvStart "data.csv"; EvMkdir "out"; EvDetecting; EvDetected utf_8_sig;
     EvCounting; EvNoData].
Proof. vm_compute. done. Qed.

(** C9, as amended.  The operation never raises.  An exception that
    leaves the body of the outer [try], which is every exception but
    those the detector and the strict passes of the two stages handle
    themselves, is caught by the outer handler and logged as one error
    message, the last and the only error message of the run. *)
Theorem C9_top_level_boundary (env : Env) (file_path : string) (num_parts : Z)
    (output_folder : string) (w : World) :
  let body := split_body env file_path num_parts output_folder w in
  let final := run env file_path num_parts output_folder w in
  final.1 = Ok tt /\
  forall e, body.1 = Raise e ->
    log final.2 = log body.2 ++ [EvUnexpected e] /\
    level (EvUnexpected e) = Error /\
    count_errors (new_events w final.2) = 1%nat.
Proof.
  intros body final. subst body final. rewrite run_unfold.
  pose proof (split_body_outcome env file_path num_parts output_folder w) as H.
  unfold sat, body_post in H.
  destruct (split_body env file_path num_parts output_folder w) as [[[]|e] w1];
    simpl in *; destruct H as (evs & Hl & H).
  - split; [done|]. intros e He. discriminate.
  - split; [done|]. intros e' [= <-]. destruct H as (_ & Hn).
    split; [done|]. split; [done|].
    rewrite (new_events_app _ _ (evs ++ [EvUnexpected e])).
    + rewrite count_errors_app, count_errors_no_error by done. done.
    + simpl. by rewrite Hl, app_assoc.
Qed.

Lemma C9_top_level_boundary_witness :
  let final := run Scenario.missing "in/data.csv" 3 "out" Scenario.fresh in
  final.1 = Ok tt /\
  log final.2 =
    [EvStart "data.csv"; EvMkdir "out"; EvDetecting; EvUnexpected OSError] /\
  count_errors (new_events Scenario.fresh final.2) = 1%nat.
Proof.
  destruct (C9_top_level_boundary Scenario.missing "in/data.csv" 3 "out"
              Scenario.fresh) as [Hok Hcatch].
  destruct (Hcatch OSError ltac:(vm_compute; reflexivity)) as (Hlog & _ & Hone).
  split; [exact Hok|]. split; [exact Hlog|exact Hone].
Defined.

(** C9, as stated, fails: the exception the strict counting pass raises
    on an undecodable byte is handled inside the counting stage; the
    run goes on to its success message and logs no error message. *)
Lemma C9_counterexample :
  let w0 := Scenario.fresh in
  let final := run Scenario.late_error "in/data.csv" 3 "out" w0 in
  (count_lines Scenario.late_error utf_8_sig Strict w0).1
    = Raise UnicodeDecodeError /\
  final.1 = Ok tt /\
  count_errors (log final.2) = 0%nat /\
  last (log final.2) = Some (EvDone "out").
Proof. vm_compute. done. Qed.

(** ** C5: the run that finds no data row *)

Lemma count_stage_counted (env : Env) (enc : encoding) (w : World) (total : Z) :
  counted_lines env enc = Some total ->
  count_stage env enc w =
    (Ok total,
     MkWorld (dir_exists w) (files w) (log w ++ count_events env enc) (busy w)).
Proof.
  unfold counted_lines, count_events.
  destruct (d_error (src env enc Strict)) as [e|] eqn:Es.
  - destruct (d_error (src env enc Ignore)) as [e'|] eqn:Ei; [discriminate|].
    intros [= <-]. rewrite (count_stage_retry _ _ _ e) by done.
    by rewrite count_lines_ok.
  - intros [= <-]. rewrite count_stage_strict by done.
    by rewrite app_nil_r, world_eta.
Qed.

(** The body, up to the total of the counting stage. *)
Lemma split_body_counted (env : Env) (file_path : string) (num_parts : Z)
    (output_folder : string) (w : World) (enc : encoding) (total : Z) :
  dir_exists w = true \/ makedirs_error env = None ->
  detect_encoding (src env) = Ok enc ->
  counted_lines env enc = Some total ->
  split_body env file_path num_parts output_folder w =
    (if total - 1 <=? 0 then
       log_callback EvNoData ;;
       progress_callback false
     else
       chunk_size <- math_ceil (total - 1) num_parts ;;
       log_callback (EvPlan (total - 1) num_parts chunk_size) ;;
       split_stage env enc num_parts chunk_size
         (fst (splitext env (basename env file_path))) ;;
       log_callback (EvDone output_folder))
      (MkWorld true (files w)
         (log w ++ start_events env file_path output_folder (dir_exists w) enc
                ++ count_events env enc)
         (busy w ++ [true])).
Proof.
  intros Hdir Hdet Hcount. unfold split_body.
  unfold bind at 1, log_callback at 1.
  unfold bind at 1, progress_callback at 1.
  unfold bind at 1, path_exists at 1. simpl.
  set (w1 := MkWorld true (files w)
               (log w ++ EvStart (basename env file_path)
                      :: (if dir_exists w then [] else [EvMkdir output_folder]))
               (busy w ++ [true])).
  assert (forall (k : M unit),
    (bind (if dir_exists w then ret tt
           else bind (makedirs env) (fun _ => log_callback (EvMkdir output_folder)))
          (fun _ => k))
      (MkWorld (dir_exists w) (files w)
         (log w ++ [EvStart (basename env file_path)]) (busy w ++ [true]))
    = k w1) as ->.
  { intros k. unfold bind, makedirs, log_callback, ret. subst w1.
    destruct (dir_exists w) eqn:Ed; simpl.
    - done.
    - destruct Hdir as [Hd | Hm]; [congruence|]. rewrite Hm. simpl.
      by rewrite <- app_assoc. }
  unfold bind at 1, log_callback at 1.
  unfold bind at 1, lift. rewrite Hdet.
  unfold bind at 1, log_callback at 1.
  unfold bind at 1, log_callback at 1.
  unfold bind at 1. rewrite (count_stage_counted _ _ _ total) by done.
  subst w1. simpl. f_equal. f_equal. unfold start_events. by list_assoc.
Qed.

Lemma run_no_data (env : Env) (file_path : string) (num_parts : Z)
    (output_folder : string) (w : World) (enc : encoding) (total : Z) :
  dir_exists w = true \/ makedirs_error env = None ->
  detect_encoding (src env) = Ok enc ->
  counted_lines env enc = Some total ->
  total - 1 <= 0 ->
  run env file_path num_parts output_folder w =
    (Ok tt,
     MkWorld true (files w)
       (log w ++ start_events env file_path output_folder (dir_exists w) enc
              ++ count_events env enc ++ [EvNoData])
       (busy w ++ [true; false; false])).
Proof.
  intros Hdir Hdet Hcount Hle.
  rewrite run_unfold, (split_body_counted _ _ _ _ _ enc total) by done.
  destruct (total - 1 <=? 0) eqn:E; [|lia].
  unfold bind, log_callback, progress_callback. simpl.
  f_equal. f_equal; by list_assoc.
Qed.

(** C5, as amended.  When the counting stage finds at most one line, the
    operation stops at its guard: no file of the output folder is
    created or changed, one error message is logged, and it is the
    last message.  The output folder itself exists by then: it is
    created before the file is looked at. *)
Theorem C5_no_data_aborts (env : Env) (file_path : string) (num_parts : Z)
    (output_folder : string) (w : World) (enc : encoding) (total : Z) :
  let data_rows := total - 1 in
  let final := run env file_path num_parts output_folder w in
  dir_exists w = true \/ makedirs_error env = None ->
  detect_encoding (src env) = Ok enc ->
  counted_lines env enc = Some total ->
  data_rows <= 0 ->
  final.1 = Ok tt /\
  files final.2 = files w /\
  dir_exists final.2 = true /\
  count_errors (new_events w final.2) = 1%nat /\
  last (log final.2) = Some EvNoData.
Proof.
  intros data_rows final Hdir Hdet Hcount Hle. subst final.
  rewrite (run_no_data _ _ _ _ _ enc total) by done. simpl.
  split; [done|]. split; [done|]. split; [done|]. split.
  - erewrite new_events_app by done.
    unfold count_events.
    destruct (dir_exists w), (d_error (src env enc Strict)); reflexivity.
  - match goal with |- last ?l = _ =>
      replace l with
        ((log w ++ start_events env file_path output_folder (dir_exists w) enc
                ++ count_events env enc) ++ [EvNoData])
        by (unfold start_events; by list_assoc)
    end.
    apply last_snoc.
Qed.

Lemma C5_no_data_aborts_witness :
  let final := run (Scenario.plain (Scenario.table 0)) "in/data.csv" 3 "out"
                 Scenario.fresh in
  final.1 = Ok tt /\
  files final.2 = ∅ /\
  dir_exists final.2 = true /\
  count_errors (new_events Scenario.fresh final.2) = 1%nat /\
  last (log final.2) = Some EvNoData.
Proof.
  apply (C5_no_data_aborts (Scenario.plain (Scenario.table 0)) "in/data.csv" 3
           "out" Scenario.fresh utf_8_sig 1).
  - by right.
  - reflexivity.
  - reflexivity.
  - lia.
Defined.

(** C5, as stated, fails: on a file that holds only its header, with the
    output folder missing, the folder is created (and the message that
    says so is logged) before the operation stops. *)
Lemma C5_counterexample :
  let env := Scenario.plain (Scenario.table 0) in
  let w0 := Scenario.fresh in
  let final := run env "in/data.csv" 3 "out" w0 in
  counted_lines env utf_8_sig = Some 1 /\
  dir_exists w0 = false /\
  dir_exists final.2 = true /\
  log final.2 =
    [EvStart "data.csv"; EvMkdir "out"; EvDetecting; EvDetected utf_8_sig;
     EvCounting; EvNoData].
Proof. vm_compute. done. Qed.

(** ** C7: the detector *)

Lemma try_encodings_find (s : source) (l : list encoding) :
  (forall enc e, d_error (s enc Strict) = Some e -> is_unicode_error e = true) ->
  try_encodings s l = Ok (default gbk (List.find (probe_ok s) l)).
Proof.
  intros Hread. induction l as [|enc l IH]; [done|].
  simpl. unfold probe_ok at 1.
  destruct (probe s enc) as [e|] eqn:E; [|done].
  assert (is_unicode_error e = true) as ->; [|exact IH].
  unfold probe in E. destruct (d_error (s enc Strict)) as [e'|] eqn:E'; [|done].
  destruct (2048 <=? _)%N; [done|]. injection E as <-. by eapply Hread.
Qed.

Lemma find_ext {A} (f g : A -> bool) (l : list A) :
  (forall x, f x = g x) -> List.find f l = List.find g l.
Proof.
  intros H. induction l as [|x l IH]; [done|]. simpl. by rewrite H, IH.
Qed.

(** C7, as amended.  On a file that can be read, where a probe can only
    fail to decode, the detector returns the first candidate of its
    list whose probe goes through, [gbk] when none does; it does not
    raise and it logs nothing.  A probe goes through when the whole
    file decodes, or when the chunks in front of the first chunk that
    does not decode hold 2048 characters, line ends translated: the
    text in front of an undecodable byte counts only as far as it lies
    in earlier chunks.  The fifth candidate is never returned: [cp936]
    names the codec of the second, [gbk]. *)
Theorem C7_detect_encoding (env : Env) (w : World) :
  (forall enc e,
     d_error (src env enc Strict) = Some e -> is_unicode_error e = true) ->
  let passes := fun enc =>
    match d_error (src env enc Strict) with
    | None => true
    | Some _ =>
        (2048 <=? N.of_nat (length (translate (held_back
                                      (d_text (src env enc Strict))))))%N
    end in
  let chosen :=
    default gbk
      (List.find passes [utf_8_sig; gbk; gb2312; utf_8; cp936; big5]) in
  detect_encoding (src env) = Ok chosen /\
  lift (detect_encoding (src env)) w = (Ok chosen, w) /\
  chosen <> cp936.
Proof.
  intros Hunicode passes chosen.
  assert (forall enc, passes enc = probe_ok (src env) enc) as Hpasses.
  { intros enc. unfold passes, probe_ok, probe.
    destruct (d_error (src env enc Strict)); [|done].
    by destruct (2048 <=? _)%N. }
  assert (detect_encoding (src env) = Ok chosen) as Hdet.
  { unfold detect_encoding. rewrite try_encodings_find by done.
    unfold chosen, encodings_to_try. by rewrite (find_ext _ _ _ Hpasses). }
  split; [done|]. split; [unfold lift; by rewrite Hdet|].
  unfold chosen. cbn [List.find].
  change (passes cp936) with (passes gbk).
  destruct (passes utf_8_sig); [done|].
  destruct (passes gbk); [done|].
  destruct (passes gb2312); [done|].
  destruct (passes utf_8); [done|].
  by destruct (passes big5).
Qed.

Lemma C7_detect_encoding_witness :
  detect_encoding (src Scenario.late_error) = Ok utf_8_sig /\
  lift (detect_encoding (src Scenario.late_error)) Scenario.fresh
    = (Ok utf_8_sig, Scenario.fresh) /\
  utf_8_sig <> cp936.
Proof.
  apply (C7_detect_encoding Scenario.late_error Scenario.fresh).
  intros enc e.
  assert (d_error (src Scenario.late_error enc Strict)
          = Some UnicodeDecodeError) as ->
    by (destruct enc; vm_compute; reflexivity).
  by intros [= <-].
Defined.

(** C7, as stated, fails: on a file of 3000 letters, a byte that no
    candidate decodes and one more letter, the first 2048 characters
    decode under the first candidate, and yet its probe fails, as all
    the probes do: the file is decoded a chunk of 8192 bytes at a
    time, and the byte lies in the first chunk.  The detector returns
    its default. *)
Lemma C7_counterexample :
  let bytes := repeat 120%N 3000 ++ [255%N; 120%N] in
  let env := Scenario.bad_byte_in_first_chunk in
  d_error (Scenario.decode_ascii (take 2048 bytes) Strict) = None /\
  length (d_text (Scenario.decode_ascii (take 2048 bytes) Strict)) = 2048%nat /\
  probe (src env) utf_8_sig = Some UnicodeDecodeError /\
  List.find (probe_ok (src env)) encodings_to_try = None /\
  detect_encoding (src env) = Ok gbk.
Proof. vm_compute. done. Qed.

(** ** The run that reaches the splitting stage *)

Lemma run_split (env : Env) (file_path : string) (num_parts : Z)
    (output_folder : string) (w : World) (enc : encoding) (total : Z) :
  let data_rows := total - 1 in
  let chunk_size := float_ceil data_rows num_parts in
  let base_name := fst (splitext env (basename env file_path)) in
  dir_exists w = true \/ makedirs_error env = None ->
  detect_encoding (src env) = Ok enc ->
  counted_lines env enc = Some total ->
  0 < data_rows ->
  num_parts <> 0 ->
  run env file_path num_parts output_folder w =
    match
      split_stage env enc num_parts chunk_size base_name
        (MkWorld true (files w)
           (log w ++ start_events env file_path output_folder (dir_exists w) enc
                  ++ count_events env enc
                  ++ [EvPlan data_rows num_parts chunk_size])
           (busy w ++ [true]))
    with
    | (Ok _, w') =>
        (Ok tt, MkWorld (dir_exists w') (files w')
                  (log w' ++ [EvDone output_folder]) (busy w' ++ [false]))
    | (Raise e, w') =>
        (Ok tt, MkWorld (dir_exists w') (files w')
                  (log w' ++ [EvUnexpected e]) (busy w' ++ [false]))
    end.
Proof.
  intros data_rows chunk_size base_name Hdir Hdet Hcount Hrows Hnp.
  rewrite run_unfold, (split_body_counted _ _ _ _ _ enc total) by done.
  fold data_rows. destruct (data_rows <=? 0) eqn:E; [lia|].
  unfold bind at 1, math_ceil. destruct (num_parts =? 0) eqn:E0; [lia|].
  unfold ret. fold chunk_size. fold base_name.
  unfold bind at 1, log_callback at 1. simpl.
  unfold bind at 1.
  match goal with |- context [split_stage ?a ?b ?c ?d ?e ?w4] =>
    replace w4 with
      (MkWorld true (files w)
         (log w ++ start_events env file_path output_folder (dir_exists w) enc
                ++ count_events env enc
                ++ [EvPlan data_rows num_parts chunk_size])
         (busy w ++ [true]))
      by (f_equal; by list_assoc)
  end.
  destruct (split_stage _ _ _ _ _ _) as [[[]|e] w']; reflexivity.
Qed.

Lemma counted_lines_strict (env : Env) (enc : encoding) :
  d_error (src env enc Strict) = None ->
  counted_lines env enc = Some (line_count env enc Strict) /\
  count_events env enc = [].
Proof. intros H. unfold counted_lines, count_events. by rewrite H. Qed.

(** ** A run in which nothing fails *)

Lemma run_ok (env : Env) (file_path : string) (num_parts : Z)
    (output_folder : string) (w : World) (enc : encoding)
    (header : row) (rows : list row) :
  let data_rows := line_count env enc Strict - 1 in
  let chunk_size := ceil_div data_rows num_parts in
  let base_name := fst (splitext env (basename env file_path)) in
  dir_exists w = true \/ makedirs_error env = None ->
  (forall name, open_w_error env name = None) ->
  detect_encoding (src env) = Ok enc ->
  d_error (src env enc Strict) = None ->
  records (pending (open_reader env enc Strict)) = Some (header :: rows) ->
  0 < data_rows ->
  0 < num_parts ->
  num_parts < data_rows * 2 ^ 1075 ->
  run env file_path num_parts output_folder w =
    (Ok tt,
     MkWorld true
       (write_parts enc base_name header (Z.to_nat chunk_size)
          (Z.to_nat num_parts) 0 rows (files w))
       (log w ++ start_events env file_path output_folder (dir_exists w) enc
              ++ EvPlan data_rows num_parts chunk_size
              :: part_events base_name num_parts (Z.to_nat chunk_size)
                   (Z.to_nat num_parts) 0 rows
              ++ [EvDone output_folder])
       (busy w ++ [true; false])).
Proof.
  intros data_rows chunk_size base_name Hdir Hopen Hdet Hdec Hrec Hrows Hnp Hsmall.
  assert (0 < chunk_size) as Hcs.
  { pose proof (ceil_div_pos data_rows num_parts). lia. }
  destruct (counted_lines_strict env enc Hdec) as [Hcount Hev].
  rewrite (run_split _ _ _ _ _ enc (line_count env enc Strict)); [|done..|lia].
  fold data_rows. rewrite float_ceil_exact by (by apply underflows_small).
  fold chunk_size. fold base_name. rewrite Hev.
  unfold split_stage, try_except.
  erewrite process_splitting_ok by done. simpl.
  f_equal. f_equal; by list_assoc.
Qed.

(** ** C10: lines are counted, records are split *)

Lemma split_stage_header_only (env : Env) (enc : encoding)
    (num_parts chunk_size : Z) (base_name : string) (header : row) (w : World) :
  d_error (src env enc Strict) = None ->
  records (pending (open_reader env enc Strict)) = Some [header] ->
  0 < num_parts -> 0 <= chunk_size ->
  split_stage env enc num_parts chunk_size base_name w =
    (Ok tt, MkWorld (dir_exists w) (files w) (log w ++ [EvEarlyEnd 0]) (busy w)).
Proof.
  intros Hd Hr Hnp Hcs. unfold split_stage, try_except, process_splitting.
  pose proof (reader_next_records (open_reader env enc Strict) _ Hd Hr)
    as (it1 & Hn & Hf1 & Hr1).
  unfold open_reader in Hn. rewrite Hn.
  destruct (Z.to_nat num_parts) as [|n] eqn:En; [lia|]. simpl.
  unfold bind, islice. destruct (chunk_size <? 0) eqn:E; [lia|]. unfold ret.
  unfold islice_next. destruct (Z.to_nat chunk_size) as [|k] eqn:Ek; [done|].
  pose proof (reader_next_records it1 [] Hf1 Hr1) as Hstop. simpl in Hstop.
  by rewrite Hstop.
Qed.

(** C10.  The data rows are the lines of the file less one, the rows that
    are split are the records of the CSV reader.  When there are two
    lines or more but the reader finds the header and no record after
    it, as it does when the quoted fields of the header hold the line
    breaks, the guard on [data_rows] lets the run through: no file is
    written, the first turn of the loop logs that 0 files were
    produced, an informational message, and the run ends on its
    success message, with no error message.  The plan message carries
    the chunk size the planner computed, for any positive
    [num_parts]. *)
Theorem C10_lines_counted_records_split (env : Env) (file_path : string)
    (num_parts : Z) (output_folder : string) (w : World) (enc : encoding)
    (header : row) :
  let data_rows := line_count env enc Strict - 1 in
  let final := run env file_path num_parts output_folder w in
  dir_exists w = true \/ makedirs_error env = None ->
  detect_encoding (src env) = Ok enc ->
  d_error (src env enc Strict) = None ->
  records (pending (open_reader env enc Strict)) = Some [header] ->
  0 < data_rows < 2 ^ 53 ->
  0 < num_parts ->
  final.1 = Ok tt /\
  files final.2 = files w /\
  new_events w final.2 =
    start_events env file_path output_folder (dir_exists w) enc
    ++ [EvPlan data_rows num_parts (float_ceil data_rows num_parts);
        EvEarlyEnd 0; EvDone output_folder] /\
  level (EvEarlyEnd 0) = Info /\
  level (EvDone output_folder) = Success /\
  count_errors (new_events w final.2) = 0%nat.
Proof.
  intros data_rows final Hdir Hdet Hdec Hrec [Hrows _] Hnp. subst final.
  destruct (counted_lines_strict env enc Hdec) as [Hcount Hev].
  rewrite (run_split _ _ _ _ _ enc (line_count env enc Strict)); [|done..|lia].
  fold data_rows. rewrite Hev.
  rewrite (split_stage_header_only _ _ _ _ _ header); [|done..|].
  2:{ by apply float_ceil_nonneg. }
  simpl. split; [done|]. split; [done|].
  erewrite new_events_app by (by list_assoc).
  split; [by list_assoc|]. split; [done|]. split; [done|].
  unfold start_events. destruct (dir_exists w); reflexivity.
Qed.

Lemma C10_lines_counted_records_split_witness :
  let env := Scenario.plain Scenario.quoted_newline in
  let final := run env "in/data.csv" 3 "out" Scenario.fresh in
  line_count env utf_8_sig Strict - 1 = 1 /\
  records (pending (open_reader env utf_8_sig Strict))
    = Some [[str "a" ++ [LF] ++ str "b"]] /\
  final.1 = Ok tt /\
  files final.2 = ∅ /\
  new_events Scenario.fresh final.2 =
    [EvStart "data.csv"; EvMkdir "out"; EvDetecting; EvDetected utf_8_sig;
     EvCounting; EvPlan 1 3 1; EvEarlyEnd 0; EvDone "out"].
Proof.
  split; [reflexivity|]. split; [reflexivity|].
  destruct (C10_lines_counted_records_split
              (Scenario.plain Scenario.quoted_newline) "in/data.csv" 3 "out"
              Scenario.fresh utf_8_sig [str "a" ++ [LF] ++ str "b"])
    as (Hok & Hfiles & Hevents & _).
  - by right.
  - reflexivity.
  - reflexivity.
  - reflexivity.
  - split; vm_compute; reflexivity.
  - lia.
  - split; [exact Hok|]. split; [exact Hfiles|exact Hevents].
Defined.

(** ** C4: the rows run out before the parts do *)

Lemma ceil_div_unique (a b q : Z) :
  0 < b -> (q - 1) * b < a <= q * b -> ceil_div a b = q.
Proof.
  intros Hb Hq. pose proof (ceil_div_bounds a b Hb). nia.
Qed.

Lemma parts_needed_step (cs : nat) (rows : list row) :
  (0 < cs)%nat -> rows <> [] ->
  parts_needed cs (length rows) = S (parts_needed cs (length (drop cs rows))).
Proof.
  intros Hcs Hne. rewrite length_drop.
  assert (0 < length rows)%nat as Hlen by (destruct rows; simpl; [done|lia]).
  pose proof (parts_needed_bounds cs (length rows - cs) Hcs) as [Hlow Hhigh].
  unfold parts_needed in *.
  set (q := ceil_div (Z.of_nat (length rows - cs)) (Z.of_nat cs)) in *.
  assert (0 <= q).
  { destruct (decide (length rows - cs = 0)%nat) as [Hz|Hnz].
    - subst q. rewrite Hz. done.
    - pose proof (ceil_div_pos (Z.of_nat (length rows - cs)) (Z.of_nat cs)). lia. }
  rewrite (ceil_div_unique _ _ (q + 1)); [lia|lia|].
  destruct Hlow as [Hlow|Hz]; [nia|].
  assert (q = 0) as -> by (subst q; by rewrite Hz). lia.
Qed.

Lemma part_events_early (base_name : string) (num_parts : Z)
    (cs n i : nat) (rows : list row) :
  (0 < cs)%nat ->
  (parts_needed cs (length rows) < n)%nat ->
  part_events base_name num_parts cs n i rows =
    map (fun j => EvPart (i + j + 1) num_parts (part_filename base_name (i + j)))
        (seq 0 (parts_needed cs (length rows)))
    ++ [EvEarlyEnd (i + parts_needed cs (length rows))].
Proof.
  intros Hcs. revert i rows. induction n as [|n IH]; intros i rows Hp; [lia|].
  simpl. destruct rows as [|r rs] eqn:Er.
  - simpl. rewrite parts_needed_0. simpl. by rewrite Nat.add_0_r.
  - rewrite <- Er in *. rewrite parts_needed_step in * by (done || by subst).
    rewrite IH by lia. simpl. rewrite Nat.add_0_r. f_equal.
    rewrite <- fmap_S_seq, <- list_fmap_compose.
    replace (S i + parts_needed cs (length (drop cs rows)))%nat
      with (i + S (parts_needed cs (length (drop cs rows))))%nat by lia.
    f_equal; [|do 2 f_equal; lia].
    apply list_fmap_ext. intros _ j _. simpl.
    by replace (i + S j)%nat with (S (i + j)) by lia.
Qed.

Lemma write_parts_beyond (enc : encoding) (base_name : string) (header : row)
    (cs n i : nat) (rows : list row) (fs : gmap string OutFile) (name : string) :
  (0 < cs)%nat ->
  (forall k, (i <= k < i + parts_needed cs (length rows))%nat ->
             name <> part_filename base_name k) ->
  write_parts enc base_name header cs n i rows fs !! name = fs !! name.
Proof.
  intros Hcs. revert i rows fs. induction n as [|n IH]; intros i rows fs Hne; [done|].
  simpl. destruct rows as [|r rs] eqn:Er; [done|].
  rewrite <- Er in *. rewrite parts_needed_step in Hne by (done || by subst).
  rewrite IH.
  - apply lookup_insert_ne. intros Heq. apply (Hne i); [lia|done].
  - intros k Hk. apply Hne. lia.
Qed.

Lemma part_events_full (base_name : string) (num_parts : Z)
    (cs n i : nat) (rows : list row) :
  ((n - 1) * cs < length rows)%nat ->
  part_events base_name num_parts cs n i rows =
    map (fun j => EvPart (i + j + 1) num_parts (part_filename base_name (i + j)))
        (seq 0 n).
Proof.
  revert i rows. induction n as [|n IH]; intros i rows Hlen; [done|].
  cbn [part_events]. destruct rows as [|r rs] eqn:Er; [simpl in Hlen; lia|].
  rewrite <- Er in *.
  assert (0 < length rows)%nat as Hpos by (subst rows; simpl; lia).
  assert (part_events base_name num_parts cs n (S i) (drop cs rows) =
          map (fun j => EvPart (S i + j + 1) num_parts
                          (part_filename base_name (S i + j))) (seq 0 n)) as ->.
  { destruct n as [|n']; [done|].
    apply IH. rewrite length_drop. simpl in *. nia. }
  cbn [seq map]. rewrite Nat.add_0_r. f_equal.
  rewrite <- fmap_S_seq, <- list_fmap_compose.
  apply list_fmap_ext. intros _ j _. simpl.
  by replace (i + S j)%nat with (S (i + j)) by lia.
Qed.


(** *** An early end, on any run *)

Lemma announced_from_S (base_name : string) (num_parts : Z) (i k : nat) :
  announced_from base_name num_parts i (S k) =
  EvPart (i + 1) num_parts (part_filename base_name i)
  :: announced_from base_name num_parts (S i) k.
Proof.
  unfold announced_from. cbn [seq map]. rewrite Nat.add_0_r. f_equal.
  rewrite <- fmap_S_seq, <- list_fmap_compose.
  apply list_fmap_ext. intros _ j _. simpl.
  by replace (i + S j)%nat with (S (i + j)) by lia.
Qed.

Lemma early_end_not_announced (base_name : string) (num_parts : Z)
    (i k k' : nat) :
  EvEarlyEnd k' ∉ announced_from base_name num_parts i k.
Proof.
  unfold announced_from. intros H.
  apply list_elem_of_fmap in H as (j & Hj & _). discriminate.
Qed.

Lemma split_loop_trace (env : Env) (enc : encoding) (num_parts chunk_size : Z)
    (base_name : string) (header : row) (n i : nat) (it : LineIter) (w : World) :
  sat (split_loop env enc num_parts chunk_size base_name header n i it) w
    (fun r w' =>
       exists k tail,
         log w' = log w ++ announced_from base_name num_parts i k ++ tail /\
         ((tail = [EvEarlyEnd (i + k)] /\ r = Ok tt /\ (k < n)%nat)
          \/ tail = [])).
Proof.
  revert i it w. induction n as [|n IH]; intros i it w; cbn [split_loop].
  { exists 0%nat, []. split; [by rewrite !app_nil_r|by right]. }
  apply sat_bind. unfold sat at 1, islice.
  destruct (chunk_size <? 0); cbn [raise ret fst snd].
  { exists 0%nat, []. split; [by rewrite !app_nil_r|by right]. }
  destruct (islice_next (Z.to_nat chunk_size) it) as [row1 it1| |e].
  - apply sat_bind. unfold sat at 1, open_w.
    destruct (open_w_error env (part_filename base_name i)); cbn [fst snd].
    { exists 0%nat, []. split; [by rewrite !app_nil_r|by right]. }
    apply sat_bind. unfold sat at 1, write at 1. simpl.
    apply sat_bind. unfold sat at 1, write at 1. simpl.
    apply sat_bind. unfold sat at 1.
    match goal with |- context [writerows ?a ?b ?c ?d] =>
      pose proof (writerows_files_only a b c d) as (_ & Hw & _);
      destruct (writerows a b c d) as [[it2|e] w2] end;
      simpl in *.
    + apply sat_bind. unfold sat at 1, log_callback at 1. simpl.
      match goal with |- sat _ ?w3 _ => pose proof (IH (S i) it2 w3) as H end.
      unfold sat in *. destruct H as (k & tail & Hl & Ht). simpl in Hl.
      exists (S k), tail. split.
      * rewrite Hl, Hw, announced_from_S. by rewrite <- !app_assoc.
      * destruct Ht as [[-> [Hok Hk]] | ->]; [left|by right].
        split; [by replace (i + S k)%nat with (S i + k)%nat by lia|].
        split; [done|lia].
    + exists 0%nat, []. split; [by rewrite Hw, !app_nil_r|by right].
  - unfold sat, log_callback. cbn [fst snd log].
    exists 0%nat, [EvEarlyEnd (i + 0)]. split; [by rewrite Nat.add_0_r|].
    left. split; [done|]. split; [done|lia].
  - unfold sat, raise. cbn [fst snd].
    exists 0%nat, []. split; [by rewrite !app_nil_r|by right].
Qed.

Lemma process_splitting_early (env : Env) (enc : encoding)
    (num_parts chunk_size : Z) (base_name : string) (m : errors_mode)
    (w : World) :
  sat (process_splitting env enc num_parts chunk_size base_name m) w
    (fun r w' =>
       exists evs,
         log w' = log w ++ evs /\
         early_end_post base_name num_parts (Z.to_nat num_parts) [] r evs).
Proof.
  unfold process_splitting.
  destruct (reader_next _) as [header it1| |e].
  - pose proof (split_loop_trace env enc num_parts chunk_size base_name header
                  (Z.to_nat num_parts) 0 it1 w) as H.
    unfold sat in *. destruct H as (k & tail & Hl & Ht).
    exists (announced_from base_name num_parts 0 k ++ tail). split; [done|].
    intros k' Hin. apply elem_of_app in Hin as [Hin|Hin];
      [by apply early_end_not_announced in Hin|].
    destruct Ht as [[-> [Hok Hk]] | ->]; [|by apply elem_of_nil in Hin].
    apply list_elem_of_singleton in Hin. injection Hin as ->. cbn [Nat.add].
    split; [done|]. split; [done|]. by exists [].
  - unfold sat, ret. cbn [fst snd].
    exists []. split; [by rewrite app_nil_r|]. intros k Hin.
    by apply elem_of_nil in Hin.
  - unfold sat, raise. cbn [fst snd].
    exists []. split; [by rewrite app_nil_r|]. intros k Hin.
    by apply elem_of_nil in Hin.
Qed.

Lemma split_stage_early (env : Env) (enc : encoding)
    (num_parts chunk_size : Z) (base_name : string) (w : World) :
  sat (split_stage env enc num_parts chunk_size base_name) w
    (fun r w' =>
       exists evs,
         log w' = log w ++ evs /\
         early_end_post base_name num_parts (Z.to_nat num_parts) [] r evs).
Proof.
  unfold split_stage, try_except.
  pose proof (process_splitting_early env enc num_parts chunk_size base_name
                Strict w) as H1.
  unfold sat in *.
  destruct (process_splitting env enc num_parts chunk_size base_name Strict w)
    as [[[]|e] w1]; cbn [fst snd] in *; [done|].
  destruct H1 as (evs1 & Hl1 & H1).
  unfold bind, log_callback. cbn [fst snd].
  match goal with |- context [process_splitting _ _ _ _ _ Ignore ?w2] =>
    pose proof (process_splitting_early env enc num_parts chunk_size base_name
                  Ignore w2) as H2 end.
  unfold sat in H2. destruct H2 as (evs2 & Hl2 & H2). cbn [log] in Hl2.
  exists (evs1 ++ EvSplitRetry e :: evs2). split.
  { rewrite Hl2, Hl1. by rewrite <- !app_assoc. }
  intros k Hin. apply elem_of_app in Hin as [Hin|Hin].
  { by destruct (H1 k Hin) as [? _]. }
  apply elem_of_cons in Hin as [Hin|Hin]; [discriminate|].
  destruct (H2 k Hin) as (Hok & Hk & before & ->).
  split; [done|]. split; [done|].
  exists (evs1 ++ EvSplitRetry e :: before).
  by rewrite <- !app_assoc.
Qed.

Lemma early_end_post_none (base_name : string) (num_parts : Z) (n : nat)
    (closing : list Event) (r : result unit) (evs : list Event) :
  Forall (fun ev => forall k, ev <> EvEarlyEnd k) evs ->
  early_end_post base_name num_parts n closing r evs.
Proof.
  intros Hall k Hin. rewrite Forall_forall in Hall. by destruct (Hall _ Hin k).
Qed.

Lemma count_stage_no_early_end (env : Env) (enc : encoding) (w : World) :
  exists evs,
    log (count_stage env enc w).2 = log w ++ evs /\
    Forall (fun ev => forall k, ev <> EvEarlyEnd k) evs.
Proof.
  destruct (d_error (src env enc Strict)) as [e|] eqn:E.
  - rewrite (count_stage_retry _ _ _ e) by done. unfold count_lines.
    exists [EvCountRetry].
    destruct (d_error (src env enc Ignore)); simpl;
      (split; [done|by repeat constructor]).
  - rewrite count_stage_strict by done. exists [].
    split; [by rewrite app_nil_r|done].
Qed.

(** Whatever way the body takes: an early end in its messages comes
    from the pass that completed the splitting stage, right after the
    parts that pass announced, and the success message follows it. *)
Lemma split_body_early (env : Env) (file_path : string) (num_parts : Z)
    (output_folder : string) (w : World) :
  sat (split_body env file_path num_parts output_folder) w
    (fun r w1 =>
       exists evs,
         log w1 = log w ++ evs /\
         early_end_post (fst (splitext env (basename env file_path)))
           num_parts (Z.to_nat num_parts) [EvDone output_folder] r evs).
Proof.
  unfold split_body.
  step_with sat_bind. step_with sat_bind. step_with sat_bind.
  match goal with |- sat (bind _ ?k) _ _ => set (rest := k) end.
  assert (forall w0 evs0,
            log w0 = log w ++ evs0 ->
            Forall (fun ev => forall k, ev <> EvEarlyEnd k) evs0 ->
            sat (rest tt) w0
              (fun r w1 =>
                 exists evs,
                   log w1 = log w ++ evs /\
                   early_end_post (fst (splitext env (basename env file_path)))
                     num_parts (Z.to_nat num_parts) [EvDone output_folder] r evs))
    as Hrest.
  { intros w0 evs0 Hl0 Hn0. subst rest. cbv beta.
    step_with sat_bind. apply sat_bind. unfold sat at 1, lift. simpl.
    destruct (detect_encoding (src env)) as [enc|e].
    2:{ exists (evs0 ++ [EvDetecting]). rewrite Hl0, <- app_assoc.
        split; [done|]. apply early_end_post_none.
        apply Forall_app. split; [done|]. by repeat constructor. }
    step_with sat_bind. step_with sat_bind. apply sat_bind. unfold sat at 1.
    match goal with |- context [count_stage env enc ?w2] =>
      destruct (count_stage_no_early_end env enc w2) as (evs3 & Hl3 & Hn3);
      destruct (count_stage env enc w2) as [[total|e] w3] end; simpl in *.
    2:{ exists (evs0 ++ [EvDetecting; EvDetected enc; EvCounting] ++ evs3).
        rewrite Hl3, Hl0. split; [by rewrite <- !app_assoc|].
        apply early_end_post_none.
        apply Forall_app. split; [done|]. apply Forall_app. split; [|done].
        by repeat constructor. }
    assert (Forall (fun ev => forall k, ev <> EvEarlyEnd k)
              (evs0 ++ [EvDetecting; EvDetected enc; EvCounting] ++ evs3)) as Hn.
    { apply Forall_app. split; [done|]. apply Forall_app. split; [|done].
      by repeat constructor. }
    assert (log w3 = log w ++ evs0 ++ [EvDetecting; EvDetected enc; EvCounting]
                       ++ evs3) as Hl.
    { rewrite Hl3, Hl0. by rewrite <- !app_assoc. }
    clear Hl3 Hl0.
    destruct (total - 1 <=? 0).
    { step_with sat_bind. unfold sat, progress_callback. simpl.
      exists ((evs0 ++ [EvDetecting; EvDetected enc; EvCounting] ++ evs3)
              ++ [EvNoData]).
      split; [rewrite Hl; by rewrite <- !app_assoc|].
      apply early_end_post_none.
      apply Forall_app. split; [done|]. by repeat constructor. }
    apply sat_bind. unfold sat at 1, math_ceil.
    destruct (num_parts =? 0); simpl.
    { exists (evs0 ++ [EvDetecting; EvDetected enc; EvCounting] ++ evs3).
      split; [done|]. by apply early_end_post_none. }
    step_with sat_bind. apply sat_bind. unfold sat at 1.
    set (pre := (evs0 ++ [EvDetecting; EvDetected enc; EvCounting] ++ evs3)
                ++ [EvPlan (total - 1) num_parts
                      (float_ceil (total - 1) num_parts)]).
    assert (Forall (fun ev => forall k, ev <> EvEarlyEnd k) pre) as Hpre.
    { apply Forall_app. split; [done|]. by repeat constructor. }
    match goal with |- context [split_stage env enc ?a ?b ?c ?w4] =>
      pose proof (split_stage_early env enc a b c w4) as H5;
      unfold sat in H5;
      destruct (split_stage env enc a b c w4) as [[[]|e] w5] end;
      simpl in *; destruct H5 as (evs5 & Hl5 & H5).
    - unfold sat, log_callback. simpl.
      exists (pre ++ evs5 ++ [EvDone output_folder]). split.
      { rewrite Hl5, Hl. subst pre. by rewrite <- !app_assoc. }
      intros k Hin.
      apply elem_of_app in Hin as [Hin|Hin].
      { rewrite Forall_forall in Hpre. by destruct (Hpre _ Hin k). }
      apply elem_of_app in Hin as [Hin|Hin].
      2:{ apply list_elem_of_singleton in Hin. discriminate. }
      destruct (H5 k Hin) as (_ & Hk & before & ->).
      split; [done|]. split; [done|].
      exists (pre ++ before). by rewrite <- !app_assoc.
    - exists (pre ++ evs5). split.
      { rewrite Hl5, Hl. subst pre. by rewrite <- !app_assoc. }
      intros k Hin.
      apply elem_of_app in Hin as [Hin|Hin].
      { rewrite Forall_forall in Hpre. by destruct (Hpre _ Hin k). }
      by destruct (H5 k Hin) as (? & _). }
  apply sat_bind. unfold sat at 1.
  destruct (dir_exists w) eqn:Ed; simpl.
  - apply (Hrest _ [EvStart (basename env file_path)]); [done|].
    by repeat constructor.
  - unfold bind, makedirs, log_callback.
    destruct (makedirs_error env) as [e|]; simpl.
    + exists [EvStart (basename env file_path)]. split; [done|].
      apply early_end_post_none. by repeat constructor.
    + apply (Hrest _ [EvStart (basename env file_path); EvMkdir output_folder]);
        simpl; [by rewrite <- app_assoc|by repeat constructor].
Qed.

(** C4, as amended.  On every run, an early end that is logged comes from
    the pass that completes the splitting stage: that pass has
    announced fewer than [num_parts] parts, the parts 1 to [k] in
    order, the informational message gives their number [k], the
    success message follows it at once, and the run has no error
    message.  In a run where the source decodes and nothing fails,
    the loop ends early exactly when the data records fill fewer than
    [num_parts] chunks, that is when there are at most
    [(num_parts - 1) * chunk_size] of them; the parts from the first
    missing one on are not written. *)
Theorem C4_early_end (env : Env) (file_path : string) (num_parts : Z)
    (output_folder : string) (w : World) :
  let base_name := fst (splitext env (basename env file_path)) in
  let final := run env file_path num_parts output_folder w in
  let evs := new_events w final.2 in
  (forall k, EvEarlyEnd k ∈ evs ->
     (k < Z.to_nat num_parts)%nat /\
     final.1 = Ok tt /\
     level (EvEarlyEnd k) = Info /\
     count_errors evs = 0%nat /\
     exists before,
       evs = before
             ++ map (fun j => EvPart (j + 1) num_parts (part_filename base_name j))
                  (seq 0 k)
             ++ [EvEarlyEnd k; EvDone output_folder]) /\
  (forall enc header rows,
     let data_rows := line_count env enc Strict - 1 in
     let chunk_size := Z.to_nat (ceil_div data_rows num_parts) in
     let produced := parts_needed chunk_size (length rows) in
     dir_exists w = true \/ makedirs_error env = None ->
     (forall name, open_w_error env name = None) ->
     detect_encoding (src env) = Ok enc ->
     d_error (src env enc Strict) = None ->
     records (pending (open_reader env enc Strict)) = Some (header :: rows) ->
     0 < data_rows < 2 ^ 53 ->
     0 < num_parts < data_rows * 2 ^ 1075 ->
     ((exists k, EvEarlyEnd k ∈ evs) <->
      (length rows <= (Z.to_nat num_parts - 1) * chunk_size)%nat) /\
     ((length rows <= (Z.to_nat num_parts - 1) * chunk_size)%nat ->
      (produced < Z.to_nat num_parts)%nat /\
      evs =
        start_events env file_path output_folder (dir_exists w) enc
        ++ EvPlan data_rows num_parts (ceil_div data_rows num_parts)
        :: map (fun j => EvPart (j + 1) num_parts (part_filename base_name j))
             (seq 0 produced)
        ++ [EvEarlyEnd produced; EvDone output_folder] /\
      (forall j, (produced <= j)%nat ->
         files final.2 !! part_filename base_name j =
         files w !! part_filename base_name j))).
Proof.
  intros base_name final evs. split.
  - intros k Hin. subst evs final. rewrite run_unfold in *.
    pose proof (split_body_early env file_path num_parts output_folder w) as He.
    pose proof (split_body_outcome env file_path num_parts output_folder w) as Ho.
    unfold sat, body_post in He, Ho.
    destruct (split_body env file_path num_parts output_folder w) as [[[]|e] w1];
      cbn [fst snd log] in *;
      destruct He as (evs & Hl & He); destruct Ho as (evs' & Hl' & Ho);
      assert (evs' = evs) as -> by (apply (app_inv_head (log w)); congruence).
    + rewrite (new_events_app _ _ evs) in * by done.
      destruct (He k Hin) as (_ & Hk & before & Hevs).
      split; [done|]. split; [done|]. split; [done|]. split.
      * destruct Ho as [(_ & evs0 & -> & Hn)|(_ & _ & evs0 & Hnd & _)].
        -- by rewrite count_errors_app, count_errors_no_error.
        -- rewrite Hnd in Hevs.
           apply (f_equal last) in Hevs.
           rewrite last_snoc, !last_app in Hevs. discriminate.
      * by exists before.
    + rewrite (new_events_app _ _ (evs ++ [EvUnexpected e])) in *
        by (cbn [log]; by rewrite Hl, app_assoc).
      apply elem_of_app in Hin as [Hin|Hin].
      * by destruct (He k Hin) as (? & _).
      * apply list_elem_of_singleton in Hin. discriminate.
  - intros enc header rows data_rows chunk_size produced
      Hdir Hopen Hdet Hdec Hrec [Hrows _] [Hnp Hsmall].
    pose proof (ceil_div_pos data_rows num_parts Hnp Hrows) as Hcs.
    assert (0 < chunk_size)%nat as Hcs' by (unfold chunk_size; lia).
    assert (evs =
              start_events env file_path output_folder (dir_exists w) enc
              ++ EvPlan data_rows num_parts (ceil_div data_rows num_parts)
              :: part_events base_name num_parts chunk_size
                   (Z.to_nat num_parts) 0 rows
              ++ [EvDone output_folder]) as Hevs.
    { subst evs final. unfold data_rows, base_name.
      erewrite run_ok by done. by erewrite new_events_app. }
    assert ((length rows <= (Z.to_nat num_parts - 1) * chunk_size)%nat ->
            (produced < Z.to_nat num_parts)%nat) as Hprod.
    { intros Hshort.
      assert (produced <= Z.to_nat num_parts - 1)%nat; [|lia].
      by apply parts_needed_least. }
    split; [split|].
    + intros [k Hin].
      destruct (decide (length rows <= (Z.to_nat num_parts - 1) * chunk_size)%nat)
        as [|Hfull]; [done|exfalso].
      rewrite Hevs, part_events_full in Hin by lia.
      unfold start_events in Hin.
      apply elem_of_cons in Hin as [Hin|Hin]; [discriminate|].
      apply elem_of_app in Hin as [Hin|Hin].
      { apply elem_of_app in Hin as [Hin|Hin].
        - destruct (dir_exists w); [by apply elem_of_nil in Hin|].
          apply list_elem_of_singleton in Hin. discriminate.
        - repeat (apply elem_of_cons in Hin as [Hin|Hin]; [discriminate|]).
          by apply elem_of_nil in Hin. }
      apply elem_of_cons in Hin as [Hin|Hin]; [discriminate|].
      apply elem_of_app in Hin as [Hin|Hin].
      { apply list_elem_of_fmap in Hin as (j & Hj & _). discriminate. }
      apply list_elem_of_singleton in Hin. discriminate.
    + intros Hshort. exists produced. rewrite Hevs.
      rewrite part_events_early by (done || by apply Hprod).
      fold produced. cbn [Nat.add].
      apply elem_of_app. right. apply elem_of_cons. right.
      apply elem_of_app. left. apply elem_of_app. right.
      by apply list_elem_of_singleton.
    + intros Hshort. split; [by apply Hprod|]. split.
      * rewrite Hevs, part_events_early by (done || by apply Hprod).
        fold produced. cbn [Nat.add]. by rewrite <- !app_assoc.
      * intros j Hj. subst final. unfold data_rows, base_name.
        erewrite run_ok by done.
        fold data_rows. fold base_name. fold chunk_size. cbn [snd files].
        apply write_parts_beyond; [done|].
        fold produced. intros k Hk Heq. apply part_filename_inj in Heq. lia.
Qed.

Lemma C4_early_end_witness :
  let final := run (Scenario.plain (Scenario.table 5)) "in/data.csv" 4 "out"
                 Scenario.fresh in
  final.1 = Ok tt /\
  count_errors (new_events Scenario.fresh final.2) = 0%nat /\
  new_events Scenario.fresh final.2 =
    [EvStart "data.csv"; EvMkdir "out"; EvDetecting; EvDetected utf_8_sig;
     EvCounting; EvPlan 5 4 2;
     EvPart 1 4 "data_part_1.csv"; EvPart 2 4 "data_part_2.csv";
     EvPart 3 4 "data_part_3.csv"; EvEarlyEnd 3; EvDone "out"] /\
  files final.2 !! "data_part_4.csv"%string = None.
Proof.
  destruct (C4_early_end (Scenario.plain (Scenario.table 5)) "in/data.csv" 4
              "out" Scenario.fresh) as [Hany Hclean].
  destruct (Hclean utf_8_sig Scenario.table_header (Scenario.table_rows 5))
    as [_ Hshort].
  - by right.
  - done.
  - reflexivity.
  - reflexivity.
  - vm_compute. reflexivity.
  - split; vm_compute; reflexivity.
  - split; vm_compute; reflexivity.
  - destruct Hshort as (_ & Hevents & Hnone); [vm_compute; lia|].
    destruct (Hany 3%nat) as (_ & Hok & _ & Hcount & _).
    { rewrite Hevents. vm_compute.
      do 9 (apply elem_of_cons; right). apply elem_of_cons. by left. }
    split; [exact Hok|]. split; [exact Hcount|]. split; [exact Hevents|].
    exact (Hnone 3%nat ltac:(vm_compute; lia)).
Defined.

(** C4, as stated, fails: with a header and 10 data rows in 3 parts the
    chunk size is 4, so there are fewer rows than [3 * 4], and yet the
    three parts are written and no early end is logged. *)
Lemma C4_counterexample :
  let env := Scenario.plain (Scenario.table 10) in
  let final := run env "in/data.csv" 3 "out" Scenario.fresh in
  records (pending (open_reader env utf_8_sig Strict))
    = Some (Scenario.table_header :: Scenario.table_rows 10) /\
  (length (Scenario.table_rows 10) < 3 * 4)%nat /\
  new_events Scenario.fresh final.2 =
    [EvStart "data.csv"; EvMkdir "out"; EvDetecting; EvDetected utf_8_sig;
     EvCounting; EvPlan 10 3 4;
     EvPart 1 3 "data_part_1.csv"; EvPart 2 3 "data_part_2.csv";
     EvPart 3 3 "data_part_3.csv"; EvDone "out"] /\
  is_Some (files final.2 !! "data_part_3.csv"%string).
Proof.
  split; [vm_compute; reflexivity|]. split; [vm_compute; lia|].
  split; [vm_compute; reflexivity|]. vm_compute. eauto.
Qed.

(** ** C8: one retry, from the start *)

Lemma split_stage_retry (env : Env) (enc : encoding) (num_parts chunk_size : Z)
    (base_name : string) (w w1 : World) (e : exn) :
  process_splitting env enc num_parts chunk_size base_name Strict w = (Raise e, w1) ->
  split_stage env enc num_parts chunk_size base_name w =
  process_splitting env enc num_parts chunk_size base_name Ignore
    (MkWorld (dir_exists w1) (files w1) (log w1 ++ [EvSplitRetry e]) (busy w1)).
Proof. intros H. unfold split_stage, try_except. by rewrite H. Qed.

(** C8.  When the strict pass of a stage raises, the stage logs a
    warning and runs its pass once more, with [errors='ignore'], on the
    file opened anew; the outcome of that second pass is the outcome
    of the stage.  For the splitting stage the second pass starts again
    at the header and at index 0: when it gets through the file, part
    [j + 1] holds the header and the [j]-th chunk of the rows read the
    second time, whatever the first pass had left under that name. *)
Theorem C8_retry_from_the_start (env : Env) (enc : encoding)
    (num_parts chunk_size : Z) (base_name : string) (w : World) :
  (forall e, (count_lines env enc Strict w).1 = Raise e ->
     level EvCountRetry = Warning /\
     count_stage env enc w =
       count_lines env enc Ignore
         (MkWorld (dir_exists w) (files w) (log w ++ [EvCountRetry]) (busy w))) /\
  (forall e w1,
     process_splitting env enc num_parts chunk_size base_name Strict w
       = (Raise e, w1) ->
     level (EvSplitRetry e) = Warning /\
     split_stage env enc num_parts chunk_size base_name w =
       process_splitting env enc num_parts chunk_size base_name Ignore
         (MkWorld (dir_exists w1) (files w1) (log w1 ++ [EvSplitRetry e])
            (busy w1)) /\
     forall header rows,
       (forall name, open_w_error env name = None) ->
       0 < chunk_size ->
       d_error (src env enc Ignore) = None ->
       records (pending (open_reader env enc Ignore)) = Some (header :: rows) ->
       let st := split_stage env enc num_parts chunk_size base_name w in
       st.1 = Ok tt /\
       forall j, (j < Z.to_nat num_parts)%nat ->
                 (j * Z.to_nat chunk_size < length rows)%nat ->
         files st.2 !! part_filename base_name j =
         Some (MkOutFile enc
                 (render (header :: take (Z.to_nat chunk_size)
                                      (drop (j * Z.to_nat chunk_size) rows))))).
Proof.
  split.
  - intros e He. split; [done|].
    unfold count_lines in He.
    destruct (d_error (src env enc Strict)) as [e'|] eqn:E; [|discriminate].
    by apply (count_stage_retry _ _ _ e').
  - intros e w1 He. split; [done|]. split; [by apply split_stage_retry|].
    intros header rows Hopen Hcs Hd Hr st. subst st.
    rewrite (split_stage_retry _ _ _ _ _ _ _ _ He).
    erewrite process_splitting_ok by done. simpl. split; [done|].
    intros j Hj Hlen. by apply (write_parts_lookup _ _ _ _ _ 0).
Qed.

Lemma C8_retry_from_the_start_witness :
  let env := Scenario.late_error in
  let st := split_stage env utf_8_sig 3 400 "data" Scenario.fresh in
  count_stage env utf_8_sig Scenario.fresh =
    (Ok 1201, MkWorld false ∅ [EvCountRetry] []) /\
  st.1 = Ok tt /\
  files st.2 !! "data_part_3.csv"%string =
    Some (MkOutFile utf_8_sig
            (render (Scenario.table_header
                     :: map Scenario.data_row (seq 801 400)))).
Proof.
  destruct (C8_retry_from_the_start Scenario.late_error utf_8_sig 3 400 "data"
              Scenario.fresh) as [Hcount Hsplit].
  split.
  - destruct (Hcount UnicodeDecodeError ltac:(vm_compute; reflexivity))
      as [_ ->].
    vm_compute. reflexivity.
  - destruct (Hsplit UnicodeDecodeError
                (process_splitting Scenario.late_error utf_8_sig 3 400 "data"
                   Strict Scenario.fresh).2
                ltac:(vm_compute; reflexivity))
      as (_ & _ & Hrewrite).
    destruct (Hrewrite Scenario.table_header (Scenario.table_rows 1200))
      as [Hok Hparts].
    + done.
    + lia.
    + vm_compute. reflexivity.
    + vm_compute. reflexivity.
    + split; [exact Hok|].
      exact (Hparts 2%nat ltac:(vm_compute; lia) ltac:(vm_compute; lia)).
Defined.

(** ** C3: every part starts with the header *)

Lemma writerows_files (name : string) (k : nat) (it : LineIter) (w : World) :
  exists t, files (writerows name k it w).2
            = alter (append_text t) name (files w).
Proof.
  revert it w. induction k as [|k IH]; intros it w; simpl.
  - exists []. by rewrite alter_append_nil.
  - destruct (reader_next it) as [r it'| |e]; simpl;
      try (exists []; by rewrite alter_append_nil).
    unfold bind, write at 1. simpl.
    match goal with |- context [writerows name k it' ?w1] =>
      destruct (IH it' w1) as [t Ht] end.
    exists (writerow r ++ t). rewrite Ht. simpl. apply alter_append_app.
Qed.

Lemma split_loop_files (env : Env) (enc : encoding) (num_parts chunk_size : Z)
    (base_name : string) (header : row) (n i : nat) (it : LineIter) (w : World)
    (name : string) (f : OutFile) :
  files (split_loop env enc num_parts chunk_size base_name header n i it w).2
    !! name = Some f ->
  files w !! name = Some f \/ starts_with_header enc header f.
Proof.
  revert i it w. induction n as [|n IH]; intros i it w; simpl; [by left|].
  unfold bind at 1, islice.
  destruct (chunk_size <? 0); simpl; [by left|].
  destruct (islice_next (Z.to_nat chunk_size) it) as [r it1| |e]; simpl;
    [|by left..].
  unfold bind at 1, open_w.
  destruct (open_w_error env (part_filename base_name i)); simpl; [by left|].
  unfold bind at 1, write at 1. simpl.
  unfold bind at 1, write at 1. simpl.
  unfold bind at 1.
  match goal with |- context [writerows ?a ?b ?c ?d] =>
    destruct (writerows_files a b c d) as [t Ht];
    pose proof (writerows_files_only a b c d) as Hw;
    destruct (writerows a b c d) as [[it2|e] w2] end; simpl in *.
  - unfold bind at 1, log_callback at 1. simpl. intros Hf.
    apply IH in Hf. simpl in Hf. destruct Hf as [Hf|Hf]; [|by right].
    rewrite Ht, !alter_insert_eq in Hf.
    destruct (decide (part_filename base_name i = name)) as [<-|Hne].
    + rewrite lookup_insert_eq in Hf. injection Hf as <-. right.
      split; [done|]. exists (writerow r ++ t).
      unfold append_text. cbn [f_text]. by rewrite <- ?app_assoc.
    + rewrite lookup_insert_ne in Hf by done. by left.
  - intros Hf. rewrite Ht, !alter_insert_eq in Hf.
    destruct (decide (part_filename base_name i = name)) as [<-|Hne].
    + rewrite lookup_insert_eq in Hf. injection Hf as <-. right.
      split; [done|]. exists (writerow r ++ t).
      unfold append_text. cbn [f_text]. by rewrite <- ?app_assoc.
    + rewrite lookup_insert_ne in Hf by done. by left.
Qed.

Lemma process_splitting_files (env : Env) (enc : encoding)
    (num_parts chunk_size : Z) (base_name : string) (m : errors_mode)
    (w : World) (name : string) (f : OutFile) :
  files (process_splitting env enc num_parts chunk_size base_name m w).2
    !! name = Some f ->
  files w !! name = Some f \/
  exists header reader1,
    reader_next (open_reader env enc m) = Yield header reader1 /\
    starts_with_header enc header f.
Proof.
  unfold process_splitting. fold (open_reader env enc m).
  destruct (reader_next (open_reader env enc m)) as [header it1| |e] eqn:E;
    simpl; [|by left..].
  intros Hf. apply split_loop_files in Hf as [Hf|Hf]; [by left|].
  right. by exists header, it1.
Qed.

Lemma split_stage_files (env : Env) (enc : encoding)
    (num_parts chunk_size : Z) (base_name : string)
    (w : World) (name : string) (f : OutFile) :
  files (split_stage env enc num_parts chunk_size base_name w).2 !! name = Some f ->
  files w !! name = Some f \/
  exists m header reader1,
    reader_next (open_reader env enc m) = Yield header reader1 /\
    starts_with_header enc header f.
Proof.
  unfold split_stage, try_except.
  destruct (process_splitting env enc num_parts chunk_size base_name Strict w)
    as [[[]|e] w1] eqn:E1; simpl.
  - intros Hf. replace w1 with
      (process_splitting env enc num_parts chunk_size base_name Strict w).2 in Hf
      by (by rewrite E1).
    apply process_splitting_files in Hf as [Hf|(h & it & Hf)]; [by left|].
    right. by exists Strict, h, it.
  - unfold bind, log_callback. simpl. intros Hf.
    apply process_splitting_files in Hf as [Hf|(h & it & Hf)].
    + simpl in Hf. replace w1 with
        (process_splitting env enc num_parts chunk_size base_name Strict w).2 in Hf
        by (by rewrite E1).
      apply process_splitting_files in Hf as [Hf|(h & it & Hf)]; [by left|].
      right. by exists Strict, h, it.
    + right. by exists Ignore, h, it.
Qed.

Lemma split_body_files (env : Env) (file_path : string) (num_parts : Z)
    (output_folder : string) (w : World) :
  sat (split_body env file_path num_parts output_folder) w
    (fun _ w1 => forall name f,
       files w1 !! name = Some f -> part_or_old env (files w) name f).
Proof.
  unfold split_body.
  step_with sat_bind. step_with sat_bind. step_with sat_bind.
  match goal with |- sat (bind _ ?k) _ _ => set (rest := k) end.
  assert (forall w0, files w0 = files w ->
            sat (rest tt) w0
              (fun _ w1 => forall name f,
                 files w1 !! name = Some f -> part_or_old env (files w) name f))
    as Hrest.
  { intros w0 Hf0. subst rest. cbv beta.
    step_with sat_bind. apply sat_bind. unfold sat at 1, lift. simpl.
    destruct (detect_encoding (src env)) as [enc|e] eqn:Hdet.
    2:{ intros name f Hf. left. simpl in Hf. congruence. }
    step_with sat_bind. step_with sat_bind. apply sat_bind. unfold sat at 1.
    match goal with |- context [count_stage env enc ?w2] =>
      destruct (count_stage_calm env enc w2) as [_ Hf3];
      destruct (count_stage env enc w2) as [[total|e] w3] end;
      cbn [fst snd files] in *.
    2:{ intros name f Hf. left. congruence. }
    destruct (total - 1 <=? 0).
    { step_with sat_bind. unfold sat, progress_callback. cbn [fst snd files].
      intros name f Hf. left. congruence. }
    apply sat_bind. unfold sat at 1, math_ceil.
    destruct (num_parts =? 0); cbn [fst snd files ret raise].
    { intros name f Hf. left. congruence. }
    step_with sat_bind. apply sat_bind. unfold sat at 1.
    match goal with |- context [split_stage env enc ?a ?b ?c ?w4] =>
      pose proof (split_stage_files env enc a b c w4) as Hf5;
      destruct (split_stage env enc a b c w4) as [[[]|e] w5] end;
      cbn [fst snd files] in *.
    - unfold sat, log_callback. cbn [fst snd files]. intros name f Hf.
      apply Hf5 in Hf as [Hf|(m & h & it & Hn & Hs)].
      + left. congruence.
      + right. by exists enc, m, h, it.
    - intros name f Hf.
      apply Hf5 in Hf as [Hf|(m & h & it & Hn & Hs)].
      + left. congruence.
      + right. by exists enc, m, h, it. }
  apply sat_bind. unfold sat at 1.
  destruct (dir_exists w) eqn:Ed; simpl.
  - by apply Hrest.
  - unfold bind, makedirs, log_callback.
    destruct (makedirs_error env) as [e|]; simpl.
    + intros name f Hf. by left.
    + by apply Hrest.
Qed.

(** C3, as amended.  After a run, a file of the output folder is either a
    file that was there before, as it was, or a part the run wrote; and
    a part is in the detected encoding and starts with the header
    record of the source, as the pass that wrote the part read it and
    as the CSV writer writes it: the same fields in the same order,
    quoted only where the writer finds it necessary, ended by a
    carriage return and a line feed. *)
Theorem C3_parts_start_with_header (env : Env) (file_path : string)
    (num_parts : Z) (output_folder : string) (w : World)
    (name : string) (f : OutFile) :
  let final := run env file_path num_parts output_folder w in
  files final.2 !! name = Some f ->
  files w !! name = Some f \/
  exists enc m header reader1,
    detect_encoding (src env) = Ok enc /\
    reader_next (open_reader env enc m) = Yield header reader1 /\
    f_encoding f = enc /\
    writerow header `prefix_of` f_text f.
Proof.
  intros final. subst final. rewrite run_unfold.
  pose proof (split_body_files env file_path num_parts output_folder w) as H.
  unfold sat in H.
  destruct (split_body env file_path num_parts output_folder w) as [[[]|e] w1];
    simpl in *; intros Hf; by apply H in Hf.
Qed.

Lemma C3_parts_start_with_header_witness :
  let final := run (Scenario.plain (Scenario.table 10)) "in/data.csv" 3 "out"
                 Scenario.fresh in
  let part2 := MkOutFile utf_8_sig
                 (render (Scenario.table_header
                          :: map Scenario.data_row [5; 6; 7; 8]%nat)) in
  files final.2 !! "data_part_2.csv"%string = Some part2 /\
  writerow Scenario.table_header `prefix_of` f_text part2.
Proof.
  intros final part2.
  assert (files final.2 !! "data_part_2.csv"%string = Some part2) as Hpart
    by (vm_compute; reflexivity).
  split; [exact Hpart|].
  destruct (C3_parts_start_with_header
              (Scenario.plain (Scenario.table 10)) "in/data.csv" 3 "out"
              Scenario.fresh "data_part_2.csv" part2 Hpart)
    as [Hold|(enc & m & header & reader1 & _ & Hnext & _ & Hprefix)].
  - discriminate Hold.
  - vm_compute in Hnext. injection Hnext as <- _. exact Hprefix.
Defined.

(** C3, as stated, fails: the header line of the source, ["a",b], comes
    out in the part as [a,b].  The record is the same, the line is
    not, in any encoding: the writer quotes a field only when it has to. *)
Lemma C3_counterexample :
  let env := Scenario.plain Scenario.quoted_header in
  let final := run env "in/data.csv" 1 "out" Scenario.fresh in
  head (split_lines [] Scenario.quoted_header)
    = Some ([DQUOTE] ++ str "a" ++ [DQUOTE] ++ str ",b" ++ [CR; LF]) /\
  (f_text <$> files final.2 !! "data_part_1.csv"%string)
    = Some (str "a,b" ++ [CR; LF] ++ str "1,2" ++ [CR; LF]) /\
  (head <$> (split_lines [] <$> (f_text <$> files final.2 !! "data_part_1.csv"%string)))
    <> Some (head (split_lines [] Scenario.quoted_header)).
Proof.
  split; [reflexivity|]. split; [vm_compute; reflexivity|].
  vm_compute. discriminate.
Qed.

(** ** The reader reads back what the writer wrote *)

Lemma process_chars_snoc (rd : Reader) (l : text) (c : char) :
  process_chars rd (l ++ [c]) = feed (process_chars rd l) (Ch c).
Proof.
  revert rd. induction l as [|a l IH]; intros rd; simpl.
  - by destruct (parse_process_char rd (Ch c)).
  - destruct (parse_process_char rd (Ch a)); [apply IH|done].
Qed.

Lemma process_line_feed (rd : Reader) (l : text) :
  process_line rd l = feed (process_chars rd l) EOL.
Proof. unfold process_line. by destruct (process_chars rd l). Qed.

Lemma records_from_cons (rd : Reader) (l : text) (ls : list text) :
  records_from rd (l :: ls) =
  line_end (process_chars rd l)
    (fun o => match o with Some rd' => records_from rd' ls | None => None end).
Proof.
  simpl. rewrite process_line_feed. unfold line_end.
  by destruct (feed (process_chars rd l) EOL).
Qed.

Lemma line_end_ext (o : option Reader) (k1 k2 : option Reader -> option (list row)) :
  (forall rd, k1 (Some rd) = k2 (Some rd)) -> line_end o k1 = line_end o k2.
Proof.
  intros H. unfold line_end. destruct (feed o EOL) as [rd|]; [|done].
  destruct (is_start_record rd); by rewrite H.
Qed.

Lemma read_text_split_lines_bounded (n : nat) (t : text) (rd : Reader)
    (cur : text) :
  (length t <= n)%nat ->
  read_text (process_chars rd (rev cur)) (bool_decide (cur = [])) t =
  records_from rd (split_lines cur t).
Proof.
  revert t rd cur. induction n as [|n IH]; intros t rd cur Hlen.
  - destruct t; [|simpl in Hlen; lia]. simpl.
    destruct cur as [|a cur]; [done|].
    rewrite bool_decide_eq_false_2 by done.
    rewrite records_from_cons. by apply line_end_ext.
  - destruct t as [|c t].
    { simpl. destruct cur as [|a cur]; [done|].
      rewrite bool_decide_eq_false_2 by done.
      rewrite records_from_cons. by apply line_end_ext. }
    simpl in Hlen. cbn [read_text split_lines].
    destruct (c =? LF)%N.
    { rewrite records_from_cons. cbn [rev]. rewrite process_chars_snoc.
      apply line_end_ext. intros rd'. apply (IH t rd' []). lia. }
    destruct (c =? CR)%N.
    2:{ rewrite <- IH by lia. cbn [rev]. rewrite process_chars_snoc.
        by rewrite bool_decide_eq_false_2. }
    destruct t as [|c' t'].
    { rewrite records_from_cons. cbn [rev]. rewrite process_chars_snoc.
      by apply line_end_ext. }
    simpl in Hlen. destruct (c' =? LF)%N.
    + rewrite records_from_cons. cbn [rev]. rewrite <- app_assoc.
      rewrite (app_assoc _ [c] [c']), !process_chars_snoc.
      apply line_end_ext. intros rd'. apply (IH t' rd' []). lia.
    + rewrite records_from_cons. cbn [rev]. rewrite process_chars_snoc.
      apply line_end_ext. intros rd'. apply (IH (c' :: t') rd' []). simpl. lia.
Qed.

(** Reading character by character is reading line by line. *)
Lemma read_text_records (t : text) :
  read_text (Some parse_reset) true t = records (split_lines [] t).
Proof.
  apply (read_text_split_lines_bounded (length t) t parse_reset []). lia.
Qed.

Lemma read_text_fresh (o : option Reader) (f1 f2 : bool) (t : text) :
  t <> [] -> read_text o f1 t = read_text o f2 t.
Proof. by destruct t. Qed.

Lemma add_char_ok (st : ParserState) (fld : text) (flds : row) (c : char) :
  (N.of_nat (length fld) < field_limit)%N ->
  parse_add_char (MkReader st fld flds) c = Some (MkReader st (fld ++ [c]) flds).
Proof.
  intros H. unfold parse_add_char. cbn [field state fields].
  destruct (field_limit <=? N.of_nat (length fld))%N eqn:E; [|done].
  apply N.leb_le in E. lia.
Qed.

Lemma read_text_char (o : option Reader) (fresh : bool) (c : char) (t : text) :
  (c =? LF)%N = false -> (c =? CR)%N = false ->
  read_text o fresh (c :: t) = read_text (feed o (Ch c)) false t.
Proof. intros H1 H2. cbn [read_text]. by rewrite H1, H2. Qed.

Lemma read_text_lf (o : option Reader) (fresh : bool) (c : char) (t : text) :
  (c =? LF)%N = true ->
  read_text o fresh (c :: t) =
  line_end (feed o (Ch c)) (fun o' => read_text o' true t).
Proof. intros H1. cbn [read_text]. by rewrite H1. Qed.

Lemma read_text_cr_lf (o : option Reader) (fresh : bool) (c c' : char) (t : text) :
  (c =? LF)%N = false -> (c =? CR)%N = true -> (c' =? LF)%N = true ->
  read_text o fresh (c :: c' :: t) =
  line_end (feed (feed o (Ch c)) (Ch c')) (fun o' => read_text o' true t).
Proof. intros H1 H2 H3. cbn [read_text]. by rewrite H1, H2, H3. Qed.

Lemma read_text_cr (o : option Reader) (fresh : bool) (c c' : char) (t : text) :
  (c =? LF)%N = false -> (c =? CR)%N = true -> (c' =? LF)%N = false ->
  read_text o fresh (c :: c' :: t) =
  line_end (feed o (Ch c)) (fun o' => read_text o' true (c' :: t)).
Proof. intros H1 H2 H3. cbn [read_text]. by rewrite H1, H2, H3. Qed.

Lemma feed_in_quoted (fld : text) (flds : row) (c : char) :
  (c =? DQUOTE)%N = false ->
  (N.of_nat (length fld) < field_limit)%N ->
  feed (Some (MkReader IN_QUOTED_FIELD fld flds)) (Ch c)
  = Some (MkReader IN_QUOTED_FIELD (fld ++ [c]) flds).
Proof.
  intros Hq Hlt. cbn [feed parse_process_char state]. rewrite Hq.
  by apply add_char_ok.
Qed.

Lemma feed_in_quoted_quote (fld : text) (flds : row) :
  feed (Some (MkReader IN_QUOTED_FIELD fld flds)) (Ch DQUOTE)
  = Some (MkReader QUOTE_IN_QUOTED_FIELD fld flds).
Proof. reflexivity. Qed.

Lemma feed_quote_quote (fld : text) (flds : row) :
  (N.of_nat (length fld) < field_limit)%N ->
  feed (Some (MkReader QUOTE_IN_QUOTED_FIELD fld flds)) (Ch DQUOTE)
  = Some (MkReader IN_QUOTED_FIELD (fld ++ [DQUOTE]) flds).
Proof.
  intros Hlt. cbn [feed parse_process_char state].
  change (DQUOTE =? DQUOTE)%N with true. by rewrite add_char_ok.
Qed.

Lemma line_end_in_quoted (fld : text) (flds : row)
    (k : option Reader -> option (list row)) :
  line_end (Some (MkReader IN_QUOTED_FIELD fld flds)) k
  = k (Some (MkReader IN_QUOTED_FIELD fld flds)).
Proof. reflexivity. Qed.

(** Inside the quotes: the doubled content of a field is read back as
    the field, line breaks included. *)
Lemma read_quoted_bounded (n : nat) (f fld : text) (flds : row) (rest : text)
    (fresh fresh' : bool) :
  (length f <= n)%nat ->
  (N.of_nat (length fld + length f) <= field_limit)%N ->
  read_text (Some (MkReader IN_QUOTED_FIELD fld flds)) fresh
    (double_quotes f ++ DQUOTE :: rest) =
  read_text (Some (MkReader IN_QUOTED_FIELD (fld ++ f) flds)) fresh'
    (DQUOTE :: rest).
Proof.
  revert f fld fresh fresh'. induction n as [|n IH]; intros f fld fresh fresh' Hn Hlim.
  - destruct f; [|simpl in Hn; lia]. simpl double_quotes. rewrite app_nil_r.
    by apply read_text_fresh.
  - destruct f as [|c f].
    { simpl double_quotes. rewrite app_nil_r. by apply read_text_fresh. }
    simpl in Hn, Hlim. cbn [double_quotes].
    assert (N.of_nat (length fld) < field_limit)%N as Hlt by lia.
    assert (N.of_nat (length (fld ++ [c])) < field_limit \/ f = [])%N as Hlt'.
    { destruct f; [by right|left]. rewrite length_app. simpl in *. lia. }
    assert (N.of_nat (length (fld ++ [c]) + length f) <= field_limit)%N as Hlim'
      by (rewrite length_app; simpl; lia).
    replace (fld ++ c :: f) with ((fld ++ [c]) ++ f) by (by rewrite <- app_assoc).
    destruct (c =? DQUOTE)%N eqn:Eq.
    { apply N.eqb_eq in Eq. subst c. cbn [app].
      rewrite read_text_char by done. rewrite feed_in_quoted_quote.
      rewrite read_text_char by done. rewrite feed_quote_quote by done.
      apply IH; [lia|done]. }
    cbn [app].
    destruct (c =? LF)%N eqn:El.
    { rewrite read_text_lf by done. rewrite feed_in_quoted by done.
      rewrite line_end_in_quoted. apply IH; [lia|done]. }
    destruct (c =? CR)%N eqn:Ec.
    2:{ rewrite read_text_char by done. rewrite feed_in_quoted by done.
        apply IH; [lia|done]. }
    destruct f as [|c' f'].
    { cbn [double_quotes app]. rewrite read_text_cr by done.
      rewrite feed_in_quoted by done. rewrite line_end_in_quoted.
      rewrite app_nil_r. by apply read_text_fresh. }
    destruct Hlt' as [Hlt'|?]; [|done].
    destruct (c' =? LF)%N eqn:El'.
    + assert ((c' =? DQUOTE)%N = false) as Eq'.
      { apply N.eqb_eq in El'. by subst c'. }
      cbn [double_quotes]. rewrite Eq'. cbn [app].
      rewrite read_text_cr_lf by done.
      rewrite feed_in_quoted by done. rewrite feed_in_quoted by done.
      rewrite line_end_in_quoted.
      replace ((fld ++ [c]) ++ c' :: f') with (((fld ++ [c]) ++ [c']) ++ f')
        by (by rewrite <- (app_assoc _ [c'])).
      apply IH; [simpl in *; lia|].
      rewrite !length_app. simpl in *. lia.
    + transitivity
        (read_text (Some (MkReader IN_QUOTED_FIELD (fld ++ [c]) flds)) true
           (double_quotes (c' :: f') ++ DQUOTE :: rest)).
      * cbn [double_quotes].
        destruct (c' =? DQUOTE)%N eqn:Eq'; cbn [app].
        -- apply N.eqb_eq in Eq'. subst c'.
           rewrite read_text_cr by done. rewrite feed_in_quoted by done.
           by rewrite line_end_in_quoted.
        -- rewrite read_text_cr by done. rewrite feed_in_quoted by done.
           by rewrite line_end_in_quoted.
      * apply IH; [simpl in *; lia|done].
Qed.

Lemma read_quoted (f fld : text) (flds : row) (rest : text) (fresh fresh' : bool) :
  (N.of_nat (length fld + length f) <= field_limit)%N ->
  read_text (Some (MkReader IN_QUOTED_FIELD fld flds)) fresh
    (double_quotes f ++ DQUOTE :: rest) =
  read_text (Some (MkReader IN_QUOTED_FIELD (fld ++ f) flds)) fresh'
    (DQUOTE :: rest).
Proof. by apply (read_quoted_bounded (length f)). Qed.

Lemma needs_quote_false (c : char) :
  needs_quote c = false ->
  (c =? COMMA)%N = false /\ (c =? DQUOTE)%N = false /\
  (c =? CR)%N = false /\ (c =? LF)%N = false.
Proof.
  unfold needs_quote. intros H.
  destruct (c =? COMMA)%N, (c =? DQUOTE)%N, (c =? CR)%N, (c =? LF)%N;
    simpl in H; done.
Qed.

Lemma feed_in_field (fld : text) (flds : row) (c : char) :
  needs_quote c = false ->
  (N.of_nat (length fld) < field_limit)%N ->
  feed (Some (MkReader IN_FIELD fld flds)) (Ch c)
  = Some (MkReader IN_FIELD (fld ++ [c]) flds).
Proof.
  intros Hc Hlt. apply needs_quote_false in Hc as (H1 & H2 & H3 & H4).
  cbn [feed parse_process_char state is_newline_input]. rewrite H3, H4, H1.
  cbn [orb]. by apply add_char_ok.
Qed.

(** Outside the quotes: a field without a special character is read
    back as it stands. *)
Lemma read_plain (f fld : text) (flds : row) (rest : text) (fresh fresh' : bool) :
  existsb needs_quote f = false ->
  (N.of_nat (length fld + length f) <= field_limit)%N ->
  rest <> [] ->
  read_text (Some (MkReader IN_FIELD fld flds)) fresh (f ++ rest) =
  read_text (Some (MkReader IN_FIELD (fld ++ f) flds)) fresh' rest.
Proof.
  revert fld fresh. induction f as [|c f IH]; intros fld fresh Hp Hlim Hrest.
  - rewrite app_nil_r. by apply read_text_fresh.
  - simpl in Hp, Hlim. apply orb_false_iff in Hp as [Hc Hf].
    pose proof (needs_quote_false c Hc) as (H1 & H2 & H3 & H4).
    cbn [app]. rewrite read_text_char by done.
    rewrite feed_in_field by (done || lia).
    replace (fld ++ c :: f) with ((fld ++ [c]) ++ f) by (by rewrite <- app_assoc).
    apply IH; [done| |done]. rewrite length_app. simpl. lia.
Qed.

Lemma feed_ready_quote (st0 : ParserState) (flds : row) :
  st0 = START_RECORD \/ st0 = START_FIELD ->
  feed (Some (MkReader st0 [] flds)) (Ch DQUOTE)
  = Some (MkReader IN_QUOTED_FIELD [] flds).
Proof. by intros [-> | ->]. Qed.

Lemma feed_ready_plain (st0 : ParserState) (flds : row) (c : char) :
  st0 = START_RECORD \/ st0 = START_FIELD ->
  needs_quote c = false ->
  feed (Some (MkReader st0 [] flds)) (Ch c) = Some (MkReader IN_FIELD [c] flds).
Proof.
  intros Hst Hc. apply needs_quote_false in Hc as (H1 & H2 & H3 & H4).
  destruct Hst as [-> | ->];
    cbn [feed parse_process_char start_field state is_newline_input];
    rewrite ?H3, ?H4, ?H1, ?H2; cbn [orb]; rewrite ?H1, ?H2; reflexivity.
Qed.

(** The text of one field, as the writer writes it, is read back as the
    field. *)
Lemma read_field (st0 : ParserState) (f : text) (flds : row) (rest : text)
    (fresh fresh' : bool) :
  st0 = START_RECORD \/ st0 = START_FIELD ->
  field_ok f ->
  rest <> [] ->
  read_text (Some (MkReader st0 [] flds)) fresh (join_append false f ++ rest) =
  read_text (Some (after_field st0 f flds)) fresh' rest.
Proof.
  intros Hst Hok Hrest. unfold join_append, after_field, field_ok in *.
  cbn [orb]. destruct (existsb needs_quote f) eqn:Eq.
  - cbn [app]. rewrite <- app_assoc. cbn [app].
    rewrite read_text_char by done. rewrite feed_ready_quote by done.
    rewrite (read_quoted _ _ _ _ _ false) by (simpl; lia). cbn [app].
    rewrite read_text_char by done. rewrite feed_in_quoted_quote.
    by apply read_text_fresh.
  - destruct f as [|c f].
    + cbn [app]. by apply read_text_fresh.
    + simpl in Eq. apply orb_false_iff in Eq as [Hc Hf].
      pose proof (needs_quote_false c Hc) as (H1 & H2 & H3 & H4).
      cbn [app]. rewrite read_text_char by done.
      rewrite feed_ready_plain by done.
      rewrite (read_plain _ _ _ _ _ fresh'); [done|done| |done].
      simpl in *. lia.
Qed.

Lemma feed_after_field_comma (st0 : ParserState) (f : text) (flds : row) :
  st0 = START_RECORD \/ st0 = START_FIELD ->
  feed (Some (after_field st0 f flds)) (Ch COMMA)
  = Some (MkReader START_FIELD [] (flds ++ [f])).
Proof.
  intros Hst. unfold after_field.
  destruct (existsb needs_quote f); [reflexivity|].
  destruct f as [|c f]; [|reflexivity].
  by destruct Hst as [-> | ->].
Qed.

Lemma line_end_after_field (st0 : ParserState) (f : text) (flds : row)
    (k : option Reader -> option (list row)) :
  st0 = START_RECORD \/ st0 = START_FIELD ->
  (f = [] -> st0 = START_FIELD) ->
  line_end (feed (feed (Some (after_field st0 f flds)) (Ch CR)) (Ch LF)) k
  = cons (flds ++ [f]) <$> k (Some parse_reset).
Proof.
  intros Hst Hempty. unfold after_field.
  destruct (existsb needs_quote f) eqn:Eq; [reflexivity|].
  destruct f as [|c f]; [|reflexivity].
  by rewrite Hempty.
Qed.

(** The fields of a row, joined by commas and ended by a carriage
    return and a line feed, are read back as one record. *)
Lemma read_fields (r : row) (st0 : ParserState) (flds : row) (rest : text)
    (fresh : bool) :
  r <> [] ->
  row_ok r ->
  st0 = START_RECORD \/ st0 = START_FIELD ->
  (r = [[]] -> st0 = START_FIELD) ->
  read_text (Some (MkReader st0 [] flds)) fresh
    (join_fields r ++ CR :: LF :: rest) =
  cons (flds ++ r) <$> read_text (Some parse_reset) true rest.
Proof.
  revert st0 flds fresh. induction r as [|f r IH]; intros st0 flds fresh Hne Hok Hst Hone;
    [done|].
  apply Forall_cons in Hok as [Hf Hr].
  destruct r as [|f2 r].
  - cbn [join_fields].
    rewrite (read_field _ _ _ _ _ false) by done.
    rewrite read_text_cr_lf by done.
    apply line_end_after_field; [done|]. intros ->. by apply Hone.
  - change (join_fields (f :: f2 :: r))
      with (join_append false f ++ COMMA :: join_fields (f2 :: r)).
    rewrite <- app_assoc. cbn [app].
    rewrite (read_field _ _ _ _ _ false) by done.
    rewrite read_text_char by done.
    rewrite feed_after_field_comma by done.
    rewrite IH; [|done|done|by right|done].
    by rewrite <- app_assoc.
Qed.

Lemma join_append_nil (f : text) : join_append false f = [] -> f = [].
Proof.
  unfold join_append. cbn [orb]. by destruct (existsb needs_quote f).
Qed.

Lemma join_fields_nil (r : row) : join_fields r = [] -> r = [] \/ r = [[]].
Proof.
  destruct r as [|f [|f2 r]]; [by left| |].
  - cbn [join_fields]. intros H%join_append_nil. subst. by right.
  - change (join_fields (f :: f2 :: r))
      with (join_append false f ++ COMMA :: join_fields (f2 :: r)).
    intros H. apply app_eq_nil in H as [_ H]. discriminate.
Qed.

(** One written row is read back as that row. *)
Lemma read_writerow (r : row) (rest : text) :
  row_ok r ->
  read_text (Some parse_reset) true (writerow r ++ rest) =
  cons r <$> read_text (Some parse_reset) true rest.
Proof.
  intros Hok. unfold writerow.
  destruct r as [|f r]; [reflexivity|].
  destruct (join_fields (f :: r)) as [|c t] eqn:Ej.
  - apply join_fields_nil in Ej as [?|[= -> ->]]; [done|]. reflexivity.
  - rewrite <- Ej. rewrite <- app_assoc. cbn [app].
    rewrite (read_fields (f :: r) START_RECORD []); [done|done|done|by left|].
    intros [= -> ->]. discriminate Ej.
Qed.

(** The records of a written file are the rows written. *)
Lemma read_render (rs : list row) :
  Forall row_ok rs ->
  records (split_lines [] (render rs)) = Some rs.
Proof.
  rewrite <- read_text_records.
  induction 1 as [|r rs Hr _ IH]; [reflexivity|].
  rewrite render_cons, read_writerow by done. by rewrite IH.
Qed.

(** ** The records of the reader can be written and read back *)

Lemma field_ok_nil : field_ok [].
Proof. unfold field_ok, field_limit. simpl. lia. Qed.

Lemma reader_ok_reset : reader_ok parse_reset.
Proof. split; [apply field_ok_nil|by apply Forall_nil]. Qed.

Lemma reader_ok_set_state (st : ParserState) (rd : Reader) :
  reader_ok rd -> reader_ok (set_state st rd).
Proof. done. Qed.

Lemma reader_ok_save_field (rd : Reader) :
  reader_ok rd -> reader_ok (parse_save_field rd).
Proof.
  intros [Hf Hr]. split; [apply field_ok_nil|].
  apply Forall_app. split; [done|]. by apply Forall_singleton.
Qed.

Lemma reader_ok_add_char (rd rd' : Reader) (c : char) :
  reader_ok rd -> parse_add_char rd c = Some rd' -> reader_ok rd'.
Proof.
  intros [Hf Hr]. unfold parse_add_char.
  destruct (field_limit <=? N.of_nat (length (field rd)))%N eqn:E; [done|].
  intros [= <-]. apply N.leb_gt in E. split; [|done].
  unfold field_ok. cbn [field]. rewrite length_app. simpl. lia.
Qed.

Lemma reader_ok_add_char_state (st : ParserState) (rd rd' : Reader) (c : char) :
  reader_ok rd -> set_state st <$> parse_add_char rd c = Some rd' -> reader_ok rd'.
Proof.
  intros Hok H. destruct (parse_add_char rd c) as [rd1|] eqn:E; [|done].
  injection H as <-. apply reader_ok_set_state. by eapply reader_ok_add_char.
Qed.

Lemma reader_ok_start_field (rd rd' : Reader) (i : input) :
  reader_ok rd -> start_field rd i = Some rd' -> reader_ok rd'.
Proof.
  intros Hok. unfold start_field. destruct i as [c|].
  - destruct (is_newline_input (Ch c)).
    { intros [= <-]. by apply reader_ok_set_state, reader_ok_save_field. }
    destruct (c =? DQUOTE)%N.
    { intros [= <-]. by apply reader_ok_set_state. }
    destruct (c =? COMMA)%N.
    { intros [= <-]. by apply reader_ok_set_state, reader_ok_save_field. }
    by apply reader_ok_add_char_state.
  - intros [= <-]. by apply reader_ok_set_state, reader_ok_save_field.
Qed.

Lemma reader_ok_process_char (rd rd' : Reader) (i : input) :
  reader_ok rd -> parse_process_char rd i = Some rd' -> reader_ok rd'.
Proof.
  intros Hok. unfold parse_process_char.
  destruct (state rd); destruct i as [c|];
    repeat match goal with
      | |- context [if ?b then _ else _] => destruct b
      end;
    try (intros [= <-]);
    try done;
    try (by apply reader_ok_set_state, reader_ok_save_field);
    try (by apply reader_ok_set_state);
    try (by apply reader_ok_start_field);
    try (by apply reader_ok_add_char);
    try (by apply reader_ok_add_char_state).
Qed.

Lemma reader_ok_process_chars (l : text) (rd rd' : Reader) :
  reader_ok rd -> process_chars rd l = Some rd' -> reader_ok rd'.
Proof.
  revert rd. induction l as [|c l IH]; intros rd Hok; simpl.
  - by intros [= <-].
  - destruct (parse_process_char rd (Ch c)) as [rd1|] eqn:E; [|done].
    apply IH. by eapply reader_ok_process_char.
Qed.

Lemma reader_ok_process_line (l : text) (rd rd' : Reader) :
  reader_ok rd -> process_line rd l = Some rd' -> reader_ok rd'.
Proof.
  intros Hok. unfold process_line.
  destruct (process_chars rd l) as [rd1|] eqn:E; [|done].
  intros H. eapply reader_ok_process_char; [|done].
  by eapply reader_ok_process_chars.
Qed.

Lemma records_from_row_ok (ls : list text) (rd : Reader) (rs : list row) :
  reader_ok rd -> records_from rd ls = Some rs -> Forall row_ok rs.
Proof.
  revert rd rs. induction ls as [|l ls IH]; intros rd rs Hok; simpl.
  - destruct (has_partial_record rd); intros [= <-]; [|by apply Forall_nil].
    apply Forall_singleton. by apply reader_ok_save_field.
  - destruct (process_line rd l) as [rd'|] eqn:E; [|done].
    pose proof (reader_ok_process_line _ _ _ Hok E) as Hok'.
    destruct (is_start_record rd').
    + destruct (records_from parse_reset ls) as [rs'|] eqn:E'; [|done].
      intros [= <-]. apply Forall_cons. split; [apply Hok'|].
      by apply (IH parse_reset rs' reader_ok_reset).
    + by apply IH.
Qed.

(** The rows the reader yields are rows the reader reads back. *)
Lemma records_row_ok (ls : list text) (rs : list row) :
  records ls = Some rs -> Forall row_ok rs.
Proof. apply records_from_row_ok, reader_ok_reset. Qed.

(** ** C1 *)

Lemma file_lines_length (nl1 nl2 : newline_mode) (d : decoded) :
  length (file_lines nl1 d) = length (file_lines nl2 d).
Proof.
  unfold file_lines. destruct nl1, nl2; by rewrite ?length_map.
Qed.

Lemma rows_le_data_rows (env : Env) (enc : encoding) (m : errors_mode)
    (header : row) (rows : list row) :
  records (pending (open_reader env enc m)) = Some (header :: rows) ->
  Z.of_nat (length rows) <= line_count env enc m - 1.
Proof.
  intros H. apply records_length in H. unfold line_count.
  rewrite (file_lines_length NewlineNone NewlineEmpty).
  change (pending (open_reader env enc m))
    with (file_lines NewlineEmpty (src env enc m)) in H.
  rewrite length_cons in H. lia.
Qed.




(** * Further properties of the engine *)

(** ** What is written can be read *)

(** X1.  The rows the CSV reader yields from any lines, written in turn by
    the CSV writer as the engine writes a part, are read back from that
    text as the same rows: quoting, doubled quotes and line breaks
    inside quoted fields survive the trip. *)
Theorem X1_written_rows_read_back (ls : list text) (rs : list row)
    (enc : encoding) :
  records ls = Some rs ->
  part_rows (MkOutFile enc (render rs)) = Some rs.
Proof.
  intros H. unfold part_rows. cbn [f_text].
  apply read_render. by apply records_row_ok in H.
Qed.

Lemma X1_written_rows_read_back_witness :
  let rs := [[str "k"; str "v"];
             [str "1"; str "x, " ++ [DQUOTE] ++ str "y" ++ [DQUOTE; CR; LF] ++ str "z"]] in
  records (split_lines [] Scenario.tricky) = Some rs /\
  part_rows (MkOutFile gbk (render rs)) = Some rs.
Proof.
  intros rs.
  assert (records (split_lines [] Scenario.tricky) = Some rs) as H
    by (vm_compute; reflexivity).
  split; [exact H|].
  exact (X1_written_rows_read_back (split_lines [] Scenario.tricky) rs gbk H).
Defined.

(** ** The names of the parts *)

(** X2.  Two parts of one run never share a file name: the name of a part
    determines its index. *)
Theorem X2_part_names_distinct (base_name : string) (i j : nat) :
  i <> j -> part_filename base_name i <> part_filename base_name j.
Proof. intros Hne Heq. by apply part_filename_inj in Heq. Qed.

Lemma X2_part_names_distinct_witness :
  part_filename "data" 0 <> part_filename "data" 10.
Proof. apply X2_part_names_distinct. lia. Defined.

Lemma split_last_dot_spec (s r e : string) :
  Scenario.split_last_dot s = Some (r, e) ->
  s = r +:+ e /\ exists e', e = String "." e'.
Proof.
  revert r e. induction s as [|a s IH]; intros r e; simpl; [done|].
  destruct (Scenario.split_last_dot s) as [[r' e']|] eqn:E.
  - intros [= <- <-]. destruct (IH r' e' eq_refl) as [-> He]. by split.
  - destruct (Ascii.eqb a ".") eqn:Ea; [|done].
    apply Ascii.eqb_eq in Ea as ->. intros [= <- <-]. split; [done|by eexists].
Qed.

Lemma string_app_empty_r (s : string) : s +:+ EmptyString = s.
Proof.
  induction s as [|a s IH]; [done|].
  change (String a (s +:+ EmptyString) = String a s). by rewrite IH.
Qed.

Lemma posix_splitext_spec (p : string) :
  p = fst (Scenario.posix_splitext p) +:+ snd (Scenario.posix_splitext p) /\
  (snd (Scenario.posix_splitext p) = EmptyString \/
   exists e', snd (Scenario.posix_splitext p) = String "." e').
Proof.
  unfold Scenario.posix_splitext.
  destruct (Scenario.split_last_dot p) as [[r e]|] eqn:E.
  - apply split_last_dot_spec in E as [-> He].
    destruct (Scenario.all_dots r); simpl.
    + split; [|by left]. symmetry. apply string_app_empty_r.
    + split; [done|by right].
  - simpl. split; [|by left]. symmetry. apply string_app_empty_r.
Qed.

(** X3.  No part is ever written under the name of the source file: the
    name of a part is the name of the source without its extension,
    followed by [_part_], a number and [.csv], and an extension is
    empty or starts with a dot.  So the source is safe also when the
    output folder is the folder it lies in. *)
Theorem X3_part_is_not_the_source (file_path : string) (i : nat) :
  let name := Scenario.posix_basename file_path in
  part_filename (fst (Scenario.posix_splitext name)) i <> name.
Proof.
  intros name Heq.
  destruct (posix_splitext_spec name) as [Hname Hext].
  assert (part_filename (fst (Scenario.posix_splitext name)) i
          = fst (Scenario.posix_splitext name)
            +:+ snd (Scenario.posix_splitext name)) as H by congruence.
  unfold part_filename in H. apply (inj (String.app _)) in H.
  destruct Hext as [He|[e' He]]; rewrite He in H; discriminate.
Qed.

(** ** What no run touches *)

Lemma only_parts_refl (base_name : string) (n : nat) (fs : gmap string OutFile) :
  only_parts base_name n fs fs.
Proof. by split. Qed.

Lemma only_parts_trans (base_name : string) (n : nat)
    (fs1 fs2 fs3 : gmap string OutFile) :
  only_parts base_name n fs1 fs2 -> only_parts base_name n fs2 fs3 ->
  only_parts base_name n fs1 fs3.
Proof.
  intros [Ha1 Hb1] [Ha2 Hb2]. split.
  - intros name Hname. rewrite Ha2 by done. by apply Ha1.
  - intros name Hs. by apply Hb2, Hb1.
Qed.

Lemma only_parts_write (base_name : string) (n k : nat)
    (fs : gmap string OutFile) (f : OutFile) :
  (k < n)%nat ->
  only_parts base_name n fs (<[part_filename base_name k := f]> fs).
Proof.
  intros Hk. split.
  - intros name Hname. specialize (Hname k Hk).
    by rewrite lookup_insert_ne.
  - intros name Hs.
    destruct (decide (part_filename base_name k = name)) as [<-|Hne].
    + rewrite lookup_insert_eq. by eexists.
    + by rewrite lookup_insert_ne.
Qed.

Lemma split_loop_only_parts (env : Env) (enc : encoding) (num_parts chunk_size : Z)
    (base_name : string) (header : row) (n i : nat) (it : LineIter) (w : World) :
  only_parts base_name (i + n) (files w)
    (files (split_loop env enc num_parts chunk_size base_name header n i it w).2).
Proof.
  revert i it w. induction n as [|n IH]; intros i it w; simpl;
    [apply only_parts_refl|].
  unfold bind at 1, islice.
  destruct (chunk_size <? 0); simpl; [apply only_parts_refl|].
  destruct (islice_next (Z.to_nat chunk_size) it) as [r it1| |e]; simpl;
    [|apply only_parts_refl..].
  unfold bind at 1, open_w.
  destruct (open_w_error env (part_filename base_name i)); simpl;
    [apply only_parts_refl|].
  unfold bind at 1, write at 1. simpl.
  unfold bind at 1, write at 1. simpl.
  unfold bind at 1.
  match goal with |- context [writerows ?a ?b ?c ?d] =>
    destruct (writerows_files a b c d) as [t Ht];
    destruct (writerows a b c d) as [[it2|e] w2] end; simpl in *.
  - unfold bind at 1, log_callback at 1. simpl.
    eapply only_parts_trans; [|replace (i + S n)%nat with (S i + n)%nat by lia; apply IH].
    simpl. rewrite Ht, !alter_insert_eq.
    apply only_parts_write. lia.
  - rewrite Ht, !alter_insert_eq.
    apply only_parts_write. lia.
Qed.

Lemma process_splitting_only_parts (env : Env) (enc : encoding)
    (num_parts chunk_size : Z) (base_name : string) (m : errors_mode) (w : World) :
  only_parts base_name (Z.to_nat num_parts) (files w)
    (files (process_splitting env enc num_parts chunk_size base_name m w).2).
Proof.
  unfold process_splitting.
  destruct (reader_next _) as [header it1| |e]; simpl;
    [|apply only_parts_refl..].
  apply (split_loop_only_parts _ _ _ _ _ _ _ 0).
Qed.

Lemma split_stage_only_parts (env : Env) (enc : encoding)
    (num_parts chunk_size : Z) (base_name : string) (w : World) :
  only_parts base_name (Z.to_nat num_parts) (files w)
    (files (split_stage env enc num_parts chunk_size base_name w).2).
Proof.
  unfold split_stage, try_except.
  pose proof (process_splitting_only_parts env enc num_parts chunk_size
                base_name Strict w) as H1.
  destruct (process_splitting env enc num_parts chunk_size base_name Strict w)
    as [[[]|e] w1]; simpl in *; [done|].
  unfold bind, log_callback. simpl.
  eapply only_parts_trans; [exact H1|].
  apply (process_splitting_only_parts env enc num_parts chunk_size base_name
           Ignore (MkWorld (dir_exists w1) (files w1) (log w1 ++ [EvSplitRetry e])
                     (busy w1))).
Qed.

(** The folder after the body is the folder before it, or the folder
    the splitting stage leaves when started on the folder before it. *)
Lemma split_body_files_cases (env : Env) (file_path : string) (num_parts : Z)
    (output_folder : string) (w : World) :
  sat (split_body env file_path num_parts output_folder) w
    (fun _ w1 =>
       files w1 = files w \/
       exists enc chunk_size w4,
         files w4 = files w /\
         files w1 =
           files (split_stage env enc num_parts chunk_size
                    (fst (splitext env (basename env file_path))) w4).2).
Proof.
  unfold split_body.
  step_with sat_bind. step_with sat_bind. step_with sat_bind.
  match goal with |- sat (bind _ ?k) _ _ => set (rest := k) end.
  assert (forall w0, files w0 = files w ->
            sat (rest tt) w0
              (fun _ w1 =>
                 files w1 = files w \/
                 exists enc chunk_size w4,
                   files w4 = files w /\
                   files w1 =
                     files (split_stage env enc num_parts chunk_size
                              (fst (splitext env (basename env file_path))) w4).2))
    as Hrest.
  { intros w0 Hf0. subst rest. cbv beta.
    step_with sat_bind. apply sat_bind. unfold sat at 1, lift. simpl.
    destruct (detect_encoding (src env)) as [enc|e] eqn:Hdet; [|by left].
    step_with sat_bind. step_with sat_bind. apply sat_bind. unfold sat at 1.
    match goal with |- context [count_stage env enc ?w2] =>
      destruct (count_stage_calm env enc w2) as [_ Hf3];
      destruct (count_stage env enc w2) as [[total|e] w3] end;
      cbn [fst snd files] in *; [|left; congruence].
    destruct (total - 1 <=? 0).
    { step_with sat_bind. unfold sat, progress_callback. cbn [fst snd files].
      left. congruence. }
    apply sat_bind. unfold sat at 1, math_ceil.
    destruct (num_parts =? 0); cbn [fst snd files ret raise]; [left; congruence|].
    step_with sat_bind. apply sat_bind. unfold sat at 1.
    match goal with |- context [split_stage env enc ?a ?b ?c ?w4] =>
      assert (files w4 = files w) as Hf4 by (cbn [files]; congruence);
      destruct (split_stage env enc a b c w4) as [[[]|e] w5] eqn:E5 end;
      cbn [fst snd files].
    - unfold sat, log_callback. cbn [fst snd files]. right.
      eexists _, _, _. split; [exact Hf4|]. by rewrite E5.
    - right. eexists _, _, _. split; [exact Hf4|]. by rewrite E5. }
  apply sat_bind. unfold sat at 1.
  destruct (dir_exists w) eqn:Ed; simpl.
  - by apply Hrest.
  - unfold bind, makedirs, log_callback.
    destruct (makedirs_error env) as [e|]; simpl; [by left|by apply Hrest].
Qed.

(** X4.  Whatever happens in a run, also when it fails half way, the only
    files of the output folder that can differ afterwards are those
    named as the parts 1 to [num_parts] of this source; every other
    file is as it was, and no file is removed. *)
Theorem X4_only_parts_are_touched (env : Env) (file_path : string)
    (num_parts : Z) (output_folder : string) (w : World) :
  let base_name := fst (splitext env (basename env file_path)) in
  let final := run env file_path num_parts output_folder w in
  (forall name,
     (forall k, (k < Z.to_nat num_parts)%nat ->
                name <> part_filename base_name k) ->
     files final.2 !! name = files w !! name) /\
  (forall name, is_Some (files w !! name) -> is_Some (files final.2 !! name)).
Proof.
  intros base_name final. subst final. rewrite run_unfold.
  pose proof (split_body_files_cases env file_path num_parts output_folder w) as H.
  unfold sat in H.
  destruct (split_body env file_path num_parts output_folder w) as [[[]|e] w1];
    cbn [fst snd files] in *.
  all: change (only_parts base_name (Z.to_nat num_parts) (files w) (files w1)).
  all: destruct H as [->|(enc & cs & w4 & Hf4 & ->)];
         [apply only_parts_refl|rewrite <- Hf4; apply split_stage_only_parts].
Qed.

(** ** Edge behaviour of the planner and of the detector *)

(** X5.  When the detector raises, as it does on a file that cannot be
    opened, the run ends there: the exception is logged as the one
    error message, right after the message that announces the
    detection, and no file is written.  The output folder has been
    created by then if it was missing. *)
Theorem X5_unreadable_source (env : Env) (file_path : string) (num_parts : Z)
    (output_folder : string) (w : World) (e : exn) :
  dir_exists w = true \/ makedirs_error env = None ->
  detect_encoding (src env) = Raise e ->
  run env file_path num_parts output_folder w =
    (Ok tt,
     MkWorld true (files w)
       (log w ++ EvStart (basename env file_path)
              :: (if dir_exists w then [] else [EvMkdir output_folder])
              ++ [EvDetecting; EvUnexpected e])
       (busy w ++ [true; false])).
Proof.
  intros Hdir Hdet.
  unfold run, split_csv_logic, try_finally, try_except, split_body.
  unfold bind at 1 2 3 4, log_callback at 1, progress_callback at 1, path_exists.
  cbn [fst snd dir_exists files log busy].
  destruct (dir_exists w) eqn:Ed.
  - unfold ret at 1, bind at 1, log_callback at 1, bind at 1, lift.
    cbn [fst snd dir_exists files log busy]. rewrite Hdet.
    unfold log_callback, progress_callback.
    cbn [fst snd dir_exists files log busy].
    by rewrite <- !app_assoc.
  - destruct Hdir as [Hd|Hm]; [done|].
    unfold bind at 1, makedirs. rewrite Hm.
    unfold log_callback at 1, bind at 1, log_callback at 1, bind at 1, lift.
    cbn [fst snd dir_exists files log busy]. rewrite Hdet.
    unfold log_callback, progress_callback.
    cbn [fst snd dir_exists files log busy].
    by rewrite <- !app_assoc.
Qed.

Lemma X5_unreadable_source_witness :
  run Scenario.missing "in/data.csv" 3 "out" Scenario.fresh =
    (Ok tt,
     MkWorld true ∅
       [EvStart "data.csv"; EvMkdir "out"; EvDetecting; EvUnexpected OSError]
       [true; false]).
Proof.
  apply (X5_unreadable_source Scenario.missing "in/data.csv" 3 "out"
           Scenario.fresh OSError).
  - right. reflexivity.
  - vm_compute. reflexivity.
Defined.

(** X6.  With [num_parts = 0] and a file that holds data rows, the division
    of the planner raises [ZeroDivisionError]: it is logged as the one
    error message of the run, before any plan is announced, and no
    file is written. *)
Theorem X6_zero_parts (env : Env) (file_path : string)
    (output_folder : string) (w : World) (enc : encoding) (total : Z) :
  dir_exists w = true \/ makedirs_error env = None ->
  detect_encoding (src env) = Ok enc ->
  counted_lines env enc = Some total ->
  1 < total ->
  run env file_path 0 output_folder w =
    (Ok tt,
     MkWorld true (files w)
       (log w ++ start_events env file_path output_folder (dir_exists w) enc
              ++ count_events env enc ++ [EvUnexpected ZeroDivisionError])
       (busy w ++ [true; false])).
Proof.
  intros Hdir Hdet Hcount Htotal.
  rewrite run_unfold, (split_body_counted _ _ _ _ _ enc total) by done.
  destruct (total - 1 <=? 0) eqn:Hle; [lia|].
  unfold bind at 1, math_ceil. cbn [Z.eqb raise fst snd files log busy dir_exists].
  by rewrite <- !app_assoc.
Qed.

Lemma X6_zero_parts_witness :
  run (Scenario.plain (Scenario.table 10)) "in/data.csv" 0 "out" Scenario.fresh =
    (Ok tt,
     MkWorld true ∅
       [EvStart "data.csv"; EvMkdir "out"; EvDetecting; EvDetected utf_8_sig;
        EvCounting; EvUnexpected ZeroDivisionError]
       [true; false]).
Proof.
  apply (X6_zero_parts (Scenario.plain (Scenario.table 10)) "in/data.csv" "out"
           Scenario.fresh utf_8_sig 11).
  - right. reflexivity.
  - vm_compute. reflexivity.
  - vm_compute. reflexivity.
  - lia.
Defined.

(** X7.  With a negative [num_parts] and a file that holds data rows, the
    planner arrives at a chunk size that is not positive, the loop
    over [range(num_parts)] has no index to run on, and the run ends
    on its success message although no part was written. *)
Theorem X7_negative_parts (env : Env) (file_path : string) (num_parts : Z)
    (output_folder : string) (w : World) (enc : encoding) (total : Z)
    (header : row) (reader1 : LineIter) :
  dir_exists w = true \/ makedirs_error env = None ->
  detect_encoding (src env) = Ok enc ->
  counted_lines env enc = Some total ->
  1 < total ->
  num_parts < 0 ->
  reader_next (open_reader env enc Strict) = Yield header reader1 ->
  ceil_div (total - 1) num_parts <= 0 /\
  run env file_path num_parts output_folder w =
    (Ok tt,
     MkWorld true (files w)
       (log w ++ start_events env file_path output_folder (dir_exists w) enc
              ++ count_events env enc
              ++ [EvPlan (total - 1) num_parts (ceil_div (total - 1) num_parts);
                  EvDone output_folder])
       (busy w ++ [true; false])).
Proof.
  intros Hdir Hdet Hcount Htotal Hneg Hhead. split.
  - unfold ceil_div.
    assert (0 <= (- (total - 1)) / num_parts); [|lia].
    replace num_parts with (- (- num_parts)) by lia.
    rewrite Z.div_opp_opp by lia. apply Z.div_pos; lia.
  - rewrite (run_split _ _ _ _ _ enc total) by (done || lia).
    rewrite float_ceil_exact by (apply underflows_negative; lia).
    unfold split_stage, try_except, process_splitting.
    change (MkLineIter (file_lines NewlineEmpty (src env enc Strict))
              (d_error (src env enc Strict)))
      with (open_reader env enc Strict).
    rewrite Hhead.
    replace (Z.to_nat num_parts) with 0%nat by lia.
    cbn [split_loop ret fst snd files log busy dir_exists].
    by rewrite <- !app_assoc.
Qed.

Lemma X7_negative_parts_witness :
  run (Scenario.plain (Scenario.table 10)) "in/data.csv" (-3) "out" Scenario.fresh =
    (Ok tt,
     MkWorld true ∅
       [EvStart "data.csv"; EvMkdir "out"; EvDetecting; EvDetected utf_8_sig;
        EvCounting; EvPlan 10 (-3) (-3); EvDone "out"]
       [true; false]).
Proof.
  refine (proj2 (X7_negative_parts (Scenario.plain (Scenario.table 10))
                   "in/data.csv" (-3) "out" Scenario.fresh utf_8_sig 11
                   Scenario.table_header
                   (MkLineIter (map Scenario.data_line (seq 1 10)) None)
                   _ _ _ _ _ _)).
  - right. reflexivity.
  - vm_compute. reflexivity.
  - vm_compute. reflexivity.
  - lia.
  - lia.
  - vm_compute. reflexivity.
Defined.

(** X8.  Every run ends on a verdict, and on one only: its last message is
    the success message, after no error message, or it is an error
    message, the only one of the run.  The messages that were in the
    log before the run are kept. *)
Theorem X8_one_verdict (env : Env) (file_path : string) (num_parts : Z)
    (output_folder : string) (w : World) :
  let final := (run env file_path num_parts output_folder w).2 in
  let evs := new_events w final in
  log final = log w ++ evs /\
  ((last evs = Some (EvDone output_folder) /\ count_errors evs = 0%nat) \/
   (exists ev, last evs = Some ev /\ level ev = Error /\
               count_errors evs = 1%nat)).
Proof.
  intros final evs. subst evs final. rewrite run_unfold.
  pose proof (split_body_outcome env file_path num_parts output_folder w) as H.
  unfold sat, body_post in H.
  destruct (split_body env file_path num_parts output_folder w) as [[[]|e] w1];
    cbn [fst snd log] in *; destruct H as (evs & Hl & H).
  - rewrite (new_events_app _ _ evs) by done. split; [done|].
    destruct H as [(_ & evs0 & -> & Hn)|(_ & _ & evs0 & -> & Hn)].
    + left. rewrite last_snoc, count_errors_app, count_errors_no_error by done.
      done.
    + right. exists EvNoData.
      rewrite last_snoc, count_errors_app, count_errors_no_error by done.
      done.
  - destruct H as (_ & Hn).
    rewrite (new_events_app _ _ (evs ++ [EvUnexpected e]))
      by (cbn [log]; by rewrite Hl, app_assoc).
    split; [cbn [log]; by rewrite Hl, app_assoc|].
    right. exists (EvUnexpected e).
    rewrite last_snoc, count_errors_app, count_errors_no_error by done.
    done.
Qed.

(** ** The sizes and the number of the parts *)

(** X9.  In a run where the source decodes and nothing fails, no part is
    empty and none holds more than [chunk_size] data rows: every part
    but the last one written holds exactly [chunk_size] of them, the
    last one holds the rest.  The rows are those the CSV reader reads
    back from the part, after the header.  (The counted rows are below
    2^53 and [num_parts] is not so large that the quotient of the
    planner underflows.) *)
Theorem X9_part_sizes (env : Env) (file_path : string)
    (num_parts : Z) (output_folder : string) (w : World) (enc : encoding)
    (header : row) (rows : list row) (j : nat) :
  let data_rows := line_count env enc Strict - 1 in
  let chunk_size := Z.to_nat (ceil_div data_rows num_parts) in
  let base_name := fst (splitext env (basename env file_path)) in
  let w' := (run env file_path num_parts output_folder w).2 in
  let produced := parts_needed chunk_size (length rows) in
  dir_exists w = true \/ makedirs_error env = None ->
  (forall name, open_w_error env name = None) ->
  detect_encoding (src env) = Ok enc ->
  d_error (src env enc Strict) = None ->
  records (pending (open_reader env enc Strict)) = Some (header :: rows) ->
  0 < data_rows < 2 ^ 53 ->
  0 < num_parts < data_rows * 2 ^ 1075 ->
  (j < produced)%nat ->
  exists f body,
    files w' !! part_filename base_name j = Some f /\
    part_rows f = Some (header :: body) /\
    (1 <= length body <= chunk_size)%nat /\
    ((S j < produced)%nat -> length body = chunk_size) /\
    (S j = produced ->
     length body = (length rows - j * chunk_size)%nat).
Proof.
  intros data_rows chunk_size base_name w' produced
    Hdir Hopen Hdet Hdec Hrec [Hrows _] [Hnp Hsmall] Hj.
  pose proof (rows_le_data_rows _ _ _ _ _ Hrec) as Hle. fold data_rows in Hle.
  pose proof (ceil_div_bounds data_rows num_parts Hnp) as [_ Hup].
  pose proof (ceil_div_pos data_rows num_parts Hnp Hrows) as Hcs.
  assert (0 < chunk_size)%nat as Hcs' by (unfold chunk_size; lia).
  assert (length rows <= Z.to_nat num_parts * chunk_size)%nat as Hfit
    by (unfold chunk_size; nia).
  assert (produced <= Z.to_nat num_parts)%nat as Hprod
    by (by apply parts_needed_least).
  pose proof (parts_needed_bounds chunk_size (length rows) Hcs') as [Hlow Hhigh].
  fold produced in Hlow, Hhigh.
  assert ((produced - 1) * chunk_size < length rows)%nat as Hlow'.
  { destruct Hlow as [Hlow|Hz]; [done|].
    unfold produced in Hj. rewrite Hz, parts_needed_0 in Hj. lia. }
  pose proof (records_row_ok _ _ Hrec) as Hrows_ok.
  apply Forall_cons in Hrows_ok as [Hheader_ok Hrows_ok].
  subst w'. unfold data_rows, chunk_size, base_name.
  erewrite run_ok by done. cbn [snd files].
  fold data_rows. fold chunk_size. fold base_name.
  exists (MkOutFile enc
            (render (header :: take chunk_size (drop (j * chunk_size) rows)))),
         (take chunk_size (drop (j * chunk_size) rows)).
  assert (j * chunk_size < length rows)%nat as Hjlen by nia.
  split; [|split; [|split; [|split]]].
  - apply (write_parts_lookup _ _ _ _ _ 0); lia.
  - unfold part_rows. cbn [f_text]. apply read_render.
    apply Forall_cons. split; [done|].
    by apply Forall_take, Forall_drop.
  - rewrite length_take, length_drop. lia.
  - intros Hnext. rewrite length_take, length_drop. nia.
  - intros Hlast. rewrite length_take, length_drop.
    assert (length rows <= S j * chunk_size)%nat by (rewrite Hlast; done).
    lia.
Qed.

Lemma X9_part_sizes_witness :
  let w' := (run (Scenario.plain (Scenario.table 10)) "in/data.csv" 3 "out"
               Scenario.fresh).2 in
  exists f body,
    files w' !! part_filename "data" 2 = Some f /\
    part_rows f = Some (Scenario.table_header :: body) /\
    (1 <= length body <= 4)%nat /\
    ((3 < 3)%nat -> length body = 4%nat) /\
    (3%nat = 3%nat -> length body = (10 - 2 * 4)%nat).
Proof.
  apply (X9_part_sizes (Scenario.plain (Scenario.table 10)) "in/data.csv" 3 "out"
           Scenario.fresh utf_8_sig Scenario.table_header
           (Scenario.table_rows 10) 2).
  - by right.
  - done.
  - reflexivity.
  - reflexivity.
  - vm_compute. reflexivity.
  - split; vm_compute; reflexivity.
  - split; vm_compute; reflexivity.
  - vm_compute. lia.
Defined.

(** X10.  In a run where the source decodes and nothing fails, when the data
    records do not fit in [num_parts - 1] chunks, all the [num_parts]
    parts are written, each is announced once and in index order, no
    early end is logged, and the run ends on its success message. *)
Theorem X10_all_parts_written (env : Env) (file_path : string)
    (num_parts : Z) (output_folder : string) (w : World) (enc : encoding)
    (header : row) (rows : list row) :
  let data_rows := line_count env enc Strict - 1 in
  let chunk_size := Z.to_nat (ceil_div data_rows num_parts) in
  let base_name := fst (splitext env (basename env file_path)) in
  let final := run env file_path num_parts output_folder w in
  dir_exists w = true \/ makedirs_error env = None ->
  (forall name, open_w_error env name = None) ->
  detect_encoding (src env) = Ok enc ->
  d_error (src env enc Strict) = None ->
  records (pending (open_reader env enc Strict)) = Some (header :: rows) ->
  0 < data_rows ->
  0 < num_parts ->
  ((Z.to_nat num_parts - 1) * chunk_size < length rows)%nat ->
  parts_needed chunk_size (length rows) = Z.to_nat num_parts /\
  new_events w final.2 =
    start_events env file_path output_folder (dir_exists w) enc
    ++ EvPlan data_rows num_parts (ceil_div data_rows num_parts)
    :: map (fun j => EvPart (j + 1) num_parts (part_filename base_name j))
         (seq 0 (Z.to_nat num_parts))
    ++ [EvDone output_folder] /\
  (forall j, (j < Z.to_nat num_parts)%nat ->
     files final.2 !! part_filename base_name j =
       Some (MkOutFile enc
               (render (header :: take chunk_size (drop (j * chunk_size) rows))))).
Proof.
  intros data_rows chunk_size base_name final
    Hdir Hopen Hdet Hdec Hrec Hrows Hnp Hfull.
  pose proof (rows_le_data_rows _ _ _ _ _ Hrec) as Hle. fold data_rows in Hle.
  pose proof (ceil_div_bounds data_rows num_parts Hnp) as [_ Hup].
  pose proof (ceil_div_pos data_rows num_parts Hnp Hrows) as Hcs.
  assert (0 < chunk_size)%nat as Hcs' by (unfold chunk_size; lia).
  assert (length rows <= Z.to_nat num_parts * chunk_size)%nat as Hfit
    by (unfold chunk_size; nia).
  pose proof (parts_needed_bounds chunk_size (length rows) Hcs') as [Hlow Hhigh].
  assert (parts_needed chunk_size (length rows) = Z.to_nat num_parts) as Hall.
  { apply Nat.le_antisymm; [by apply parts_needed_least|].
    apply Nat.nlt_ge. intros Hlt.
    assert (parts_needed chunk_size (length rows) * chunk_size
            <= (Z.to_nat num_parts - 1) * chunk_size)%nat
      by (apply Nat.mul_le_mono_r; lia).
    lia. }
  split; [done|].
  assert (num_parts < data_rows * 2 ^ 1075) as Hsmall.
  { apply parts_within_rows; [done|]. unfold chunk_size in *. nia. }
  subst final. unfold data_rows, chunk_size, base_name.
  erewrite run_ok by done. cbn [snd files log].
  fold data_rows. fold chunk_size. fold base_name.
  split.
  - erewrite new_events_app; [|reflexivity].
    rewrite part_events_full by done.
    do 2 f_equal.
  - intros j Hj. apply (write_parts_lookup _ _ _ _ _ 0); [done|nia].
Qed.

Lemma X10_all_parts_written_witness :
  let final := run (Scenario.plain (Scenario.table 10)) "in/data.csv" 3 "out"
                 Scenario.fresh in
  parts_needed 4 10 = 3%nat /\
  new_events Scenario.fresh final.2 =
    [EvStart "data.csv"; EvMkdir "out"; EvDetecting; EvDetected utf_8_sig;
     EvCounting; EvPlan 10 3 4;
     EvPart 1 3 "data_part_1.csv"; EvPart 2 3 "data_part_2.csv";
     EvPart 3 3 "data_part_3.csv"; EvDone "out"] /\
  is_Some (files final.2 !! "data_part_3.csv"%string).
Proof.
  destruct (X10_all_parts_written
              (Scenario.plain (Scenario.table 10)) "in/data.csv" 3 "out"
              Scenario.fresh utf_8_sig Scenario.table_header
              (Scenario.table_rows 10))
    as (Hn & Hev & Hfiles).
  - by right.
  - done.
  - reflexivity.
  - reflexivity.
  - vm_compute. reflexivity.
  - vm_compute. reflexivity.
  - lia.
  - vm_compute. lia.
  - split; [exact Hn|]. split; [exact Hev|].
    exact (mk_is_Some _ _ (Hfiles 2%nat ltac:(vm_compute; lia))).
Defined.

(** ** Running again *)

Lemma uniformly_pure {A} (m : M A) (r : result A) :
  (forall w, m w = (r, w)) -> uniformly m.
Proof.
  intros H. exists r, ∅, [], []. intros w.
  by rewrite H, (left_id_L ∅ (∪)), !app_nil_r, world_eta.
Qed.

Lemma uniformly_bind {A B} (m : M A) (k : A -> M B) :
  uniformly m -> (forall a, uniformly (k a)) -> uniformly (bind m k).
Proof.
  intros (r1 & d1 & e1 & b1 & H1) Hk. destruct r1 as [a|e].
  - destruct (Hk a) as (r2 & d2 & e2 & b2 & H2).
    exists r2, (d2 ∪ d1), (e1 ++ e2), (b1 ++ b2). intros w.
    unfold bind. rewrite H1, H2. cbn [dir_exists files log busy].
    by rewrite (assoc_L (∪)), !app_assoc.
  - exists (Raise e), d1, e1, b1. intros w. unfold bind. by rewrite H1.
Qed.

Lemma uniformly_try_except {A} (m : M A) (h : exn -> M A) :
  uniformly m -> (forall e, uniformly (h e)) -> uniformly (try_except m h).
Proof.
  intros (r1 & d1 & e1 & b1 & H1) Hh. destruct r1 as [a|e].
  - exists (Ok a), d1, e1, b1. intros w. unfold try_except. by rewrite H1.
  - destruct (Hh e) as (r2 & d2 & e2 & b2 & H2).
    exists r2, (d2 ∪ d1), (e1 ++ e2), (b1 ++ b2). intros w.
    unfold try_except. rewrite H1, H2. cbn [dir_exists files log busy].
    by rewrite (assoc_L (∪)), !app_assoc.
Qed.

Lemma uniformly_log (ev : Event) : uniformly (log_callback ev).
Proof.
  exists (Ok tt), ∅, [ev], []. intros w. unfold log_callback.
  by rewrite (left_id_L ∅ (∪)), app_nil_r.
Qed.

Lemma uniformly_progress (b : bool) : uniformly (progress_callback b).
Proof.
  exists (Ok tt), ∅, [], [b]. intros w. unfold progress_callback.
  by rewrite (left_id_L ∅ (∪)), app_nil_r.
Qed.

Lemma writerows_uniform (name : string) (k : nat) (it : LineIter) :
  exists (r : result LineIter) (t : text),
    forall w,
      writerows name k it w =
        (r, MkWorld (dir_exists w) (alter (append_text t) name (files w))
              (log w) (busy w)).
Proof.
  revert it. induction k as [|k IH]; intros it; simpl.
  - exists (Ok it), []. intros w. by rewrite alter_append_nil, world_eta.
  - destruct (reader_next it) as [r it'| |e].
    + destruct (IH it') as (r' & t & H).
      exists r', (writerow r ++ t). intros w.
      unfold bind, write at 1. rewrite H. cbn [dir_exists files log busy].
      by rewrite alter_append_app.
    + exists (Ok it), []. intros w. by rewrite alter_append_nil, world_eta.
    + exists (Raise e), []. intros w. by rewrite alter_append_nil, world_eta.
Qed.

Lemma split_loop_uniform (env : Env) (enc : encoding) (num_parts chunk_size : Z)
    (base_name : string) (header : row) (n i : nat) (it : LineIter) :
  uniformly (split_loop env enc num_parts chunk_size base_name header n i it).
Proof.
  revert i it. induction n as [|n IH]; intros i it; cbn [split_loop].
  { by apply (uniformly_pure _ (Ok tt)). }
  apply uniformly_bind.
  { unfold islice. destruct (chunk_size <? 0).
    - by apply (uniformly_pure _ (Raise ValueError)).
    - by apply (uniformly_pure _ (Ok (Z.to_nat chunk_size))). }
  intros k. destruct (islice_next k it) as [first_row it1| |e].
  - destruct (writerows_uniform (part_filename base_name i) (k - 1) it1)
      as (r & t & Hw).
    destruct (open_w_error env (part_filename base_name i)) as [e|] eqn:Eo.
    { apply (uniformly_pure _ (Raise e)). intros w.
      unfold bind, open_w. by rewrite Eo. }
    set (f := MkOutFile enc (writerow header ++ writerow first_row ++ t)).
    assert (forall w,
              alter (append_text t) (part_filename base_name i)
                (alter (append_text (writerow first_row)) (part_filename base_name i)
                   (alter (append_text (writerow header)) (part_filename base_name i)
                      (<[part_filename base_name i := MkOutFile enc []]> (files w))))
              = {[part_filename base_name i := f]} ∪ files w) as Hfiles.
    { intros w. rewrite !alter_insert_eq, insert_union_singleton_l.
      unfold append_text. cbn [f_encoding f_text app]. subst f.
      by rewrite <- app_assoc. }
    destruct r as [it2|e].
    + destruct (IH (S i) it2) as (r2 & d2 & e2 & b2 & H2).
      exists r2, (d2 ∪ {[part_filename base_name i := f]}),
             (EvPart (i + 1) num_parts (part_filename base_name i) :: e2), b2.
      intros w. unfold bind at 1, open_w. rewrite Eo.
      unfold bind at 1, write at 1. unfold bind at 1, write at 1.
      unfold bind at 1. rewrite Hw. cbn [dir_exists files log busy].
      unfold bind at 1, log_callback at 1. rewrite H2.
      cbn [dir_exists files log busy].
      by rewrite Hfiles, (assoc_L (∪)), <- app_assoc.
    + exists (Raise e), {[part_filename base_name i := f]}, [], [].
      intros w. unfold bind at 1, open_w. rewrite Eo.
      unfold bind at 1, write at 1. unfold bind at 1, write at 1.
      unfold bind at 1. rewrite Hw. cbn [dir_exists files log busy].
      by rewrite Hfiles, !app_nil_r.
  - apply uniformly_log.
  - by apply (uniformly_pure _ (Raise e)).
Qed.

Lemma process_splitting_uniform (env : Env) (enc : encoding)
    (num_parts chunk_size : Z) (base_name : string) (m : errors_mode) :
  uniformly (process_splitting env enc num_parts chunk_size base_name m).
Proof.
  unfold process_splitting. destruct (reader_next _) as [header it1| |e].
  - apply split_loop_uniform.
  - by apply (uniformly_pure _ (Ok tt)).
  - by apply (uniformly_pure _ (Raise e)).
Qed.

Lemma count_lines_uniform (env : Env) (enc : encoding) (m : errors_mode) :
  uniformly (count_lines env enc m).
Proof.
  unfold count_lines. destruct (d_error (src env enc m)) as [e|].
  - by apply (uniformly_pure _ (Raise e)).
  - by apply (uniformly_pure _ (Ok (Z.of_nat (length (file_lines NewlineNone
                                                       (src env enc m)))))).
Qed.

(** The body from the detection on does the same in every world; up to
    there, it depends on the world only for the output folder, which
    it creates when it is missing. *)
Lemma split_body_uniform (env : Env) (file_path : string) (num_parts : Z)
    (output_folder : string) :
  exists (r : result unit) (delta : gmap string OutFile)
         (evs : list Event) (bs : list bool),
    forall w,
      dir_exists w = true \/ makedirs_error env = None ->
      split_body env file_path num_parts output_folder w =
        (r, MkWorld true (delta ∪ files w)
              (log w ++ EvStart (basename env file_path)
                     :: (if dir_exists w then [] else [EvMkdir output_folder])
                     ++ evs)
              (busy w ++ true :: bs)).
Proof.
  unfold split_body.
  match goal with |- context [bind (log_callback EvDetecting) ?k] =>
    assert (uniformly (bind (log_callback EvDetecting) k))
      as (r & delta & evs & bs & Hu);
    [|set (tail := bind (log_callback EvDetecting) k) in *]
  end.
  { apply uniformly_bind; [apply uniformly_log|intros _].
    apply uniformly_bind.
    { unfold lift. by eapply uniformly_pure. }
    intros enc.
    apply uniformly_bind; [apply uniformly_log|intros _].
    apply uniformly_bind; [apply uniformly_log|intros _].
    apply uniformly_bind.
    { unfold count_stage. apply uniformly_try_except;
        [apply count_lines_uniform|intros _].
      apply uniformly_bind; [apply uniformly_log|intros _].
      apply count_lines_uniform. }
    intros total. destruct (total - 1 <=? 0).
    { apply uniformly_bind; [apply uniformly_log|intros _].
      apply uniformly_progress. }
    apply uniformly_bind.
    { unfold math_ceil. destruct (num_parts =? 0); by eapply uniformly_pure. }
    intros chunk_size.
    apply uniformly_bind; [apply uniformly_log|intros _].
    apply uniformly_bind; [|intros _; apply uniformly_log].
    unfold split_stage. apply uniformly_try_except;
      [apply process_splitting_uniform|intros e].
    apply uniformly_bind; [apply uniformly_log|intros _].
    apply process_splitting_uniform. }
  exists r, delta, evs, bs. intros w Hdir.
  unfold bind at 1, log_callback at 1.
  unfold bind at 1, progress_callback at 1.
  unfold bind at 1, path_exists. cbn [dir_exists files log busy].
  destruct (dir_exists w) eqn:Ed.
  - unfold bind at 1, ret at 1. rewrite Hu. cbn [dir_exists files log busy].
    by rewrite <- !app_assoc.
  - destruct Hdir as [Hd|Hm]; [done|].
    unfold bind at 1 2, makedirs, log_callback at 1. rewrite Hm.
    cbn [dir_exists files log busy]. rewrite Hu.
    cbn [dir_exists files log busy].
    by rewrite <- !app_assoc.
Qed.

Lemma split_body_no_folder (env : Env) (file_path : string) (num_parts : Z)
    (output_folder : string) (w : World) (e : exn) :
  dir_exists w = false -> makedirs_error env = Some e ->
  split_body env file_path num_parts output_folder w =
    (Raise e, MkWorld false (files w)
                (log w ++ [EvStart (basename env file_path)]) (busy w ++ [true])).
Proof.
  intros Hd Hm. unfold split_body.
  unfold bind at 1, log_callback at 1.
  unfold bind at 1, progress_callback at 1.
  unfold bind at 1, path_exists. cbn [dir_exists files log busy]. rewrite Hd.
  unfold bind at 1 2, makedirs. by rewrite Hm.
Qed.

(** X11.  A run again with the same arguments, on the folder as the first
    run left it, leaves every file of the folder as the first run left
    it: the parts are written anew with the same contents, and nothing
    else is touched. *)
Theorem X11_run_again (env : Env) (file_path : string) (num_parts : Z)
    (output_folder : string) (w : World) :
  let first := run env file_path num_parts output_folder w in
  let second := run env file_path num_parts output_folder first.2 in
  files second.2 = files first.2.
Proof.
  intros first second. subst second first.
  destruct (split_body_uniform env file_path num_parts output_folder)
    as (r & delta & evs & bs & Hu).
  destruct (dir_exists w) eqn:Ed; [|destruct (makedirs_error env) as [e|] eqn:Em].
  - rewrite (run_unfold _ _ _ _ w), (Hu w) by (by left).
    destruct r as [[]|e]; cbn [snd files];
      rewrite run_unfold, Hu by (by left);
      cbn [snd files]; by rewrite (assoc_L (∪)), (idemp_L (∪)).
  - rewrite (run_unfold _ _ _ _ w),
      (split_body_no_folder _ _ _ _ _ e) by done.
    cbn [snd]. rewrite run_unfold, (split_body_no_folder _ _ _ _ _ e) by done.
    done.
  - rewrite (run_unfold _ _ _ _ w), (Hu w) by (by right).
    destruct r as [[]|e]; cbn [snd files];
      rewrite run_unfold, Hu by (by left);
      cbn [snd files]; by rewrite (assoc_L (∪)), (idemp_L (∪)).
Qed.

(** ** A part that cannot be opened *)

Lemma split_loop_open_fails (env : Env) (enc : encoding)
    (num_parts chunk_size : Z) (base_name : string) (header : row) (e : exn)
    (k n i : nat) (it : LineIter) (rows : list row) (w : World) :
  0 < chunk_size ->
  (forall j, (i <= j < i + k)%nat ->
             open_w_error env (part_filename base_name j) = None) ->
  open_w_error env (part_filename base_name (i + k)) = Some e ->
  (k < n)%nat ->
  (k * Z.to_nat chunk_size < length rows)%nat ->
  failure it = None ->
  records (pending it) = Some rows ->
  split_loop env enc num_parts chunk_size base_name header n i it w =
    (Raise e,
     MkWorld (dir_exists w)
       (write_parts enc base_name header (Z.to_nat chunk_size) k i rows (files w))
       (log w ++ part_events base_name num_parts (Z.to_nat chunk_size) k i rows)
       (busy w)).
Proof.
  intros Hcs. revert n i it rows w.
  induction k as [|k IH]; intros n i it rows w Hopen Hfail Hn Hlen Hf Hr;
    (destruct n as [|n]; [lia|]);
    cbn [split_loop]; unfold bind at 1, islice;
    (destruct (chunk_size <? 0) eqn:Hneg; [lia|]); unfold ret at 1;
    assert (0 < Z.to_nat chunk_size)%nat as Hk by lia;
    unfold islice_next;
    (destruct (Z.to_nat chunk_size) as [|k'] eqn:Ek; [lia|]);
    rewrite <- Ek in *; clear Ek k';
    pose proof (reader_next_records it rows Hf Hr) as Hnext;
    (destruct rows as [|r rs]; [simpl in Hlen; lia|]);
    destruct Hnext as (it1 & -> & Hf1 & Hr1).
  - unfold bind, open_w. rewrite Nat.add_0_r in Hfail. rewrite Hfail.
    cbn [write_parts part_events]. by rewrite app_nil_r, world_eta.
  - unfold bind, open_w, write, log_callback.
    rewrite Hopen by lia. cbn [fst snd dir_exists files log busy].
    edestruct (writerows_ok (part_filename base_name i) (Z.to_nat chunk_size - 1)
                 it1 rs) as (it2 & -> & Hf2 & Hr2); [done..|].
    cbn [fst snd dir_exists files log busy].
    rewrite (IH n (S i) it2 (drop (Z.to_nat chunk_size - 1) rs)).
    + cbn [dir_exists files log busy write_parts part_events]. f_equal. f_equal.
      * rewrite drop_S_cons by done. f_equal.
        rewrite !alter_insert_eq. f_equal. unfold append_text. simpl.
        rewrite take_S_cons by done. rewrite !render_cons.
        by rewrite <- !app_assoc.
      * rewrite drop_S_cons by done. by rewrite <- app_assoc.
    + intros j Hj. apply Hopen. lia.
    + by replace (S i + k)%nat with (i + S k)%nat by lia.
    + lia.
    + rewrite length_drop. simpl in Hlen. lia.
    + done.
    + done.
Qed.

Lemma process_splitting_open_fails (env : Env) (enc : encoding)
    (num_parts chunk_size : Z) (base_name : string) (m : errors_mode)
    (header : row) (rows : list row) (e : exn) (k : nat) (w : World) :
  0 < chunk_size ->
  (forall j, (j < k)%nat -> open_w_error env (part_filename base_name j) = None) ->
  open_w_error env (part_filename base_name k) = Some e ->
  (k < Z.to_nat num_parts)%nat ->
  (k * Z.to_nat chunk_size < length rows)%nat ->
  d_error (src env enc m) = None ->
  records (pending (open_reader env enc m)) = Some (header :: rows) ->
  process_splitting env enc num_parts chunk_size base_name m w =
    (Raise e,
     MkWorld (dir_exists w)
       (write_parts enc base_name header (Z.to_nat chunk_size) k 0 rows (files w))
       (log w ++ part_events base_name num_parts (Z.to_nat chunk_size) k 0 rows)
       (busy w)).
Proof.
  intros Hcs Hopen Hfail Hk Hlen Hd Hr. unfold process_splitting.
  pose proof (reader_next_records (open_reader env enc m) _ Hd Hr)
    as (it1 & Hn & Hf1 & Hr1).
  unfold open_reader in Hn. rewrite Hn.
  apply (split_loop_open_fails _ _ _ _ _ _ e k); try done.
  intros j Hj. apply Hopen. lia.
Qed.

(** X12.  When the file of part [k + 1] cannot be opened for writing, in a
    run where the source decodes, the strict pass stops there with the
    parts before it written; the stage logs its warning and runs the
    pass again from the header, which writes the same parts anew,
    announces them a second time and stops at the same file; the
    exception is then logged as the one error message of the run.  The
    parts before [k + 1] are left complete, the file that could not be
    opened is as it was.  (The counted rows are below 2^53 and
    [num_parts] is not so large that the quotient of the planner
    underflows.) *)
Theorem X12_part_cannot_be_opened (env : Env) (file_path : string)
    (num_parts : Z) (output_folder : string) (w : World) (enc : encoding)
    (header : row) (rows : list row) (k : nat) (e : exn) :
  let data_rows := line_count env enc Strict - 1 in
  let chunk_size := Z.to_nat (ceil_div data_rows num_parts) in
  let base_name := fst (splitext env (basename env file_path)) in
  let final := run env file_path num_parts output_folder w in
  let announced :=
    map (fun j => EvPart (j + 1) num_parts (part_filename base_name j))
        (seq 0 k) in
  dir_exists w = true \/ makedirs_error env = None ->
  detect_encoding (src env) = Ok enc ->
  d_error (src env enc Strict) = None ->
  src env enc Ignore = src env enc Strict ->
  records (pending (open_reader env enc Strict)) = Some (header :: rows) ->
  0 < data_rows < 2 ^ 53 ->
  0 < num_parts < data_rows * 2 ^ 1075 ->
  (k < Z.to_nat num_parts)%nat ->
  (k * chunk_size < length rows)%nat ->
  (forall j, (j < k)%nat -> open_w_error env (part_filename base_name j) = None) ->
  open_w_error env (part_filename base_name k) = Some e ->
  final.1 = Ok tt /\
  new_events w final.2 =
    start_events env file_path output_folder (dir_exists w) enc
    ++ EvPlan data_rows num_parts (ceil_div data_rows num_parts)
    :: announced ++ EvSplitRetry e :: announced ++ [EvUnexpected e] /\
  (forall j, (j < k)%nat ->
     files final.2 !! part_filename base_name j =
       Some (MkOutFile enc
               (render (header :: take chunk_size (drop (j * chunk_size) rows))))) /\
  files final.2 !! part_filename base_name k =
    files w !! part_filename base_name k.
Proof.
  intros data_rows chunk_size base_name final announced
    Hdir Hdet Hdec Hsame Hrec [Hrows _] [Hnp Hsmall] Hk Hlen Hopen Hfail.
  assert (0 < ceil_div data_rows num_parts) as Hcs.
  { pose proof (ceil_div_pos data_rows num_parts). lia. }
  destruct (counted_lines_strict env enc Hdec) as [Hcount Hev].
  assert (d_error (src env enc Ignore) = None) as Hdec' by (by rewrite Hsame).
  assert (records (pending (open_reader env enc Ignore)) = Some (header :: rows))
    as Hrec' by (unfold open_reader; by rewrite Hsame).
  subst final.
  rewrite (run_split _ _ _ _ _ enc (line_count env enc Strict)); [|done..|lia].
  fold data_rows. rewrite float_ceil_exact by (by apply underflows_small).
  fold base_name. rewrite Hev.
  unfold split_stage, try_except.
  rewrite (process_splitting_open_fails _ _ _ _ _ _ header rows e k) by done.
  unfold bind, log_callback. cbn [fst snd dir_exists files log busy].
  rewrite (process_splitting_open_fails _ _ _ _ _ _ header rows e k) by done.
  cbn [fst snd dir_exists files log busy]. fold chunk_size.
  rewrite (part_events_full _ _ _ k 0) by nia.
  split; [done|]. split; [|split].
  - erewrite new_events_app; [reflexivity|].
    cbn [log]. rewrite <- !app_assoc. reflexivity.
  - intros j Hj. apply (write_parts_lookup _ _ _ _ _ 0); [done|nia].
  - rewrite !write_parts_other; [done|..];
      intros j Hj Heq; apply part_filename_inj in Heq; lia.
Qed.

Lemma X12_part_cannot_be_opened_witness :
  let env :=
    MkEnv (fun _ _ => Decoded (Scenario.table 10) None) None
      (fun name => if String.eqb name "data_part_2.csv" then Some OSError else None)
      Scenario.posix_basename Scenario.posix_splitext in
  let final := run env "in/data.csv" 3 "out" Scenario.fresh in
  final.1 = Ok tt /\
  new_events Scenario.fresh final.2 =
    [EvStart "data.csv"; EvMkdir "out"; EvDetecting; EvDetected utf_8_sig;
     EvCounting; EvPlan 10 3 4;
     EvPart 1 3 "data_part_1.csv"; EvSplitRetry OSError;
     EvPart 1 3 "data_part_1.csv"; EvUnexpected OSError] /\
  files final.2 !! "data_part_1.csv"%string =
    Some (MkOutFile utf_8_sig
            (render (Scenario.table_header
                     :: map Scenario.data_row [1; 2; 3; 4]%nat))) /\
  files final.2 !! "data_part_2.csv"%string = None.
Proof.
  intros env final.
  destruct (X12_part_cannot_be_opened env "in/data.csv" 3 "out" Scenario.fresh
              utf_8_sig Scenario.table_header (Scenario.table_rows 10) 1 OSError)
    as (Hok & Hev & Hparts & Hk).
  - by right.
  - reflexivity.
  - reflexivity.
  - reflexivity.
  - vm_compute. reflexivity.
  - split; vm_compute; reflexivity.
  - split; vm_compute; reflexivity.
  - vm_compute. lia.
  - vm_compute. lia.
  - intros j Hj. assert (j = 0%nat) as -> by lia. vm_compute. reflexivity.
  - vm_compute. reflexivity.
  - split; [exact Hok|]. split; [exact Hev|]. split.
    + exact (Hparts 0%nat ltac:(lia)).
    + exact Hk.
Defined.

(** ** The callbacks of the page *)

Lemma starts_with_app (needle hay rest : text) :
  starts_with needle hay = true -> starts_with needle (hay ++ rest) = true.
Proof.
  revert hay. induction needle as [|c needle IH]; intros hay; [done|].
  destruct hay as [|d hay]; [done|]. simpl.
  intros [-> H]%andb_true_iff. by rewrite IH.
Qed.

Lemma contains_starts_with (needle hay : text) :
  starts_with needle hay = true -> contains needle hay = true.
Proof. intros H. destruct hay; simpl; by rewrite H. Qed.

Lemma log_colors_cross (m : text) :
  contains (lit "❌") m = true -> log_colors m = ("#DC2626", Some "#FEF2F2").
Proof. intros H. unfold log_colors. by rewrite H. Qed.

(** The mark a message of the engine starts with is the mark of its
    level; an informational message starts with none of the three. *)
Lemma message_mark (exn_text : exn -> text) (ev : Event) :
  let m := message exn_text ev in
  match level ev with
  | Error => starts_with (lit "❌") m = true
  | Warning => starts_with (lit "⚠️") m = true
  | Success => starts_with (lit "🎉") m = true
  | Info =>
      starts_with (lit "❌") m = false /\
      starts_with (lit "⚠️") m = false /\
      starts_with (lit "🎉") m = false
  end.
Proof.
  destruct ev; cbn [level message]; cbv zeta;
    try (split; [|split]); vm_compute; reflexivity.
Qed.

(** X13.  A message of the engine of level [Error] is shown in red on the
    red background, whatever the text of the exception in it, and the
    call changes nothing else on the page: the entry goes to the end of
    the log view, with the time of day in brackets. *)
Theorem X13_errors_are_red (exn_text : exn -> text) (timestamp : text)
    (ev : Event) (p : Page) :
  level ev = Error ->
  append_log timestamp (message exn_text ev) p =
    MkPage
      (log_view p
       ++ [MkLogEntry (lit "[" ++ timestamp ++ lit "]") (message exn_text ev)
             "#DC2626" (Some "#FEF2F2")])
      (progress_bar_visible p) (btn_run_disabled p) (btn_pick_file_disabled p).
Proof.
  intros Hlevel. unfold append_log.
  rewrite log_colors_cross; [done|].
  apply contains_starts_with.
  pose proof (message_mark exn_text ev) as H. cbv zeta in H.
  by rewrite Hlevel in H.
Qed.

Lemma X13_errors_are_red_witness :
  append_log (lit "12:00:00")
    (message (fun _ => lit "division by zero") (EvUnexpected ZeroDivisionError))
    (MkPage [] true true true) =
  MkPage
    [MkLogEntry (lit "[12:00:00]")
       (lit "❌ 发生未预期的错误: division by zero")
       "#DC2626" (Some "#FEF2F2")]
    true true true.
Proof.
  exact (X13_errors_are_red (fun _ => lit "division by zero") (lit "12:00:00")
           (EvUnexpected ZeroDivisionError) (MkPage [] true true true)
           eq_refl).
Defined.

(** X14.  The level of a message of the engine is the mark its text starts
    with: the cross for [Error], the warning sign for [Warning], the
    party popper for [Success]; an informational message starts with
    none of the three, whatever the names and numbers in it. *)
Theorem X14_level_is_the_leading_mark (exn_text : exn -> text) (ev : Event) :
  (level ev = Error <-> starts_with (lit "❌") (message exn_text ev) = true) /\
  (level ev = Warning <-> starts_with (lit "⚠️") (message exn_text ev) = true) /\
  (level ev = Success <-> starts_with (lit "🎉") (message exn_text ev) = true).
Proof.
  pose proof (message_mark exn_text ev) as H. cbv zeta in H.
  destruct (level ev) eqn:El.
  - destruct H as (H1 & H2 & H3). rewrite H1, H2, H3.
    repeat split; intros; discriminate.
  - assert (starts_with (lit "❌") (message exn_text ev) = false
            /\ starts_with (lit "🎉") (message exn_text ev) = false) as [H1 H3].
    { destruct ev; try discriminate El; split; vm_compute; reflexivity. }
    rewrite H, H1, H3. repeat split; intros; discriminate.
  - assert (starts_with (lit "❌") (message exn_text ev) = false
            /\ starts_with (lit "⚠️") (message exn_text ev) = false) as [H1 H2].
    { destruct ev; try discriminate El; split; vm_compute; reflexivity. }
    rewrite H, H1, H2. repeat split; intros; discriminate.
  - assert (starts_with (lit "⚠️") (message exn_text ev) = false
            /\ starts_with (lit "🎉") (message exn_text ev) = false) as [H2 H3].
    { destruct ev; try discriminate El; split; vm_compute; reflexivity. }
    rewrite H, H2, H3. repeat split; intros; discriminate.
Qed.

(** X15.  A warning of the engine is shown in amber unless its text holds a
    cross, and the success message in green unless its text holds a
    cross or a warning sign: the tests of [append_log] look for the
    marks anywhere in the message, the cross first. *)
Theorem X15_warning_and_success_colours (exn_text : exn -> text) (ev : Event) :
  let m := message exn_text ev in
  contains (lit "❌") m = false ->
  (level ev = Warning -> log_colors m = ("#D97706", Some "#FFFBEB")) /\
  (level ev = Success ->
   contains (lit "⚠️") m = false ->
   log_colors m = ("#059669", Some "#ECFDF5")).
Proof.
  intros m Hcross. pose proof (message_mark exn_text ev) as H. cbv zeta in H.
  fold m in H. split.
  - intros Hl. rewrite Hl in H. unfold log_colors.
    by rewrite Hcross, (contains_starts_with _ _ H).
  - intros Hl Hwarn. rewrite Hl in H. unfold log_colors.
    by rewrite Hcross, Hwarn, (contains_starts_with _ _ H).
Qed.

Lemma X15_warning_and_success_colours_witness :
  log_colors (message (fun _ => lit "Permission denied") (EvSplitRetry OSError))
    = ("#D97706", Some "#FFFBEB") /\
  log_colors (message (fun _ => []) (EvDone "out"))
    = ("#059669", Some "#ECFDF5").
Proof.
  split.
  - exact (proj1 (X15_warning_and_success_colours
                    (fun _ => lit "Permission denied") (EvSplitRetry OSError)
                    ltac:(vm_compute; reflexivity)) eq_refl).
  - exact (proj2 (X15_warning_and_success_colours
                    (fun _ => []) (EvDone "out")
                    ltac:(vm_compute; reflexivity)) eq_refl
                 ltac:(vm_compute; reflexivity)).
Defined.

Lemma after_false_calls (rest : list bool) (entries : list LogEntry) :
  Forall (fun b => b = false) rest ->
  fold_left (fun p b => set_loading b p) rest (MkPage entries false false false)
  = MkPage entries false false false.
Proof.
  induction 1 as [|b rest -> _ IH]; [done|]. exact IH.
Qed.

(** X16.  On every run the engine calls [set_loading] first with [True] and
    then only with [False], at least once: when it returns, on
    whatever way, the progress bar is hidden, the run button and the
    file button are enabled again, and the log view is as the calls
    found it. *)
Theorem X16_controls_restored (env : Env) (file_path : string) (num_parts : Z)
    (output_folder : string) (w : World) (p : Page) :
  let final := (run env file_path num_parts output_folder w).2 in
  let calls := new_calls w final in
  busy final = busy w ++ calls /\
  (exists rest, calls = true :: false :: rest /\ Forall (fun b => b = false) rest) /\
  after_progress_calls [true] p = MkPage (log_view p) true true true /\
  after_progress_calls calls p = MkPage (log_view p) false false false.
Proof.
  intros final calls. subst calls final. rewrite run_unfold.
  pose proof (split_body_outcome env file_path num_parts output_folder w) as H.
  unfold sat, body_post in H.
  assert (exists rest,
            busy (split_body env file_path num_parts output_folder w).2 ++ [false]
              = busy w ++ true :: false :: rest /\
            Forall (fun b => b = false) rest) as (rest & Hb & Hrest).
  { destruct (split_body env file_path num_parts output_folder w) as [[[]|e] w1];
      cbn [fst snd] in *; destruct H as (evs & _ & H).
    - destruct H as [(-> & _)|(-> & _)].
      + exists []. by rewrite <- app_assoc.
      + exists [false]. rewrite <- app_assoc. split; [done|]. by constructor.
    - destruct H as (-> & _). exists []. by rewrite <- app_assoc. }
  assert (busy (match split_body env file_path num_parts output_folder w with
                | (Ok a, w1) =>
                    (Ok a, MkWorld (dir_exists w1) (files w1) (log w1)
                             (busy w1 ++ [false]))
                | (Raise e, w1) =>
                    (Ok tt, MkWorld (dir_exists w1) (files w1)
                              (log w1 ++ [EvUnexpected e]) (busy w1 ++ [false]))
                end).2 = busy w ++ true :: false :: rest) as Hfinal.
  { by destruct (split_body env file_path num_parts output_folder w)
      as [[[]|e] w1]. }
  unfold new_calls. rewrite Hfinal, drop_app_length.
  split; [done|]. split; [by exists rest|]. split; [done|].
  unfold after_progress_calls. cbn [fold_left set_loading log_view].
  by apply after_false_calls.
Qed.
